(** * The deploy task plugin of warpdrive (taskplugin/deploy.go)

    A shallow embedding of [DeployTaskPlugin]: [Run] resolves the workloads
    behind a service and patches one container image per workload, [Wait]
    fingerprints the patched workloads and polls the cluster until the rollout
    is ready, has failed, was cancelled or timed out.

    Everything the plugin asks of the outside (the cluster client, the hub,
    the aslan HTTP service) is an answer table handed to the model; the code
    of the plugin itself is translated statement by statement. *)

From stdpp Require Import base option list gmap strings.
From Stdlib Require Import ZArith String Ascii Permutation Sorted Lia.

Open Scope string_scope.
Open Scope Z_scope.
Open Scope list_scope.

(** ** Errors and strings *)

(** A Go [error] is represented by the text of [err.Error()]; a nil error is
    [None]. *)
Definition error := string.

(** [errors.WithMessage(err, msg)]: the message, a colon, the cause. *)
Definition WithMessage (err : error) (msg : string) : error :=
  msg +:+ ": " +:+ err.

Definition newline : string := String (ascii_of_nat 10) EmptyString.

(** [strings.Join]. *)
Definition Join (elems : list string) (sep : string) : string :=
  String.concat sep elems.

(** [strings.HasSuffix] and [strings.TrimSuffix]. *)
Definition HasSuffix (s suffix : string) : bool :=
  (String.length suffix <=? String.length s)%nat
  && String.eqb
       (substring (String.length s - String.length suffix)
                  (String.length suffix) s)
       suffix.

Definition TrimSuffix (s suffix : string) : string :=
  if HasSuffix s suffix
  then substring 0 (String.length s - String.length suffix) s
  else s.

(** Results of calls that return [(value, error)] where the value is only
    looked at when the error is nil. *)
Inductive Result (A : Type) : Type :=
| Ok (a : A)
| Err (e : error).
Arguments Ok {A} a.
Arguments Err {A} e.

(** ** Constants of package setting *)

Module setting.
Definition Deployment : string := "Deployment".
Definition StatefulSet : string := "StatefulSet".
Definition CronJob : string := "CronJob".
Definition ProductLabel : string := "s-product".
Definition ServiceLabel : string := "s-service".
Definition StatusRunning : string := "Running".
Definition StatusSucceeded : string := "Succeeded".
End setting.

(** ** Task status (config.Status) *)

Inductive Status : Type :=
| StatusCreated
| StatusRunning
| StatusPassed
| StatusFailed
| StatusTimeout
| StatusCancelled.

Definition Status_eqb (a b : Status) : bool :=
  match a, b with
  | StatusCreated, StatusCreated
  | StatusRunning, StatusRunning
  | StatusPassed, StatusPassed
  | StatusFailed, StatusFailed
  | StatusTimeout, StatusTimeout
  | StatusCancelled, StatusCancelled => true
  | _, _ => false
  end.

(** The terminal states of the task life cycle. *)
Definition terminal (s : Status) : bool :=
  match s with
  | StatusPassed | StatusFailed | StatusTimeout | StatusCancelled => true
  | StatusCreated | StatusRunning => false
  end.

(** ** Kubernetes objects, reduced to the fields the plugin reads *)

Abbreviation Labels := (gmap string string).

Record Container : Type := {
  c_Name : string;
  c_Image : string;
}.

(** [metav1.LabelSelector] together with what [LabelSelectorAsSelector]
    makes of it: a selector, or an error for a malformed requirement. *)
Inductive LabelSelector : Type :=
| MatchLabels (ls : Labels)
| Malformed (why : error).

Definition LabelSelectorAsSelector (sel : LabelSelector) : Result Labels :=
  match sel with
  | MatchLabels ls => Ok ls
  | Malformed why => Err why
  end.

Record Deployment : Type := {
  d_Namespace : string;
  d_Name : string;
  d_UID : string;
  d_Selector : LabelSelector;
  d_TemplateLabels : Labels;
  d_Containers : list Container;
  d_Generation : Z;
  d_ObservedGeneration : Z;
  d_Replicas : Z;
  d_UpdatedReplicas : Z;
  d_AvailableReplicas : Z;
}.

Record StatefulSet : Type := {
  s_Namespace : string;
  s_Name : string;
  s_UID : string;
  s_TemplateLabels : Labels;
  s_Containers : list Container;
  s_Generation : Z;
  s_ObservedGeneration : Z;
  s_Replicas : Z;
  s_UpdatedReplicas : Z;
  s_AvailableReplicas : Z;
}.

(** batch/v1 and batch/v1beta1 cron jobs have the same shape here. *)
Record CronJob : Type := {
  cj_Namespace : string;
  cj_Name : string;
  cj_TemplateLabels : Labels;
  cj_Containers : list Container;
}.

Record OwnerReference : Type := {
  or_UID : string;
  or_Controller : bool;
}.

Record ReplicaSet : Type := {
  rs_UID : string;
  rs_CreationTimestamp : Z;
  rs_OwnerReferences : list OwnerReference;
}.

(** [cs.State.Waiting], a pointer in the source. *)
Record ContainerStateWaiting : Type := {
  w_Reason : string;
  w_Message : string;
}.

Record ContainerStatus : Type := {
  cs_Waiting : option ContainerStateWaiting;
}.

(** The view [wrapper.Pod(pod).Resource()] returns. The wrapper package is
    not part of this file's source, so every pod carries its own view and
    the statements below hold whatever the view is. *)
Record ResourceContainer : Type := {
  rc_Status : string;
  rc_Reason : string;
  rc_Message : string;
}.

Record ResourcePod : Type := {
  rp_Status : string;
  rp_Containers : list ResourceContainer;
}.

Record Pod : Type := {
  pod_Name : string;
  pod_OwnerReferences : list OwnerReference;
  pod_InitContainerStatuses : list ContainerStatus;
  pod_ContainerStatuses : list ContainerStatus;
  pod_Resource : ResourcePod;
}.

(** [metav1.IsControlledBy]: the first owner reference flagged as controller
    carries the owner's UID. *)
Definition IsControlledBy (rs : ReplicaSet) (d : Deployment) : bool :=
  match List.find or_Controller (rs_OwnerReferences rs) with
  | Some ref => String.eqb (or_UID ref) (d_UID d)
  | None => false
  end.

(** [CreationTimestamp.After]. *)
Definition After (a b : Z) : bool := b <? a.

(** Modelled from the spec: wrapper.Pod.IsOwnerMatched is not in the source
    at hand; a pod matches a fingerprint when one of its owner references
    carries that UID. *)
Definition IsOwnerMatched (pod : Pod) (uid : string) : bool :=
  existsb (fun ref => String.eqb (or_UID ref) uid) (pod_OwnerReferences pod).

(** Modelled from the spec: wrapper.Deployment.Ready is not in the source at
    hand; ready means the observed generation has reached the desired one and
    the updated and available replica counts equal the desired count. *)
Definition DeploymentReady (d : Deployment) : bool :=
  (d_Generation d <=? d_ObservedGeneration d)
  && (d_UpdatedReplicas d =? d_Replicas d)
  && (d_AvailableReplicas d =? d_Replicas d).

(** Modelled from the spec: wrapper.StatefulSet.Ready is not in the source at
    hand; the analogous generation and replica match. *)
Definition StatefulSetReady (s : StatefulSet) : bool :=
  (s_Generation s <=? s_ObservedGeneration s)
  && (s_UpdatedReplicas s =? s_Replicas s)
  && (s_AvailableReplicas s =? s_Replicas s).

(** ** Answers of the cluster client *)

(** [getter.GetX] returns [(object, found, err)]. The object is there when
    [found] holds and [err] is nil; with [found] false the pointer may or may
    not be nil, which matters where the code does not look at [found]. *)
Inductive GetResult (A : Type) : Type :=
| GetFound (a : A)
| GetMissing (ptr : option A)
| GetError (e : error).
Arguments GetFound {A} a.
Arguments GetMissing {A} ptr.
Arguments GetError {A} e.

(** [getter.GetCronJob] returns two pointers, one per API version. *)
Inductive GetCronResult : Type :=
| CronFound (cronJob cronJobBeta : option CronJob)
| CronMissing
| CronError (e : error).

(** What one client answers. Arguments are in the order of the Go calls:
    namespace first. *)
Record Cluster : Type := {
  ListDeployments : string -> Labels -> Result (list Deployment);
  ListStatefulSets : string -> Labels -> Result (list StatefulSet);
  ListCronJobs : string -> Labels -> bool -> Result (list CronJob * list CronJob);
  ListPods : string -> Labels -> Result (list Pod);
  ListReplicaSets : string -> Labels -> Result (list ReplicaSet);
  GetDeployment : string -> string -> GetResult Deployment;
  GetStatefulSet : string -> string -> GetResult StatefulSet;
  GetCronJob : string -> string -> bool -> GetCronResult;
  UpdateDeploymentImage : string -> string -> string -> string -> option error;
  UpdateStatefulSetImage : string -> string -> string -> string -> option error;
  UpdateCronJobImage : string -> string -> string -> string -> bool -> option error;
}.

(** [version.Info], reduced to what [kubeclient.VersionLessThan121] says. *)
Record VersionInfo : Type := {
  VersionLessThan121 : bool;
}.

Record ClientSet : Type := {
  ServerVersion : Result VersionInfo;
}.

(** ** The task *)

Record Resource : Type := {
  Kind : string;
  Container_ : string;
  Origin : string;
  Name : string;
  PodOwnerUID : string;
}.

Record Deploy : Type := {
  TaskStatus : Status;
  Error : string;
  Timeout : Z;
  SkipWaiting : bool;
  Enabled : bool;
  EnvName : string;
  ProductName : string;
  Namespace : string;
  ServiceName : string;
  ServiceType : string;
  ContainerName : string;
  Image : string;
  StartTime : Z;
  EndTime : Z;
  ReplaceResources : list Resource;
  RelatedPodLabels : list Labels;
}.

Definition with_TaskStatus (v : Status) (t : Deploy) : Deploy :=
  {| TaskStatus := v; Error := Error t; Timeout := Timeout t;
     SkipWaiting := SkipWaiting t; Enabled := Enabled t; EnvName := EnvName t;
     ProductName := ProductName t; Namespace := Namespace t;
     ServiceName := ServiceName t; ServiceType := ServiceType t;
     ContainerName := ContainerName t; Image := Image t;
     StartTime := StartTime t; EndTime := EndTime t;
     ReplaceResources := ReplaceResources t;
     RelatedPodLabels := RelatedPodLabels t |}.

Definition with_Error (v : string) (t : Deploy) : Deploy :=
  {| TaskStatus := TaskStatus t; Error := v; Timeout := Timeout t;
     SkipWaiting := SkipWaiting t; Enabled := Enabled t; EnvName := EnvName t;
     ProductName := ProductName t; Namespace := Namespace t;
     ServiceName := ServiceName t; ServiceType := ServiceType t;
     ContainerName := ContainerName t; Image := Image t;
     StartTime := StartTime t; EndTime := EndTime t;
     ReplaceResources := ReplaceResources t;
     RelatedPodLabels := RelatedPodLabels t |}.

Definition with_Timeout (v : Z) (t : Deploy) : Deploy :=
  {| TaskStatus := TaskStatus t; Error := Error t; Timeout := v;
     SkipWaiting := SkipWaiting t; Enabled := Enabled t; EnvName := EnvName t;
     ProductName := ProductName t; Namespace := Namespace t;
     ServiceName := ServiceName t; ServiceType := ServiceType t;
     ContainerName := ContainerName t; Image := Image t;
     StartTime := StartTime t; EndTime := EndTime t;
     ReplaceResources := ReplaceResources t;
     RelatedPodLabels := RelatedPodLabels t |}.

Definition with_ReplaceResources (v : list Resource) (t : Deploy) : Deploy :=
  {| TaskStatus := TaskStatus t; Error := Error t; Timeout := Timeout t;
     SkipWaiting := SkipWaiting t; Enabled := Enabled t; EnvName := EnvName t;
     ProductName := ProductName t; Namespace := Namespace t;
     ServiceName := ServiceName t; ServiceType := ServiceType t;
     ContainerName := ContainerName t; Image := Image t;
     StartTime := StartTime t; EndTime := EndTime t;
     ReplaceResources := v;
     RelatedPodLabels := RelatedPodLabels t |}.

Definition with_RelatedPodLabels (v : list Labels) (t : Deploy) : Deploy :=
  {| TaskStatus := TaskStatus t; Error := Error t; Timeout := Timeout t;
     SkipWaiting := SkipWaiting t; Enabled := Enabled t; EnvName := EnvName t;
     ProductName := ProductName t; Namespace := Namespace t;
     ServiceName := ServiceName t; ServiceType := ServiceType t;
     ContainerName := ContainerName t; Image := Image t;
     StartTime := StartTime t; EndTime := EndTime t;
     ReplaceResources := ReplaceResources t;
     RelatedPodLabels := v |}.

Definition with_PodOwnerUID (v : string) (r : Resource) : Resource :=
  {| Kind := Kind r; Container_ := Container_ r; Origin := Origin r;
     Name := Name r; PodOwnerUID := v |}.

(** ** Control flow

    A statement runs on a frame of variables and either falls through to the
    next statement, or leaves by [return], by [break], or by a panic (a nil
    dereference). *)

Inductive Ctl (A : Type) : Type :=
| Norm (a : A)
| Return
| Break
| Panic.
Arguments Norm {A} a.
Arguments Return {A}.
Arguments Break {A}.
Arguments Panic {A}.

Definition M (S A : Type) : Type := S -> Ctl A * S.

Definition ret {S A} (a : A) : M S A := fun s => (Norm a, s).

Definition bind {S A B} (m : M S A) (f : A -> M S B) : M S B :=
  fun s =>
    match m s with
    | (Norm a, s') => f a s'
    | (Return, s') => (Return, s')
    | (Break, s') => (Break, s')
    | (Panic, s') => (Panic, s')
    end.

Notation "x <- m ;; k" := (bind m (fun x => k))
  (at level 100, m at next level, right associativity).
Notation "m ;; k" := (bind m (fun _ => k))
  (at level 100, right associativity).

Definition skip {S} : M S unit := ret tt.
Definition return_ {S A} : M S A := fun s => (Return, s).
Definition break_ {S A} : M S A := fun s => (Break, s).
Definition panic {S A} : M S A := fun s => (Panic, s).
Definition modify {S} (f : S -> S) : M S unit := fun s => (Norm tt, f s).
Definition gets {S A} (f : S -> A) : M S A := fun s => (Norm (f s), s).

(** [if b { m }]. *)
Definition when {S} (b : bool) (m : M S unit) : M S unit :=
  if b then m else skip.

(** [for _, x := range xs { body }]; a [break] raised in the body is passed
    on to [labelled], which marks the loop the [break] leaves. *)
Fixpoint forEach {S X} (xs : list X) (body : X -> M S unit) : M S unit :=
  match xs with
  | [] => skip
  | x :: rest => body x ;; forEach rest body
  end.

Definition labelled {S} (loop : M S unit) : M S unit :=
  fun s =>
    match loop s with
    | (Break, s') => (Norm tt, s')
    | r => r
    end.

(** [sat m s Q]: running [m] from [s] ends in a way and a frame that [Q]
    accepts. *)
Definition sat {S A} (m : M S A) (s : S) (Q : Ctl A -> S -> Prop) : Prop :=
  Q (fst (m s)) (snd (m s)).

(** [keeps g m]: however [m] ends, the part [g] of the frame is what it
    was. *)
Definition keeps {S A V} (g : S -> V) (m : M S A) : Prop :=
  forall s, g (snd (m s)) = g s.

(** ** What the plugin asks of the hub and of aslan *)

Record ProductInfo : Type := {
  IsSleeping : bool;
}.

(** [types.ServiceTmpl], reduced to the workload type. *)
Record ServiceTmpl : Type := {
  WorkloadType : string;
}.

(** A decoded manifest: [u.GetKind()] and [u.GetName()]. *)
Record Unstructured : Type := {
  u_Kind : string;
  u_Name : string;
}.

Record ConfigPayload : Type := {
  DeployClusterID : string;
  HubServerAddr : string;
}.

Record Env : Type := {
  GetRESTConfig : string -> string -> Result string;
  GetKubeClient : string -> string -> Result Cluster;
  (** the clientset and the error are both kept by the caller *)
  GetKubeClientSet : string -> string -> option ClientSet * option error;
  (** environment name, product name *)
  GetProductInfo : string -> string -> Result ProductInfo;
  (** GET /api/service/services/name/type with project and revision *)
  httpGetService : string -> string -> string -> Z -> Result ServiceTmpl;
  (** GET /api/environment/export/service: project, environment, service *)
  httpExportService : string -> string -> string -> Result (list string);
  YamlToUnstructured : string -> Result Unstructured;
}.

(** Calls that leave the process, in the order they are made. *)
Inductive Call : Type :=
| CallListDeployments (namespace : string) (selector : Labels)
| CallListStatefulSets (namespace : string) (selector : Labels)
| CallListCronJobs (namespace : string) (selector : Labels)
| CallExportService (productName envName serviceName : string)
| CallUpdateImage (kind namespace name container image : string)
| CallListReplicaSets (namespace : string) (selector : Labels)
| CallSleep (seconds : Z).

Record DeployTaskPlugin : Type := {
  kubeClient : Cluster;
  ClientSet_ : option ClientSet;
  restConfig : option string;
  Task : Deploy;
}.

Definition with_Task (t : Deploy) (p : DeployTaskPlugin) : DeployTaskPlugin :=
  {| kubeClient := kubeClient p; ClientSet_ := ClientSet_ p;
     restConfig := restConfig p; Task := t |}.

Definition with_kubeClient (c : Cluster) (p : DeployTaskPlugin) : DeployTaskPlugin :=
  {| kubeClient := c; ClientSet_ := ClientSet_ p;
     restConfig := restConfig p; Task := Task p |}.

Definition with_ClientSet (c : option ClientSet) (p : DeployTaskPlugin) : DeployTaskPlugin :=
  {| kubeClient := kubeClient p; ClientSet_ := c;
     restConfig := restConfig p; Task := Task p |}.

Definition with_restConfig (c : option string) (p : DeployTaskPlugin) : DeployTaskPlugin :=
  {| kubeClient := kubeClient p; ClientSet_ := ClientSet_ p;
     restConfig := c; Task := Task p |}.

(** ** Accessors of the plugin contract *)

Definition GetStatus (p : DeployTaskPlugin) : Status := TaskStatus (Task p).

Definition SetStatus (status : Status) (p : DeployTaskPlugin) : DeployTaskPlugin :=
  with_Task (with_TaskStatus status (Task p)) p.

Definition IsTaskDone (t : Deploy) : bool :=
  negb (Status_eqb (TaskStatus t) StatusCreated)
  && negb (Status_eqb (TaskStatus t) StatusRunning).

Definition IsTaskFailed (t : Deploy) : bool :=
  Status_eqb (TaskStatus t) StatusFailed
  || Status_eqb (TaskStatus t) StatusTimeout
  || Status_eqb (TaskStatus t) StatusCancelled.

Definition ResetError (p : DeployTaskPlugin) : DeployTaskPlugin :=
  with_Task (with_Error EmptyString (Task p)) p.


(** ** Workload resolution, unknown workload type *)

Record Workloads : Type := {
  deployments : list Deployment;
  statefulSets : list StatefulSet;
  cronJobs : list CronJob;
  cronJobBetas : list CronJob;
}.

Definition noWorkloads : Workloads :=
  {| deployments := []; statefulSets := []; cronJobs := []; cronJobBetas := [] |}.

Definition optToList {A} (ptr : option A) : list A :=
  match ptr with Some a => [a] | None => [] end.

(** One turn of the loop over the manifests in
    [fetchWorkloadsForImportedService]: a manifest that does not decode, or
    whose object cannot be fetched, is skipped. *)
Definition importManifest (env : Env) (kClient : Cluster) (namespace : string)
    (version : VersionInfo) (acc : Workloads) (manifest : string) : Workloads :=
  match YamlToUnstructured env manifest with
  | Err _ => acc
  | Ok u =>
      if String.eqb (u_Kind u) setting.Deployment then
        match GetDeployment kClient namespace (u_Name u) with
        | GetFound deployment =>
            {| deployments := deployments acc ++ [deployment];
               statefulSets := statefulSets acc;
               cronJobs := cronJobs acc; cronJobBetas := cronJobBetas acc |}
        | _ => acc
        end
      else if String.eqb (u_Kind u) setting.StatefulSet then
        match GetStatefulSet kClient namespace (u_Name u) with
        | GetFound sts =>
            {| deployments := deployments acc;
               statefulSets := statefulSets acc ++ [sts];
               cronJobs := cronJobs acc; cronJobBetas := cronJobBetas acc |}
        | _ => acc
        end
      else if String.eqb (u_Kind u) setting.CronJob then
        match GetCronJob kClient namespace (u_Name u) (VersionLessThan121 version) with
        | CronFound cron cronBatch =>
            {| deployments := deployments acc;
               statefulSets := statefulSets acc;
               cronJobs := cronJobs acc ++ optToList cron;
               cronJobBetas := cronJobBetas acc ++ optToList cronBatch |}
        | _ => acc
        end
      else acc
  end.

Definition fetchWorkloadsForImportedService (env : Env) (envName namespace
    productName serviceName : string) (kClient : Cluster) (version : VersionInfo)
    : Result Workloads * list Call :=
  match httpExportService env productName envName serviceName with
  | Err e => (Err e, [CallExportService productName envName serviceName])
  | Ok manifests =>
      (Ok (fold_left (importManifest env kClient namespace version) manifests noWorkloads),
       [CallExportService productName envName serviceName])
  end.

Definition fetchRelatedWorkloads (env : Env) (envName namespace productName
    serviceName : string) (kClient : Cluster) (version : VersionInfo)
    : Result Workloads * list Call :=
  let selector : Labels :=
    <[setting.ServiceLabel := serviceName]> {[ setting.ProductLabel := productName ]} in
  match ListDeployments kClient namespace selector with
  | Err e => (Err e, [CallListDeployments namespace selector])
  | Ok deployments =>
  match ListStatefulSets kClient namespace selector with
  | Err e => (Err e, [CallListDeployments namespace selector;
                      CallListStatefulSets namespace selector])
  | Ok statefulSets =>
  match ListCronJobs kClient namespace selector (VersionLessThan121 version) with
  | Err e => (Err e, [CallListDeployments namespace selector;
                      CallListStatefulSets namespace selector;
                      CallListCronJobs namespace selector])
  | Ok (cronJobs, cronJobBeta) =>
      if (0 <? List.length deployments)%nat || (0 <? List.length statefulSets)%nat
         || (0 <? List.length cronJobs)%nat || (0 <? List.length cronJobBeta)%nat
      then (Ok {| deployments := deployments; statefulSets := statefulSets;
                  cronJobs := cronJobs; cronJobBetas := cronJobBeta |},
            [CallListDeployments namespace selector;
             CallListStatefulSets namespace selector;
             CallListCronJobs namespace selector])
      else
        let (r, made) :=
          fetchWorkloadsForImportedService env envName namespace productName
            serviceName kClient version in
        (r, [CallListDeployments namespace selector;
             CallListStatefulSets namespace selector;
             CallListCronJobs namespace selector] ++ made)
  end end end.

(** ** Run *)

(** The variables of [Run]: the receiver, the named error the deferred
    function looks at, the flag [replaced], and the calls made so far. *)
Record RunFrame : Type := {
  plugin : DeployTaskPlugin;
  err : option error;
  replaced : bool;
  calls : list Call;
}.

Definition assignErr (e : option error) : M RunFrame unit :=
  modify (fun f => {| plugin := plugin f; err := e;
                      replaced := replaced f; calls := calls f |}).

Definition setReplaced (b : bool) : M RunFrame unit :=
  modify (fun f => {| plugin := plugin f; err := err f;
                      replaced := b; calls := calls f |}).

Definition record (made : list Call) : M RunFrame unit :=
  modify (fun f => {| plugin := plugin f; err := err f;
                      replaced := replaced f; calls := calls f ++ made |}).

Definition onPlugin (g : DeployTaskPlugin -> DeployTaskPlugin) : M RunFrame unit :=
  modify (fun f => {| plugin := g (plugin f); err := err f;
                      replaced := replaced f; calls := calls f |}).

(** [p.Task.ReplaceResources = append(p.Task.ReplaceResources, r)]. *)
Definition appendResource (r : Resource) : M RunFrame unit :=
  onPlugin (fun p =>
    with_Task (with_ReplaceResources (ReplaceResources (Task p) ++ [r]) (Task p)) p).

(** [p.Task.RelatedPodLabels = append(p.Task.RelatedPodLabels, l)]. *)
Definition appendLabels (l : Labels) : M RunFrame unit :=
  onPlugin (fun p =>
    with_Task (with_RelatedPodLabels (RelatedPodLabels (Task p) ++ [l]) (Task p)) p).

(** The body of [if container.Name == containerName { ... }], which the
    source repeats for every kind of workload. [segment] is the path segment
    of the error message, [update] the updater called, [labels] the pod
    template labels recorded on the unknown-type path ([None] on the
    known-type path, which records none). The body ends in a [break]. *)
Definition patch (kind segment : string)
    (update : Cluster -> string -> string -> string -> string -> option error)
    (wNamespace wName containerName : string) (container : Container)
    (labels : option Labels) : M RunFrame unit :=
  p <- gets plugin ;;
  record [CallUpdateImage kind wNamespace wName containerName (Image (Task p))] ;;
  assignErr (update (kubeClient p) wNamespace wName containerName (Image (Task p))) ;;
  e <- gets err ;;
  match e with
  | Some cause =>
      assignErr (Some (WithMessage cause
        ("failed to update container image in " +:+ Namespace (Task p) +:+ "/"
           +:+ segment +:+ "/" +:+ wName +:+ "/" +:+ c_Name container))) ;;
      return_
  | None => skip
  end ;;
  appendResource {| Kind := kind; Container_ := c_Name container;
                    Origin := c_Image container; Name := wName;
                    PodOwnerUID := EmptyString |} ;;
  setReplaced true ;;
  match labels with
  | Some l => appendLabels l
  | None => skip
  end ;;
  break_.

(** [for _, container := range containers { if container.Name == containerName
    { ... } }]. The [break] of the body is handled by the caller. *)
Definition scanContainers (kind segment : string)
    (update : Cluster -> string -> string -> string -> string -> option error)
    (wNamespace wName containerName : string) (containers : list Container)
    (labels : option Labels) : M RunFrame unit :=
  forEach containers (fun container =>
    when (String.eqb (c_Name container) containerName)
      (patch kind segment update wNamespace wName containerName container labels)).

Definition updateCron (c : Cluster) (ns name container image : string) : option error :=
  UpdateCronJobImage c ns name container image false.

(** The four labelled loops of the unknown-type path. *)
Definition patchDiscovered (containerName : string) (w : Workloads) : M RunFrame unit :=
  labelled (forEach (deployments w) (fun deploy =>
    scanContainers setting.Deployment "deployments" UpdateDeploymentImage
      (d_Namespace deploy) (d_Name deploy) containerName (d_Containers deploy)
      (Some (d_TemplateLabels deploy)))) ;;
  labelled (forEach (statefulSets w) (fun sts =>
    scanContainers setting.StatefulSet "statefulsets" UpdateStatefulSetImage
      (s_Namespace sts) (s_Name sts) containerName (s_Containers sts)
      (Some (s_TemplateLabels sts)))) ;;
  labelled (forEach (cronJobs w) (fun cron =>
    scanContainers setting.CronJob "statefulsets" updateCron
      (cj_Namespace cron) (cj_Name cron) containerName (cj_Containers cron)
      (Some (cj_TemplateLabels cron)))) ;;
  labelled (forEach (cronJobBetas w) (fun cron =>
    scanContainers setting.CronJob "statefulsets" updateCron
      (cj_Namespace cron) (cj_Name cron) containerName (cj_Containers cron)
      (Some (cj_TemplateLabels cron)))).

(** [if pipelineTask.ConfigPayload.DeployClusterID != "" { ... }]. The third
    branch records its error and, unlike the two before it, has no
    [return]. A client returned together with an error is not represented;
    [Run] returns before it is used. *)
Definition connect (env : Env) (payload : ConfigPayload) : M RunFrame unit :=
  when (negb (String.eqb (DeployClusterID payload) EmptyString))
    (match GetRESTConfig env (HubServerAddr payload) (DeployClusterID payload) with
     | Err cause =>
         onPlugin (with_restConfig None) ;;
         assignErr (Some cause) ;;
         assignErr (Some (WithMessage cause "can't get k8s rest config")) ;;
         return_
     | Ok cfg => onPlugin (with_restConfig (Some cfg)) ;; assignErr None
     end ;;
     match GetKubeClient env (HubServerAddr payload) (DeployClusterID payload) with
     | Err cause =>
         assignErr (Some cause) ;;
         assignErr (Some (WithMessage cause "can't init k8s client")) ;;
         return_
     | Ok client => onPlugin (with_kubeClient client) ;; assignErr None
     end ;;
     let (clientset, e) :=
       GetKubeClientSet env (HubServerAddr payload) (DeployClusterID payload) in
     onPlugin (with_ClientSet clientset) ;;
     assignErr e ;;
     match e with
     | Some cause => assignErr (Some (WithMessage cause "failed to init k8s clientset"))
     | None => skip
     end).

(** The [else] branch of [Run]: the workload type is known. *)
Definition patchKnown (workloadType containerName : string) (version : VersionInfo)
    : M RunFrame unit :=
  p <- gets plugin ;;
  let t := Task p in
  if String.eqb workloadType setting.StatefulSet then
    match GetStatefulSet (kubeClient p) (Namespace t) (ServiceName t) with
    | GetError cause => assignErr (Some cause) ;; return_
    | GetMissing _ =>
        assignErr None ;;
        assignErr (Some ("statefulset: " +:+ ServiceName t +:+ " not found")) ;;
        return_
    | GetFound statefulSet =>
        assignErr None ;;
        labelled (scanContainers setting.StatefulSet "statefulsets" UpdateStatefulSetImage
          (s_Namespace statefulSet) (s_Name statefulSet) containerName
          (s_Containers statefulSet) None)
    end
  else if String.eqb workloadType setting.Deployment then
    match GetDeployment (kubeClient p) (Namespace t) (ServiceName t) with
    | GetError cause => assignErr (Some cause) ;; return_
    | GetMissing _ =>
        assignErr None ;;
        assignErr (Some ("deployment: " +:+ ServiceName t +:+ " not found")) ;;
        return_
    | GetFound deployment =>
        assignErr None ;;
        labelled (scanContainers setting.Deployment "deployments" UpdateDeploymentImage
          (d_Namespace deployment) (d_Name deployment) containerName
          (d_Containers deployment) None)
    end
  else if String.eqb workloadType setting.CronJob then
    match GetCronJob (kubeClient p) (Namespace t) (ServiceName t)
            (VersionLessThan121 version) with
    | CronError cause =>
        assignErr (Some (WithMessage cause ("failed to get cronjob " +:+ ServiceName t))) ;;
        return_
    | CronMissing =>
        assignErr (Some ("cronJob: " +:+ ServiceName t +:+ " not found")) ;;
        return_
    | CronFound cronJob cronJobBeta =>
        match cronJob with
        | Some cj =>
            labelled (scanContainers setting.CronJob "cronJob" updateCron
              (cj_Namespace cj) (cj_Name cj) containerName (cj_Containers cj) None)
        | None => skip
        end ;;
        match cronJobBeta with
        | Some cj =>
            labelled (scanContainers setting.CronJob "cronJob" updateCron
              (cj_Namespace cj) (cj_Name cj) containerName (cj_Containers cj) None)
        | None => skip
        end
    end
  else skip.

(** [containerName = strings.TrimSuffix(containerName, "_"+p.Task.ServiceName)]. *)
Definition logicalContainerName (t : Deploy) : string :=
  TrimSuffix (ContainerName t) ("_" +:+ ServiceName t).

Definition notFoundMessage (containerName : string) : error :=
  "container " +:+ containerName +:+ " is not found in resources ".

(** The statements of [Run] from the first one after the [defer] down to
    the call of [getService]: they yield the server version and the service
    template. *)
Definition prepare (env : Env) (payload : ConfigPayload)
    : M RunFrame (VersionInfo * ServiceTmpl) :=
  connect env payload ;;
  p <- gets plugin ;;
  let t := Task p in
  version <-
    match ClientSet_ p with
    | None => panic
    | Some clientset =>
        match ServerVersion clientset with
        | Err errGetVersion =>
            assignErr (Some (WithMessage errGetVersion
                               "failed to get kubernetes server version")) ;;
            return_
        | Ok version => ret version
        end
    end ;;
  productInfo <-
    match GetProductInfo env (EnvName t) (ProductName t) with
    | Err cause =>
        assignErr (Some cause) ;;
        assignErr (Some (WithMessage cause
          ("failed to get product " +:+ Namespace t +:+ "/" +:+ ServiceName t))) ;;
        return_
    | Ok productInfo => assignErr None ;; ret productInfo
    end ;;
  when (IsSleeping productInfo)
    (assignErr (Some ("product " +:+ ProductName t +:+ "/" +:+ EnvName t
                        +:+ " is sleeping")) ;;
     return_) ;;
  serviceInfo <-
    match httpGetService env (ServiceName t) (ServiceType t) (ProductName t) 0 with
    | Err cause => assignErr (Some cause) ;; return_
    | Ok serviceInfo => assignErr None ;; ret serviceInfo
    end ;;
  ret (version, serviceInfo).

(** [if serviceInfo.WorkloadType == "" { ... } else { switch ... }]. *)
Definition resolveAndPatch (env : Env) (version : VersionInfo)
    (serviceInfo : ServiceTmpl) : M RunFrame unit :=
  p <- gets plugin ;;
  let t := Task p in
  let containerName := logicalContainerName t in
  if String.eqb (WorkloadType serviceInfo) EmptyString then
    let (found, made) :=
      fetchRelatedWorkloads env (EnvName t) (Namespace t) (ProductName t)
        (ServiceName t) (kubeClient p) version in
    record made ;;
    match found with
    | Err errFoundWorkload =>
        assignErr (Some (WithMessage errFoundWorkload
                           "failed to fetch related workloads")) ;;
        return_
    | Ok w => patchDiscovered containerName w
    end
  else patchKnown (WorkloadType serviceInfo) containerName version.

(** [if !replaced { ... }], the last statement of [Run]. *)
Definition requireReplaced : M RunFrame unit :=
  f <- gets (fun f => f) ;;
  when (negb (replaced f))
    (assignErr (Some (notFoundMessage (logicalContainerName (Task (plugin f))))) ;;
     return_).

(** The body of [Run], from the first statement after the [defer] to the
    closing brace. *)
Definition Run_body (env : Env) (payload : ConfigPayload) : M RunFrame unit :=
  vs <- prepare env payload ;;
  resolveAndPatch env (fst vs) (snd vs) ;;
  requireReplaced.

Definition enterRun (p : DeployTaskPlugin) : RunFrame :=
  {| plugin := p; err := None; replaced := false; calls := [] |}.

(** The deferred function: it looks at [err] once, when [Run] is left. *)
Definition deferred (f : RunFrame) : DeployTaskPlugin :=
  match err f with
  | Some e =>
      with_Task (with_Error e (with_TaskStatus StatusFailed (Task (plugin f))))
                (plugin f)
  | None => plugin f
  end.

Inductive Outcome : Type :=
| Completed
| Panicked.

(** [Run] has no result: the caller sees the receiver (and, here, the calls
    made). A panic still runs the deferred function. *)
Definition Run (env : Env) (payload : ConfigPayload) (p : DeployTaskPlugin)
    : Outcome * DeployTaskPlugin * list Call :=
  let (c, f) := Run_body env payload (enterRun p) in
  (match c with Panic => Panicked | _ => Completed end, deferred f, calls f).

(** ** The fast-fail scan of Wait *)

(** [case "ImagePullBackOff", "ErrImagePull", "CrashLoopBackOff",
    "ErrImageNeverPull"]. *)
Definition isTerminalReason (reason : string) : bool :=
  String.eqb reason "ImagePullBackOff"
  || String.eqb reason "ErrImagePull"
  || String.eqb reason "CrashLoopBackOff"
  || String.eqb reason "ErrImageNeverPull".

Definition waitingMessage (podName : string) (w : ContainerStateWaiting) : error :=
  "pod: " +:+ podName +:+ ", " +:+ w_Reason w +:+ ": " +:+ w_Message w.

(** [for _, cs := range allContainerStatuses { ... }]. *)
Fixpoint scanStatuses (podName : string) (statuses : list ContainerStatus)
    : option error :=
  match statuses with
  | [] => None
  | cs :: rest =>
      match cs_Waiting cs with
      | Some w =>
          if isTerminalReason (w_Reason w)
          then Some (waitingMessage podName w)
          else scanStatuses podName rest
      | None => scanStatuses podName rest
      end
  end.

(** [for _, pod := range pods { ... }]. *)
Fixpoint scanPods (pods : list Pod) (ownerUID : string) : option error :=
  match pods with
  | [] => None
  | pod :: rest =>
      if negb (IsOwnerMatched pod ownerUID) then scanPods rest ownerUID
      else
        match scanStatuses (pod_Name pod)
                (pod_InitContainerStatuses pod ++ pod_ContainerStatuses pod) with
        | Some e => Some e
        | None => scanPods rest ownerUID
        end
  end.

Fixpoint workLoadDeployStat (kubeClient : Cluster) (namespace : string)
    (labelMaps : list Labels) (ownerUID : string) : option error :=
  match labelMaps with
  | [] => None
  | label :: rest =>
      match ListPods kubeClient namespace label with
      | Err e => Some e
      | Ok pods =>
          match scanPods pods ownerUID with
          | Some e => Some e
          | None => workLoadDeployStat kubeClient namespace rest ownerUID
          end
      end
  end.

(** ** The diagnostic scan of the timeout case *)

Definition diagnosticLine (cs : ResourceContainer) : string :=
  "Status: " +:+ rc_Status cs +:+ ", Reason: " +:+ rc_Reason cs
    +:+ ", Message: " +:+ rc_Message cs.

(** [if cs.Message != "" { msg = append(msg, ...) }]. *)
Definition diagnoseContainer (msg : list string) (cs : ResourceContainer)
    : list string :=
  if negb (String.eqb (rc_Message cs) EmptyString)
  then msg ++ [diagnosticLine cs]
  else msg.

Definition podUnsettled (podResource : ResourcePod) : bool :=
  negb (String.eqb (rp_Status podResource) setting.StatusRunning)
  && negb (String.eqb (rp_Status podResource) setting.StatusSucceeded).

Definition diagnosePod (msg : list string) (pod : Pod) : list string :=
  let podResource := pod_Resource pod in
  if podUnsettled podResource
  then fold_left diagnoseContainer (rp_Containers podResource) msg
  else msg.

(** [for _, label := range p.Task.RelatedPodLabels { ... }]; an error of
    [ListPods] ends the scan. *)
Fixpoint diagnose (kubeClient : Cluster) (namespace : string)
    (labelMaps : list Labels) (msg : list string) : Result (list string) :=
  match labelMaps with
  | [] => Ok msg
  | label :: rest =>
      match ListPods kubeClient namespace label with
      | Err e => Err e
      | Ok pods => diagnose kubeClient namespace rest (fold_left diagnosePod pods msg)
      end
  end.

(** [case <-timeout:]. *)
Definition onTimeout (kubeClient : Cluster) (t : Deploy) : Deploy :=
  let t := with_TaskStatus StatusTimeout t in
  match diagnose kubeClient (Namespace t) (RelatedPodLabels t) [] with
  | Err e => with_Error e t
  | Ok msg =>
      if negb (List.length msg =? 0)%nat
      then with_Error (Join msg newline) t
      else t
  end.

(** ** The default case of the poll loop *)

Record WaitFrame : Type := {
  task : Deploy;
  ready : bool;
  werr : option error;
}.

Definition setTask (t : Deploy) : M WaitFrame unit :=
  modify (fun f => {| task := t; ready := ready f; werr := werr f |}).

Definition setReady (b : bool) : M WaitFrame unit :=
  modify (fun f => {| task := task f; ready := b; werr := werr f |}).

Definition setWerr (e : option error) : M WaitFrame unit :=
  modify (fun f => {| task := task f; ready := ready f; werr := e |}).

(** The body of [for _, resource := range p.Task.ReplaceResources]. *)
Definition checkResource (kubeClient : Cluster) (resource : Resource)
    : M WaitFrame unit :=
  t <- gets task ;;
  match workLoadDeployStat kubeClient (Namespace t) (RelatedPodLabels t)
          (PodOwnerUID resource) with
  | Some e =>
      setTask (with_Error e (with_TaskStatus StatusFailed t)) ;;
      return_
  | None => skip
  end ;;
  if String.eqb (Kind resource) setting.Deployment then
    match GetDeployment kubeClient (Namespace t) (Name resource) with
    | GetError e => setWerr (Some e) ;; setReady false
    | GetMissing _ => setReady false
    | GetFound d => setReady (DeploymentReady d)
    end ;;
    r <- gets ready ;;
    when (negb r) break_
  else if String.eqb (Kind resource) setting.StatefulSet then
    let got := GetStatefulSet kubeClient (Namespace t) (Name resource) in
    match got with
    | GetError e => setWerr (Some e)
    | _ => skip
    end ;;
    e <- gets werr ;;
    match e, got with
    | None, GetFound s => setReady (StatefulSetReady s)
    | _, _ => setReady false
    end ;;
    r <- gets ready ;;
    when (negb r) break_
  else skip.

(** [default:] of the [select], after the two-second sleep. *)
Definition defaultCase (kubeClient : Cluster) : M WaitFrame unit :=
  t <- gets task ;;
  labelled (forEach (ReplaceResources t) (checkResource kubeClient)) ;;
  r <- gets ready ;;
  when r (t <- gets task ;; setTask (with_TaskStatus StatusPassed t)) ;;
  t <- gets task ;;
  when (IsTaskDone t) return_.

Definition onDefault (kubeClient : Cluster) (t : Deploy) : Ctl unit * Deploy :=
  let (c, f) := defaultCase kubeClient {| task := t; ready := true; werr := None |} in
  (c, task f).

(** ** The poll loop *)

(** Which case the [select] takes on a tick, and what the cluster answers
    while that case runs. *)
Inductive Select : Type :=
| CtxDone
| TimeoutFired
| Default_.

Record Tick : Type := {
  chosen : Select;
  answers : Cluster;
}.

(** What the world does while [Wait] runs: the answers of [p.kubeClient]
    during the set-up, then the ticks. A tick stands for one turn of the
    [for]: the case the [select] takes and the answers given while it runs
    (for the default case, after its sleep of two seconds). *)
Record World : Type := {
  setup : Cluster;
  ticks : list Tick;
}.

Inductive WaitOutcome : Type :=
| Returned
| Crashed
| StillPolling.

(** One turn of [select]: the case taken runs and either returns from
    [Wait] or falls through to the next turn of the [for]. *)
Definition selectCase (tick : Tick) (t : Deploy) : Ctl unit * Deploy :=
  match chosen tick with
  | CtxDone => (Return, with_TaskStatus StatusCancelled t)
  | TimeoutFired => (Return, onTimeout (answers tick) t)
  | Default_ => onDefault (answers tick) t
  end.

(** [for { select { ... } }], as far as the ticks of the world go. *)
Fixpoint poll (ticks : list Tick) (t : Deploy) : WaitOutcome * Deploy :=
  match ticks with
  | [] => (StillPolling, t)
  | tick :: later =>
      match selectCase tick t with
      | (Return, t') => (Returned, t')
      | (Panic, t') => (Crashed, t')
      | (_, t') => poll later t'
      end
  end.

(** ** Fingerprinting and Wait *)

Section Polling.

(** [sort.Slice] and [setting.DeployTimeout] come from outside the file. *)
Variable sortSlice : forall A : Type, (A -> A -> bool) -> list A -> list A.
Variable DeployTimeout : Z.

(** What one turn of the loop of [getResourcesPodOwnerUID] ends in: the
    resource to append, [return newResources, err] ([keep] true),
    [return nil, err] ([keep] false), or a nil dereference. *)
Inductive Fingerprint : Type :=
| Enriched (resource : Resource)
| FailWith (keep : bool) (e : error)
| NilPointer.

Definition newer (a b : ReplicaSet) : bool :=
  After (rs_CreationTimestamp a) (rs_CreationTimestamp b).

(** The calls of the deployment case: [time.Sleep(3 * time.Second)], then
    the listing of the replica sets. *)
Definition sleepThenList (namespace : string) (selector : Labels) : list Call :=
  [CallSleep 3; CallListReplicaSets namespace selector].

Definition fingerprintDeployment (kubeClient : Cluster) (namespace : string)
    (resource : Resource) (deployment : Deployment) : Fingerprint * list Call :=
  match LabelSelectorAsSelector (d_Selector deployment) with
  | Err e => (FailWith false e, [])
  | Ok selector =>
      (match ListReplicaSets kubeClient namespace selector with
       | Err e => FailWith true e
       | Ok replicaSets =>
           let owned := List.filter (fun rs => IsControlledBy rs deployment) replicaSets in
           if (List.length owned <=? 0)%nat
           then FailWith true ("no replicaset found for deployment: " +:+ d_Name deployment)
           else
             match sortSlice ReplicaSet newer owned with
             | latest :: _ => Enriched (with_PodOwnerUID (rs_UID latest) resource)
             | [] => NilPointer
             end
       end,
       sleepThenList namespace selector)
  end.

(** The [switch resource.Kind] of [getResourcesPodOwnerUID]; [found] is
    not looked at, so a missing object is dereferenced. *)
Definition fingerprint (kubeClient : Cluster) (namespace : string)
    (resource : Resource) : Fingerprint * list Call :=
  if String.eqb (Kind resource) setting.StatefulSet then
    match GetStatefulSet kubeClient namespace (Name resource) with
    | GetError e => (FailWith true e, [])
    | GetFound sts | GetMissing (Some sts) =>
        (Enriched (with_PodOwnerUID (s_UID sts) resource), [])
    | GetMissing None => (NilPointer, [])
    end
  else if String.eqb (Kind resource) setting.Deployment then
    match GetDeployment kubeClient namespace (Name resource) with
    | GetError e => (FailWith true e, [])
    | GetFound deployment | GetMissing (Some deployment) =>
        fingerprintDeployment kubeClient namespace resource deployment
    | GetMissing None => (NilPointer, [])
    end
  else (Enriched resource, []).

Inductive OwnerUIDs : Type :=
| Resolved (resources : list Resource) (e : option error)
| NilDereference.

Fixpoint ownerUIDLoop (kubeClient : Cluster) (namespace : string)
    (resources newResources : list Resource) (made : list Call)
    : OwnerUIDs * list Call :=
  match resources with
  | [] => (Resolved newResources None, made)
  | resource :: rest =>
      match fingerprint kubeClient namespace resource with
      | (Enriched resource', calls) =>
          ownerUIDLoop kubeClient namespace rest (newResources ++ [resource'])
            (made ++ calls)
      | (FailWith keep e, calls) =>
          (Resolved (if keep then newResources else []) (Some e), made ++ calls)
      | (NilPointer, calls) => (NilDereference, made ++ calls)
      end
  end.

(** The result of [getResourcesPodOwnerUID] and the calls it made besides
    the fetches by name. *)
Definition getResourcesPodOwnerUID (kubeClient : Cluster) (t : Deploy)
    : OwnerUIDs * list Call :=
  ownerUIDLoop kubeClient (Namespace t) (ReplaceResources t) [] [].

(** [TaskTimeout] fills in the default when the timeout is zero. *)
Definition TaskTimeout (t : Deploy) : Z * Deploy :=
  if Timeout t =? 0
  then (DeployTimeout, with_Timeout DeployTimeout t)
  else (Timeout t, t).

Definition ownerInfoError (e : error) : string :=
  "get resource owner info error: " +:+ e.

(** [Wait]. When the timer fires is the world's business, so the duration
    [TaskTimeout] returns is not used further. *)
Definition Wait (w : World) (p : DeployTaskPlugin) : WaitOutcome * DeployTaskPlugin :=
  if SkipWaiting (Task p)
  then (Returned, with_Task (with_TaskStatus StatusPassed (Task p)) p)
  else
    let (_, t) := TaskTimeout (Task p) in
    match fst (getResourcesPodOwnerUID (setup w) t) with
    | NilDereference => (Crashed, with_Task t p)
    | Resolved _ (Some e) => (Returned, with_Task (with_Error (ownerInfoError e) t) p)
    | Resolved resources None =>
        let (o, t') := poll (ticks w) (with_ReplaceResources resources t) in
        (o, with_Task t' p)
    end.

End Polling.

(** ** A concrete [sort.Slice]

    Go's [sort.Slice] is not stable; any sort fits the variable of the
    section above. Insertion sort is the instance used to run [Wait]. *)

Fixpoint insertBy {A} (less : A -> A -> bool) (x : A) (xs : list A) : list A :=
  match xs with
  | [] => [x]
  | y :: rest => if less x y then x :: y :: rest else y :: insertBy less x rest
  end.

Definition insertionSort (A : Type) (less : A -> A -> bool) (xs : list A) : list A :=
  fold_right (insertBy less) [] xs.

(** ** Scenarios *)

Module Scenario.

(** A cluster that holds nothing and accepts every patch. *)
Definition quiet : Cluster :=
  {| ListDeployments := fun _ _ => Ok [];
     ListStatefulSets := fun _ _ => Ok [];
     ListCronJobs := fun _ _ _ => Ok ([], []);
     ListPods := fun _ _ => Ok [];
     ListReplicaSets := fun _ _ => Ok [];
     GetDeployment := fun _ _ => GetMissing None;
     GetStatefulSet := fun _ _ => GetMissing None;
     GetCronJob := fun _ _ _ => CronMissing;
     UpdateDeploymentImage := fun _ _ _ _ => None;
     UpdateStatefulSetImage := fun _ _ _ _ => None;
     UpdateCronJobImage := fun _ _ _ _ _ => None |}.

Definition appLabels : Labels := {[ "app" := "myservice" ]}.

Definition api : Container := {| c_Name := "api"; c_Image := "repo/app:1.0" |}.

(** The deployment of the service, rolled out or still rolling. *)
Definition myservice (available : Z) : Deployment :=
  {| d_Namespace := "dev"; d_Name := "myservice"; d_UID := "uid-deploy";
     d_Selector := MatchLabels appLabels; d_TemplateLabels := appLabels;
     d_Containers := [api];
     d_Generation := 2; d_ObservedGeneration := 2;
     d_Replicas := 3; d_UpdatedReplicas := 3; d_AvailableReplicas := available |}.

Definition db (available : Z) : StatefulSet :=
  {| s_Namespace := "dev"; s_Name := "db"; s_UID := "uid-db";
     s_TemplateLabels := appLabels; s_Containers := [api];
     s_Generation := 1; s_ObservedGeneration := 1;
     s_Replicas := 3; s_UpdatedReplicas := 3; s_AvailableReplicas := available |}.

Definition nightly : CronJob :=
  {| cj_Namespace := "dev"; cj_Name := "nightly";
     cj_TemplateLabels := appLabels; cj_Containers := [api] |}.

Definition controlledBy (uid : string) : list OwnerReference :=
  [ {| or_UID := uid; or_Controller := true |} ].

Definition rsOld : ReplicaSet :=
  {| rs_UID := "uid-rs-1"; rs_CreationTimestamp := 100;
     rs_OwnerReferences := controlledBy "uid-deploy" |}.

Definition rsNew : ReplicaSet :=
  {| rs_UID := "uid-rs-2"; rs_CreationTimestamp := 200;
     rs_OwnerReferences := controlledBy "uid-deploy" |}.

Definition rsForeign : ReplicaSet :=
  {| rs_UID := "uid-rs-9"; rs_CreationTimestamp := 300;
     rs_OwnerReferences := controlledBy "uid-other" |}.

(** The cluster with the deployment and its replica sets. *)
Definition withDeployment (available : Z) : Cluster :=
  {| ListDeployments := fun _ _ => Ok [myservice available];
     ListStatefulSets := fun _ _ => Ok [];
     ListCronJobs := fun _ _ _ => Ok ([], []);
     ListPods := fun _ _ => Ok [];
     ListReplicaSets := fun _ _ => Ok [rsOld; rsForeign; rsNew];
     GetDeployment := fun _ name =>
       if String.eqb name "myservice" then GetFound (myservice available)
       else GetMissing None;
     GetStatefulSet := fun _ _ => GetMissing None;
     GetCronJob := fun _ _ _ => CronMissing;
     UpdateDeploymentImage := fun _ _ _ _ => None;
     UpdateStatefulSetImage := fun _ _ _ _ => None;
     UpdateCronJobImage := fun _ _ _ _ _ => None |}.

Definition version122 : VersionInfo := {| VersionLessThan121 := false |}.

Definition clientset : ClientSet := {| ServerVersion := Ok version122 |}.

(** The hub and aslan: every call succeeds, the service has the given
    workload type. *)
Definition aslan (workloadType : string) : Env :=
  {| GetRESTConfig := fun _ _ => Ok "rest-config";
     GetKubeClient := fun _ _ => Ok (withDeployment 3);
     GetKubeClientSet := fun _ _ => (Some clientset, None);
     GetProductInfo := fun _ _ => Ok {| IsSleeping := false |};
     httpGetService := fun _ _ _ _ => Ok {| WorkloadType := workloadType |};
     httpExportService := fun _ _ _ => Ok [];
     YamlToUnstructured := fun _ => Err "not yaml" |}.

Definition localCluster : ConfigPayload :=
  {| DeployClusterID := EmptyString; HubServerAddr := "hub:26000" |}.

Definition remoteCluster : ConfigPayload :=
  {| DeployClusterID := "cluster-1"; HubServerAddr := "hub:26000" |}.

Definition deployTask : Deploy :=
  {| TaskStatus := StatusRunning; Error := EmptyString; Timeout := 0;
     SkipWaiting := false; Enabled := true; EnvName := "dev";
     ProductName := "shop"; Namespace := "dev"; ServiceName := "myservice";
     ServiceType := "k8s"; ContainerName := "api_myservice";
     Image := "repo/app:2.0"; StartTime := 0; EndTime := 0;
     ReplaceResources := []; RelatedPodLabels := [] |}.

Definition pluginOn (c : Cluster) (t : Deploy) : DeployTaskPlugin :=
  {| kubeClient := c; ClientSet_ := Some clientset; restConfig := None; Task := t |}.

(** The hub hands out a clientset together with an error. *)
Definition flakyHub : Env :=
  {| GetRESTConfig := fun _ _ => Ok "rest-config";
     GetKubeClient := fun _ _ => Ok (withDeployment 3);
     GetKubeClientSet := fun _ _ => (Some clientset, Some "dial tcp: i/o timeout");
     GetProductInfo := fun _ _ => Ok {| IsSleeping := false |};
     httpGetService := fun _ _ _ _ => Ok {| WorkloadType := setting.Deployment |};
     httpExportService := fun _ _ _ => Ok [];
     YamlToUnstructured := fun _ => Err "not yaml" |}.

(** The hub hands out no clientset, only the error. *)
Definition brokenHub : Env :=
  {| GetRESTConfig := fun _ _ => Ok "rest-config";
     GetKubeClient := fun _ _ => Ok (withDeployment 3);
     GetKubeClientSet := fun _ _ => (None, Some "dial tcp: i/o timeout");
     GetProductInfo := fun _ _ => Ok {| IsSleeping := false |};
     httpGetService := fun _ _ _ _ => Ok {| WorkloadType := setting.Deployment |};
     httpExportService := fun _ _ _ => Ok [];
     YamlToUnstructured := fun _ => Err "not yaml" |}.

(** A cluster whose API server refuses to answer for stateful sets. *)
Definition unreachable : Cluster :=
  {| ListDeployments := fun _ _ => Ok [];
     ListStatefulSets := fun _ _ => Ok [];
     ListCronJobs := fun _ _ _ => Ok ([], []);
     ListPods := fun _ _ => Ok [];
     ListReplicaSets := fun _ _ => Ok [];
     GetDeployment := fun _ _ => GetMissing None;
     GetStatefulSet := fun _ _ => GetError "connection refused";
     GetCronJob := fun _ _ _ => CronMissing;
     UpdateDeploymentImage := fun _ _ _ _ => None;
     UpdateStatefulSetImage := fun _ _ _ _ => None;
     UpdateCronJobImage := fun _ _ _ _ _ => None |}.

Definition dbResource (uid : string) : Resource :=
  {| Kind := setting.StatefulSet; Container_ := "api"; Origin := "repo/app:1.0";
     Name := "db"; PodOwnerUID := uid |}.

Definition deployResource (uid : string) : Resource :=
  {| Kind := setting.Deployment; Container_ := "api"; Origin := "repo/app:1.0";
     Name := "myservice"; PodOwnerUID := uid |}.

(** The task after a run that patched the stateful set. *)
Definition dbTask : Deploy :=
  with_RelatedPodLabels [appLabels]
    (with_ReplaceResources [dbResource EmptyString] deployTask).


Definition failedTask : Deploy :=
  with_Error "image patch rejected" (with_TaskStatus StatusFailed deployTask).

Definition tick (what : Select) (c : Cluster) : Tick :=
  {| chosen := what; answers := c |}.

Definition waitingFor (reason message : string) : ContainerStatus :=
  {| cs_Waiting := Some {| w_Reason := reason; w_Message := message |} |}.

(** A pending pod whose container is still being created. *)
Definition pendingPod : Pod :=
  {| pod_Name := "db-0"; pod_OwnerReferences := controlledBy "uid-db";
     pod_InitContainerStatuses := [];
     pod_ContainerStatuses := [waitingFor "ContainerCreating" "pulling image"];
     pod_Resource :=
       {| rp_Status := "Pending";
          rp_Containers :=
            [ {| rc_Status := "waiting"; rc_Reason := "ContainerCreating";
                 rc_Message := "pulling image" |} ] |} |}.

(** A pod in phase Running whose container keeps crashing. *)
Definition crashingPod : Pod :=
  {| pod_Name := "db-0"; pod_OwnerReferences := controlledBy "uid-db";
     pod_InitContainerStatuses := [];
     pod_ContainerStatuses := [waitingFor "CrashLoopBackOff" "back-off restarting"];
     pod_Resource :=
       {| rp_Status := "Running";
          rp_Containers :=
            [ {| rc_Status := "waiting"; rc_Reason := "CrashLoopBackOff";
                 rc_Message := "back-off restarting" |} ] |} |}.

(** The deployment has [available] replicas out of three, the stateful set
    is rolled out, and the label sets select [pods]. *)
Definition rolling (available : Z) (pods : list Pod) : Cluster :=
  {| ListDeployments := fun _ _ => Ok [myservice available];
     ListStatefulSets := fun _ _ => Ok [db 3];
     ListCronJobs := fun _ _ _ => Ok ([], []);
     ListPods := fun _ _ => Ok pods;
     ListReplicaSets := fun _ _ => Ok [rsOld; rsForeign; rsNew];
     GetDeployment := fun _ name =>
       if String.eqb name "myservice" then GetFound (myservice available)
       else GetMissing None;
     GetStatefulSet := fun _ name =>
       if String.eqb name "db" then GetFound (db 3) else GetMissing None;
     GetCronJob := fun _ _ _ => CronMissing;
     UpdateDeploymentImage := fun _ _ _ _ => None;
     UpdateStatefulSetImage := fun _ _ _ _ => None;
     UpdateCronJobImage := fun _ _ _ _ _ => None |}.

(** The task after the fingerprinting, tracking the given resources. *)
Definition tracking (resources : list Resource) : Deploy :=
  with_RelatedPodLabels [appLabels] (with_ReplaceResources resources deployTask).

(** The stateful set has two of its three replicas available. *)
Definition dbLagging : Cluster :=
  {| ListDeployments := fun _ _ => Ok [];
     ListStatefulSets := fun _ _ => Ok [db 2];
     ListCronJobs := fun _ _ _ => Ok ([], []);
     ListPods := fun _ _ => Ok [];
     ListReplicaSets := fun _ _ => Ok [];
     GetDeployment := fun _ _ => GetMissing None;
     GetStatefulSet := fun _ name =>
       if String.eqb name "db" then GetFound (db 2) else GetMissing None;
     GetCronJob := fun _ _ _ => CronMissing;
     UpdateDeploymentImage := fun _ _ _ _ => None;
     UpdateStatefulSetImage := fun _ _ _ _ => None;
     UpdateCronJobImage := fun _ _ _ _ _ => None |}.

Definition cronResource : Resource :=
  {| Kind := setting.CronJob; Container_ := "api"; Origin := "repo/app:1.0";
     Name := "nightly"; PodOwnerUID := EmptyString |}.

(** The task after a run that patched one workload of each kind. *)
Definition threeKinds : Deploy :=
  tracking [deployResource EmptyString; dbResource EmptyString; cronResource].

(** The task names a container that the deployment does not have. *)
Definition webTask : Deploy :=
  {| TaskStatus := StatusRunning; Error := EmptyString; Timeout := 0;
     SkipWaiting := false; Enabled := true; EnvName := "dev";
     ProductName := "shop"; Namespace := "dev"; ServiceName := "myservice";
     ServiceType := "k8s"; ContainerName := "web_myservice";
     Image := "repo/web:2.0"; StartTime := 0; EndTime := 0;
     ReplaceResources := []; RelatedPodLabels := [] |}.

(** The product of the environment is sleeping. *)
Definition sleepy : Env :=
  {| GetRESTConfig := fun _ _ => Ok "rest-config";
     GetKubeClient := fun _ _ => Ok (withDeployment 3);
     GetKubeClientSet := fun _ _ => (Some clientset, None);
     GetProductInfo := fun _ _ => Ok {| IsSleeping := true |};
     httpGetService := fun _ _ _ _ => Ok {| WorkloadType := setting.Deployment |};
     httpExportService := fun _ _ _ => Ok [];
     YamlToUnstructured := fun _ => Err "not yaml" |}.

(** The cluster shows the deployment but rejects every patch. *)
Definition readOnly : Cluster :=
  {| ListDeployments := fun _ _ => Ok [myservice 3];
     ListStatefulSets := fun _ _ => Ok [];
     ListCronJobs := fun _ _ _ => Ok ([], []);
     ListPods := fun _ _ => Ok [];
     ListReplicaSets := fun _ _ => Ok [rsOld; rsForeign; rsNew];
     GetDeployment := fun _ name =>
       if String.eqb name "myservice" then GetFound (myservice 3)
       else GetMissing None;
     GetStatefulSet := fun _ _ => GetMissing None;
     GetCronJob := fun _ _ _ => CronMissing;
     UpdateDeploymentImage := fun _ _ _ _ => Some "forbidden";
     UpdateStatefulSetImage := fun _ _ _ _ => Some "forbidden";
     UpdateCronJobImage := fun _ _ _ _ _ => Some "forbidden" |}.

(** A second pod of the stateful set, whose init container cannot pull its
    image. *)
Definition crashingInit : Pod :=
  {| pod_Name := "db-1"; pod_OwnerReferences := controlledBy "uid-db";
     pod_InitContainerStatuses := [waitingFor "ErrImagePull" "pull access denied"];
     pod_ContainerStatuses := [waitingFor "PodInitializing" EmptyString];
     pod_Resource :=
       {| rp_Status := "Pending";
          rp_Containers :=
            [ {| rc_Status := "waiting"; rc_Reason := "ErrImagePull";
                 rc_Message := "pull access denied" |} ] |} |}.

(** The deployment is there, but no replica set is controlled by it. *)
Definition orphaned : Cluster :=
  {| ListDeployments := fun _ _ => Ok [myservice 3];
     ListStatefulSets := fun _ _ => Ok [];
     ListCronJobs := fun _ _ _ => Ok ([], []);
     ListPods := fun _ _ => Ok [];
     ListReplicaSets := fun _ _ => Ok [rsForeign];
     GetDeployment := fun _ name =>
       if String.eqb name "myservice" then GetFound (myservice 3)
       else GetMissing None;
     GetStatefulSet := fun _ _ => GetMissing None;
     GetCronJob := fun _ _ _ => CronMissing;
     UpdateDeploymentImage := fun _ _ _ _ => None;
     UpdateStatefulSetImage := fun _ _ _ _ => None;
     UpdateCronJobImage := fun _ _ _ _ _ => None |}.

(** The pods cannot be listed. *)
Definition podsHidden : Cluster :=
  {| ListDeployments := fun _ _ => Ok [];
     ListStatefulSets := fun _ _ => Ok [db 3];
     ListCronJobs := fun _ _ _ => Ok ([], []);
     ListPods := fun _ _ => Err "pods is forbidden";
     ListReplicaSets := fun _ _ => Ok [];
     GetDeployment := fun _ _ => GetMissing None;
     GetStatefulSet := fun _ name =>
       if String.eqb name "db" then GetFound (db 3) else GetMissing None;
     GetCronJob := fun _ _ _ => CronMissing;
     UpdateDeploymentImage := fun _ _ _ _ => None;
     UpdateStatefulSetImage := fun _ _ _ _ => None;
     UpdateCronJobImage := fun _ _ _ _ _ => None |}.

(** Aslan exports three manifests of the service: the stateful set, one
    that does not decode, and a deployment. *)
Definition exporting : Env :=
  {| GetRESTConfig := fun _ _ => Ok "rest-config";
     GetKubeClient := fun _ _ => Ok (rolling 3 []);
     GetKubeClientSet := fun _ _ => (Some clientset, None);
     GetProductInfo := fun _ _ => Ok {| IsSleeping := false |};
     httpGetService := fun _ _ _ _ => Ok {| WorkloadType := EmptyString |};
     httpExportService := fun _ _ _ => Ok ["kind: StatefulSet"; "{"; "kind: Deployment"];
     YamlToUnstructured := fun manifest =>
       if String.eqb manifest "kind: StatefulSet"
       then Ok {| u_Kind := setting.StatefulSet; u_Name := "db" |}
       else if String.eqb manifest "kind: Deployment"
       then Ok {| u_Kind := setting.Deployment; u_Name := "myservice" |}
       else Err "not yaml" |}.

(** The service is a cron job, and the cluster rejects every patch. *)
Definition cronOnly : Cluster :=
  {| ListDeployments := fun _ _ => Ok [];
     ListStatefulSets := fun _ _ => Ok [];
     ListCronJobs := fun _ _ _ => Ok ([nightly], []);
     ListPods := fun _ _ => Ok [];
     ListReplicaSets := fun _ _ => Ok [];
     GetDeployment := fun _ _ => GetMissing None;
     GetStatefulSet := fun _ _ => GetError "connection refused";
     GetCronJob := fun _ _ _ => CronError "connection refused";
     UpdateDeploymentImage := fun _ _ _ _ => Some "forbidden";
     UpdateStatefulSetImage := fun _ _ _ _ => Some "forbidden";
     UpdateCronJobImage := fun _ _ _ _ _ => Some "forbidden" |}.

End Scenario.

(** ** Notions used in the statements *)


(** All pods of the recorded label sets, in the order of the listing, or
    the first error of [ListPods]. *)
Fixpoint listRelatedPods (kubeClient : Cluster) (namespace : string)
    (labelMaps : list Labels) : Result (list Pod) :=
  match labelMaps with
  | [] => Ok []
  | label :: rest =>
      match ListPods kubeClient namespace label with
      | Err e => Err e
      | Ok pods =>
          match listRelatedPods kubeClient namespace rest with
          | Err e => Err e
          | Ok more => Ok (pods ++ more)
          end
      end
  end.

(** What the timeout case reports for one pod: nothing for a pod whose view
    is Running or Succeeded, otherwise one line per container of the view
    that has a message. *)
Definition podDiagnostics (pod : Pod) : list string :=
  if podUnsettled (pod_Resource pod)
  then map diagnosticLine
         (List.filter (fun cs => negb (String.eqb (rc_Message cs) EmptyString))
                      (rp_Containers (pod_Resource pod)))
  else [].

(** The diagnostics in the words of the specification: from every container
    status of a pod, init and regular, the waiting reasons of the terminal
    set with their messages. *)
Definition claimedPodMessages (pod : Pod) : list string :=
  flat_map
    (fun cs =>
       match cs_Waiting cs with
       | Some w =>
           if isTerminalReason (w_Reason w)
           then [w_Reason w +:+ ": " +:+ w_Message w]
           else []
       | None => []
       end)
    (pod_InitContainerStatuses pod ++ pod_ContainerStatuses pod).

Definition claimedDiagnostics (kubeClient : Cluster) (t : Deploy) : list string :=
  match listRelatedPods kubeClient (Namespace t) (RelatedPodLabels t) with
  | Ok pods => flat_map claimedPodMessages pods
  | Err _ => []
  end.

(** A tracked resource is settled on a tick when its workload is fetched
    and ready; resources of other kinds are not polled. *)
Definition settled (kubeClient : Cluster) (namespace : string) (r : Resource) : bool :=
  if String.eqb (Kind r) setting.Deployment then
    match GetDeployment kubeClient namespace (Name r) with
    | GetFound d => DeploymentReady d
    | _ => false
    end
  else if String.eqb (Kind r) setting.StatefulSet then
    match GetStatefulSet kubeClient namespace (Name r) with
    | GetFound s => StatefulSetReady s
    | _ => false
    end
  else true.

(** A pod has a container, init or regular, waiting for a reason of the
    terminal set. *)
Definition stuck (pod : Pod) : bool :=
  existsb
    (fun cs =>
       match cs_Waiting cs with
       | Some w => isTerminalReason (w_Reason w)
       | None => false
       end)
    (pod_InitContainerStatuses pod ++ pod_ContainerStatuses pod).

(** Readiness in terms of the counters: the observed generation has
    reached the desired one, and the updated and the available replicas
    equal the desired replicas. *)
Definition caughtUp (generation observed desired updated available : Z) : Prop :=
  generation <= observed /\ updated = desired /\ available = desired.

(** A tracked deployment or stateful set that the cluster does not show to
    be ready on a tick. *)
Definition unready (kubeClient : Cluster) (namespace : string) (r : Resource) : Prop :=
  (Kind r = setting.Deployment
   /\ forall d, GetDeployment kubeClient namespace (Name r) = GetFound d ->
       ~ caughtUp (d_Generation d) (d_ObservedGeneration d) (d_Replicas d)
           (d_UpdatedReplicas d) (d_AvailableReplicas d))
  \/ (Kind r = setting.StatefulSet
      /\ forall s, GetStatefulSet kubeClient namespace (Name r) = GetFound s ->
          ~ caughtUp (s_Generation s) (s_ObservedGeneration s) (s_Replicas s)
              (s_UpdatedReplicas s) (s_AvailableReplicas s)).

(** Two resources that differ at most in the fingerprint. *)
Definition sameButUID (r r' : Resource) : Prop :=
  Kind r' = Kind r /\ Container_ r' = Container_ r /\ Origin r' = Origin r
  /\ Name r' = Name r.

(** [latest] is a replica set controlled by [d] that no other replica set
    controlled by [d] is newer than. *)
Definition latestOwned (replicaSets : list ReplicaSet) (d : Deployment)
    (latest : ReplicaSet) : Prop :=
  In latest replicaSets /\ IsControlledBy latest d = true
  /\ forall rs, In rs replicaSets -> IsControlledBy rs d = true ->
       rs_CreationTimestamp rs <= rs_CreationTimestamp latest.

(** The fingerprint a resource is due, by kind. *)
Definition fingerprintOf (kubeClient : Cluster) (namespace : string)
    (r : Resource) (uid : string) : Prop :=
  if String.eqb (Kind r) setting.StatefulSet then
    exists sts,
      (GetStatefulSet kubeClient namespace (Name r) = GetFound sts
       \/ GetStatefulSet kubeClient namespace (Name r) = GetMissing (Some sts))
      /\ uid = s_UID sts
  else if String.eqb (Kind r) setting.Deployment then
    exists d selector replicaSets latest,
      (GetDeployment kubeClient namespace (Name r) = GetFound d
       \/ GetDeployment kubeClient namespace (Name r) = GetMissing (Some d))
      /\ LabelSelectorAsSelector (d_Selector d) = Ok selector
      /\ ListReplicaSets kubeClient namespace selector = Ok replicaSets
      /\ latestOwned replicaSets d latest
      /\ uid = rs_UID latest
  else uid = PodOwnerUID r.

(** The task with status and error text blanked: what is left is the part
    of the task that the poll loop does not write. *)
Definition blank (t : Deploy) : Deploy :=
  with_Error EmptyString (with_TaskStatus StatusCreated t).

(** How often the manifest fallback was entered: it starts with the export
    call and makes no other. *)
Definition isExport (c : Call) : bool :=
  match c with
  | CallExportService _ _ _ => true
  | _ => false
  end.

Definition fallbackInvocations (made : list Call) : nat :=
  List.length (List.filter isExport made).

(** The selector of the label path. *)
Definition serviceSelector (productName serviceName : string) : Labels :=
  <[setting.ServiceLabel := serviceName]> {[ setting.ProductLabel := productName ]}.

(** All containers of the workloads found, in the order [Run] scans them. *)
Definition containersOf (w : Workloads) : list Container :=
  flat_map d_Containers (deployments w)
  ++ flat_map s_Containers (statefulSets w)
  ++ flat_map cj_Containers (cronJobs w)
  ++ flat_map cj_Containers (cronJobBetas w).

Definition noMatch (containerName : string) (w : Workloads) : Prop :=
  Forall (fun c => String.eqb (c_Name c) containerName = false) (containersOf w).

(** The workloads [Run] has in hand when it starts to scan containers, from
    the frame [f] that [prepare] left: on the unknown-type path what
    [fetchRelatedWorkloads] returned, on the known-type path the one object
    fetched by name. *)
Inductive discovers (env : Env) (f : RunFrame) (version : VersionInfo)
    (serviceInfo : ServiceTmpl) : Workloads -> Prop :=
| discovers_related w :
    WorkloadType serviceInfo = EmptyString ->
    fst (fetchRelatedWorkloads env (EnvName (Task (plugin f)))
           (Namespace (Task (plugin f))) (ProductName (Task (plugin f)))
           (ServiceName (Task (plugin f))) (kubeClient (plugin f)) version) = Ok w ->
    discovers env f version serviceInfo w
| discovers_statefulSet sts :
    WorkloadType serviceInfo = setting.StatefulSet ->
    GetStatefulSet (kubeClient (plugin f)) (Namespace (Task (plugin f)))
      (ServiceName (Task (plugin f))) = GetFound sts ->
    discovers env f version serviceInfo
      {| deployments := []; statefulSets := [sts]; cronJobs := [];
         cronJobBetas := [] |}
| discovers_deployment d :
    WorkloadType serviceInfo = setting.Deployment ->
    GetDeployment (kubeClient (plugin f)) (Namespace (Task (plugin f)))
      (ServiceName (Task (plugin f))) = GetFound d ->
    discovers env f version serviceInfo
      {| deployments := [d]; statefulSets := []; cronJobs := [];
         cronJobBetas := [] |}
| discovers_cronJob cronJob cronJobBeta :
    WorkloadType serviceInfo = setting.CronJob ->
    GetCronJob (kubeClient (plugin f)) (Namespace (Task (plugin f)))
      (ServiceName (Task (plugin f))) (VersionLessThan121 version)
      = CronFound cronJob cronJobBeta ->
    discovers env f version serviceInfo
      {| deployments := []; statefulSets := [];
         cronJobs := optToList cronJob; cronJobBetas := optToList cronJobBeta |}
| discovers_nothing :
    String.eqb (WorkloadType serviceInfo) EmptyString = false ->
    String.eqb (WorkloadType serviceInfo) setting.StatefulSet = false ->
    String.eqb (WorkloadType serviceInfo) setting.Deployment = false ->
    String.eqb (WorkloadType serviceInfo) setting.CronJob = false ->
    discovers env f version serviceInfo noWorkloads.

(** The resources a frame has recorded beyond those of [base], if the one
    list extends the other. *)
Definition recordedSince (base : list Resource) (f : RunFrame) : Prop :=
  exists added,
    ReplaceResources (Task (plugin f)) = base ++ added
    /\ (replaced f = true -> added <> []).

(** How a statement of [Run] may leave, inside a loop and outside: it
    keeps [recordedSince], a [return] comes with a non-nil error, and outside
    of loops there is no [break]. *)
Definition inLoop (base : list Resource) (c : Ctl unit) (f : RunFrame) : Prop :=
  recordedSince base f /\ (c = Return -> err f <> None).

Definition atTop (base : list Resource) (c : Ctl unit) (f : RunFrame) : Prop :=
  recordedSince base f
  /\ match c with
     | Return => err f <> None
     | Break => False
     | _ => True
     end.

Definition statusesOf (pod : Pod) : list ContainerStatus :=
  pod_InitContainerStatuses pod ++ pod_ContainerStatuses pod.

(** What a hit of the scan says about the pods it looked at. *)
Definition hit (pods : list Pod) (ownerUID : string) (e : error) : Prop :=
  exists pod cs w,
    In pod pods /\ IsOwnerMatched pod ownerUID = true
    /\ In cs (statusesOf pod) /\ cs_Waiting cs = Some w
    /\ isTerminalReason (w_Reason w) = true
    /\ e = waitingMessage (pod_Name pod) w.

(** A pod the scan for a fingerprint passes over: its owner does not match,
    or none of its containers waits for a reason of the terminal set. *)
Definition passedOver (ownerUID : string) (pod : Pod) : Prop :=
  IsOwnerMatched pod ownerUID = false \/ stuck pod = false.

(** A container status the scan passes over. *)
Definition notTerminal (cs : ContainerStatus) : Prop :=
  match cs_Waiting cs with
  | Some w => isTerminalReason (w_Reason w) = false
  | None => True
  end.

(** [e] is the message for the first hit in the order of the scan: the
    first pod of the listing that matches the fingerprint and has a
    container waiting for a reason of the terminal set, and of that pod the
    first such container, the init containers coming before the regular
    ones. *)
Definition firstHit (pods : list Pod) (ownerUID : string) (e : error) : Prop :=
  exists earlier pod later csEarlier cs csLater w,
    pods = earlier ++ pod :: later
    /\ Forall (passedOver ownerUID) earlier
    /\ IsOwnerMatched pod ownerUID = true
    /\ statusesOf pod = csEarlier ++ cs :: csLater
    /\ Forall notTerminal csEarlier
    /\ cs_Waiting cs = Some w
    /\ isTerminalReason (w_Reason w) = true
    /\ e = waitingMessage (pod_Name pod) w.

(** The frame the default case starts from. *)
Definition enterDefault (t : Deploy) : WaitFrame :=
  {| task := t; ready := true; werr := None |}.

Definition failedWith (e : error) (t : Deploy) : Deploy :=
  with_Error e (with_TaskStatus StatusFailed t).

(** Sorted with the newest first. *)
Definition newestFirst : list ReplicaSet -> Prop :=
  StronglySorted (fun a b => newer b a = false).

(** ** Further functions of the file *)

Section Strategy.

(** [setting.ServiceDeployStrategyImport] comes from outside the file. *)
Variable ServiceDeployStrategyImport : string.

(** [serviceDeployed]: a nil map is [None]; reading a missing key of a Go
    map yields the empty string. *)
Definition serviceDeployed (strategy : option (gmap string string))
    (serviceName : string) : bool :=
  match strategy with
  | None => true
  | Some m =>
      if String.eqb (default EmptyString (m !! serviceName))
                    ServiceDeployStrategyImport
      then false
      else true
  end.

End Strategy.

(** The frame [patch] leaves when the updater rejects the patch. *)
Definition rejected (cause : error) (segment wName : string) (container : Container)
    (made : Call) (f : RunFrame) : RunFrame :=
  {| plugin := plugin f;
     err := Some (WithMessage cause
              ("failed to update container image in "
                 +:+ Namespace (Task (plugin f)) +:+ "/" +:+ segment +:+ "/"
                 +:+ wName +:+ "/" +:+ c_Name container));
     replaced := replaced f;
     calls := calls f ++ [made] |}.

(** The resource [patch] records for a container of a workload. *)
Definition resourceFor (kind wName : string) (container : Container) : Resource :=
  {| Kind := kind; Container_ := c_Name container; Origin := c_Image container;
     Name := wName; PodOwnerUID := EmptyString |}.

(** The task with one more resource and, on the unknown-type path, one
    more label set. *)
Definition recordPatch (r : Resource) (labels : option Labels) (t : Deploy) : Deploy :=
  match labels with
  | Some l =>
      with_RelatedPodLabels (RelatedPodLabels t ++ [l])
        (with_ReplaceResources (ReplaceResources t ++ [r]) t)
  | None => with_ReplaceResources (ReplaceResources t ++ [r]) t
  end.

(** The frame [patch] leaves when the updater accepts the patch. *)
Definition accepted (r : Resource) (labels : option Labels) (made : Call)
    (f : RunFrame) : RunFrame :=
  {| plugin := with_Task (recordPatch r labels (Task (plugin f))) (plugin f);
     err := None;
     replaced := true;
     calls := calls f ++ [made] |}.

(** The first container of the logical name. *)
Definition firstMatch (containerName : string) (containers : list Container)
    : option Container :=
  List.find (fun c => String.eqb (c_Name c) containerName) containers.

(** What [Run] may record: a resource for the logical container name, of
    one of the three kinds, without a fingerprint. *)
Definition fromRun (containerName : string) (r : Resource) : Prop :=
  Container_ r = containerName /\ PodOwnerUID r = EmptyString
  /\ (Kind r = setting.Deployment \/ Kind r = setting.StatefulSet
      \/ Kind r = setting.CronJob).

(** The fields of the task that neither [Run] nor the poll loop writes. *)
Definition settingsOf (t : Deploy) :=
  (SkipWaiting t, Enabled t, EnvName t, ProductName t, Namespace t,
   ServiceName t, ServiceType t, ContainerName t, Image t, StartTime t, EndTime t).

(** Frame [f'] holds the task of frame [f] with at most [n] resources
    appended, all of them [fromRun], and with label sets appended: as many
    as resources when [lockstep] holds, none otherwise. *)
Definition grownBy (n : nat) (lockstep : bool) (f f' : RunFrame) : Prop :=
  exists rs ls,
    ReplaceResources (Task (plugin f')) = ReplaceResources (Task (plugin f)) ++ rs
    /\ RelatedPodLabels (Task (plugin f')) = RelatedPodLabels (Task (plugin f)) ++ ls
    /\ (List.length rs <= n)%nat
    /\ (if lockstep then List.length ls = List.length rs else ls = [])
    /\ Forall (fromRun (logicalContainerName (Task (plugin f)))) rs
    /\ settingsOf (Task (plugin f')) = settingsOf (Task (plugin f))
    /\ Timeout (Task (plugin f')) = Timeout (Task (plugin f)).

(** Two sets of workloads, one after the other. *)
Definition joinWorkloads (a b : Workloads) : Workloads :=
  {| deployments := deployments a ++ deployments b;
     statefulSets := statefulSets a ++ statefulSets b;
     cronJobs := cronJobs a ++ cronJobs b;
     cronJobBetas := cronJobBetas a ++ cronJobBetas b |}.

(** The loop over the manifests of [fetchWorkloadsForImportedService]. *)
Definition importAll (env : Env) (kClient : Cluster) (namespace : string)
    (version : VersionInfo) (manifests : list string) : Workloads :=
  fold_left (importManifest env kClient namespace version) manifests noWorkloads.

(** A manifest that decodes to an object of the given kind and name. *)
Definition declares (env : Env) (manifests : list string) (kind name : string) : Prop :=
  exists manifest u,
    In manifest manifests /\ YamlToUnstructured env manifest = Ok u
    /\ u_Kind u = kind /\ u_Name u = name.

(** A workload has a container of the logical name. *)
Definition hasMatch (containerName : string) (containers : list Container) : bool :=
  match firstMatch containerName containers with
  | Some _ => true
  | None => false
  end.

(** The kinds of resource [Run] records. *)
Definition patchedKind (kind : string) : Prop :=
  kind = setting.Deployment \/ kind = setting.StatefulSet \/ kind = setting.CronJob.

(** The first workload of a list that has a container of the logical name,
    as the resource and the label set [Run] records for it on the
    unknown-type path. *)
Definition pick {W} (kind : string) (nameOf : W -> string)
    (containersOf : W -> list Container) (labelsOf : W -> Labels)
    (containerName : string) (ws : list W) : list (Resource * Labels) :=
  match List.find (fun w => hasMatch containerName (containersOf w)) ws with
  | Some w =>
      match firstMatch containerName (containersOf w) with
      | Some c => [(resourceFor kind (nameOf w) c, labelsOf w)]
      | None => []
      end
  | None => []
  end.

(** One pick per list of workloads, in the order of the four loops. *)
Definition picked (containerName : string) (w : Workloads) : list (Resource * Labels) :=
  pick setting.Deployment d_Name d_Containers d_TemplateLabels containerName
       (deployments w)
  ++ pick setting.StatefulSet s_Name s_Containers s_TemplateLabels containerName
          (statefulSets w)
  ++ pick setting.CronJob cj_Name cj_Containers cj_TemplateLabels containerName
          (cronJobs w)
  ++ pick setting.CronJob cj_Name cj_Containers cj_TemplateLabels containerName
          (cronJobBetas w).

Definition recordAll (picks : list (Resource * Labels)) (t : Deploy) : Deploy :=
  with_RelatedPodLabels (RelatedPodLabels t ++ map snd picks)
    (with_ReplaceResources (ReplaceResources t ++ map fst picks) t).

(** A cluster that accepts every image patch. *)
Definition accepting (c : Cluster) : Prop :=
  (forall ns name container image, UpdateDeploymentImage c ns name container image = None)
  /\ (forall ns name container image,
        UpdateStatefulSetImage c ns name container image = None)
  /\ (forall ns name container image suspend,
        UpdateCronJobImage c ns name container image suspend = None).

(** The update call [Run] makes for a list of workloads on the unknown-type
    path: one call, for the first workload that has a container of the
    logical name, and none when the list has no such workload. *)
Definition patchCall {W} (kind : string) (nsOf nameOf : W -> string)
    (containersOf : W -> list Container) (containerName image : string)
    (ws : list W) : list Call :=
  match List.find (fun w => hasMatch containerName (containersOf w)) ws with
  | Some w => [CallUpdateImage kind (nsOf w) (nameOf w) containerName image]
  | None => []
  end.

(** One call per list of workloads, in the order of the four loops. *)
Definition pickedCalls (containerName image : string) (w : Workloads) : list Call :=
  patchCall setting.Deployment d_Namespace d_Name d_Containers containerName image
            (deployments w)
  ++ patchCall setting.StatefulSet s_Namespace s_Name s_Containers containerName image
               (statefulSets w)
  ++ patchCall setting.CronJob cj_Namespace cj_Name cj_Containers containerName image
               (cronJobs w)
  ++ patchCall setting.CronJob cj_Namespace cj_Name cj_Containers containerName image
               (cronJobBetas w).

(** Frame [f'] is frame [f] after the patches of [picks] were accepted, the
    calls [made] being the ones added to the log. *)
Definition stepped (picks : list (Resource * Labels)) (made : list Call)
    (f f' : RunFrame) : Prop :=
  Task (plugin f') = recordAll picks (Task (plugin f))
  /\ kubeClient (plugin f') = kubeClient (plugin f)
  /\ replaced f' = (replaced f || negb (List.length picks =? 0)%nat)
  /\ (err f = None -> err f' = None)
  /\ calls f' = calls f ++ made.

(** On a tick, the default case gets past a tracked resource when the pod
    scan finds nothing for it and its workload is ready. *)
Definition passes (kubeClient : Cluster) (t : Deploy) (r : Resource) : Prop :=
  workLoadDeployStat kubeClient (Namespace t) (RelatedPodLabels t) (PodOwnerUID r) = None
  /\ settled kubeClient (Namespace t) r = true.

(** What one manifest contributes to the imported workloads. *)
Definition imports (env : Env) (kClient : Cluster) (namespace : string)
    (version : VersionInfo) (manifest : string) : Workloads :=
  importManifest env kClient namespace version noWorkloads manifest.

(** * Rules for statements *)

Section Rules.

Context {S : Type}.

Lemma sat_weaken {A} (m : M S A) (s : S) (Q Q' : Ctl A -> S -> Prop) :
  (forall c s', Q c s' -> Q' c s') -> sat m s Q -> sat m s Q'.
Proof. unfold sat. auto. Qed.

Lemma sat_bind {A B} (m : M S A) (f : A -> M S B) (s : S) (Q : Ctl B -> S -> Prop) :
  sat m s (fun c s' =>
             match c with
             | Norm a => sat (f a) s' Q
             | Return => Q Return s'
             | Break => Q Break s'
             | Panic => Q Panic s'
             end) ->
  sat (bind m f) s Q.
Proof.
  unfold sat, bind. destruct (m s) as [[a| | |] s']; simpl; auto.
Qed.

Lemma sat_forEach {X} (xs : list X) (body : X -> M S unit) (I : S -> Prop)
    (Q : Ctl unit -> S -> Prop) :
  (forall x s, In x xs -> I s ->
     sat (body x) s (fun c s' => match c with Norm _ => I s' | _ => Q c s' end)) ->
  (forall s, I s -> Q (Norm tt) s) ->
  forall s, I s -> sat (forEach xs body) s Q.
Proof.
  induction xs as [|x rest IH]; intros Hbody Hend s Hs; simpl.
  - apply Hend, Hs.
  - apply sat_bind.
    eapply sat_weaken; [| apply (Hbody x s); [now left | exact Hs]].
    intros [[]| | |] s'; simpl; auto.
    intros Hs'. apply IH; auto.
    intros y s0 Hy. apply Hbody. now right.
Qed.

Lemma sat_labelled (m : M S unit) (s : S) (Q : Ctl unit -> S -> Prop) :
  sat m s (fun c s' => match c with Break => Q (Norm tt) s' | _ => Q c s' end) ->
  sat (labelled m) s Q.
Proof.
  unfold sat, labelled. destruct (m s) as [[[]| | |] s']; simpl; auto.
Qed.

Lemma keeps_bind {A B V} (g : S -> V) (m : M S A) (f : A -> M S B) :
  keeps g m -> (forall a, keeps g (f a)) -> keeps g (bind m f).
Proof.
  unfold keeps, bind. intros Hm Hf s. specialize (Hm s).
  destruct (m s) as [[a| | |] s']; simpl in *; auto.
  rewrite Hf. exact Hm.
Qed.

Lemma keeps_forEach {X V} (g : S -> V) (xs : list X) (body : X -> M S unit) :
  (forall x, keeps g (body x)) -> keeps g (forEach xs body).
Proof.
  intros Hbody. induction xs as [|x rest IH]; simpl.
  - intros s. reflexivity.
  - apply keeps_bind; auto.
Qed.

Lemma keeps_labelled {V} (g : S -> V) (m : M S unit) :
  keeps g m -> keeps g (labelled m).
Proof.
  unfold keeps, labelled. intros Hm s. specialize (Hm s).
  destruct (m s) as [[[]| | |] s']; simpl in *; auto.
Qed.

Lemma keeps_when {V} (g : S -> V) (b : bool) (m : M S unit) :
  keeps g m -> keeps g (when b m).
Proof. intros Hm. destruct b; simpl; auto. intros s. reflexivity. Qed.

End Rules.

(** Walks through a statement and leaves the assignments to conversion. *)
Ltac keeps_walk :=
  repeat first
    [ apply keeps_bind; [| intros ?]
    | apply keeps_forEach; intros ?
    | apply keeps_labelled
    | apply keeps_when
    | match goal with
      | |- keeps _ (match ?x with _ => _ end) => destruct x
      end
    | (intros ?; reflexivity) ].

(** * Run: what the body leaves alone *)

Lemma prepare_keeps_task env payload :
  keeps (fun f => Task (plugin f)) (prepare env payload).
Proof. unfold prepare, connect. keeps_walk. Qed.

Lemma prepare_keeps_replaced env payload :
  keeps replaced (prepare env payload).
Proof. unfold prepare, connect. keeps_walk. Qed.


Lemma scanContainers_keeps_labels kind segment update ns name cname cs :
  keeps (fun f => RelatedPodLabels (Task (plugin f)))
        (scanContainers kind segment update ns name cname cs None).
Proof. unfold scanContainers, patch. keeps_walk. Qed.

Lemma patchKnown_keeps_labels workloadType cname version :
  keeps (fun f => RelatedPodLabels (Task (plugin f)))
        (patchKnown workloadType cname version).
Proof.
  unfold patchKnown.
  apply keeps_bind; [intros ?; reflexivity | intros p].
  repeat match goal with
         | |- keeps _ (if ?b then _ else _) => destruct b
         | |- keeps _ (match ?x with _ => _ end) => destruct x
         | |- keeps _ (scanContainers _ _ _ _ _ _ _ None) =>
             apply scanContainers_keeps_labels
         | |- _ => first [ apply keeps_bind; [| intros ?]
                         | apply keeps_labelled
                         | (intros ?; reflexivity) ]
         end.
Qed.


(** * The deferred failure sink *)

Lemma deferred_sink (f : RunFrame) (e : error) :
  err f = Some e ->
  TaskStatus (Task (deferred f)) = StatusFailed /\ Error (Task (deferred f)) = e.
Proof. unfold deferred. intros ->. simpl. auto. Qed.


(** The task a run leaves, in terms of the frame of its body. *)
Lemma Run_unfold env payload p :
  Run env payload p =
    (match fst (Run_body env payload (enterRun p)) with
     | Panic => Panicked
     | _ => Completed
     end,
     deferred (snd (Run_body env payload (enterRun p))),
     calls (snd (Run_body env payload (enterRun p)))).
Proof. unfold Run. destruct (Run_body env payload (enterRun p)). reflexivity. Qed.

(** C1: the deferred function of Run turns a non-nil error into status
    Failed and the error text, but an error recorded earlier can be lost
    before it gets there. On a remote cluster whose clientset call returns an
    error together with a clientset, the branch records the error and goes on
    (it has no return); the next assignments to the error variable overwrite
    it, here with nil: Run completes with the status it started with, an empty
    error text and one resource recorded. When the call returns the error
    and no clientset, the same branch lets Run go on to dereference the nil
    clientset: Run panics instead of returning. *)
Theorem Run_forgets_clientset_error :
  let p := Scenario.pluginOn Scenario.quiet Scenario.deployTask in
  let afterConnect := connect Scenario.flakyHub Scenario.remoteCluster (enterRun p) in
  let atReturn := Run_body Scenario.flakyHub Scenario.remoteCluster (enterRun p) in
  let result := Run Scenario.flakyHub Scenario.remoteCluster p in
  let broken := Run Scenario.brokenHub Scenario.remoteCluster p in
  fst afterConnect = Norm tt
  /\ err (snd afterConnect) = Some "failed to init k8s clientset: dial tcp: i/o timeout"
  /\ err (snd atReturn) = None
  /\ fst (fst result) = Completed
  /\ TaskStatus (Task (snd (fst result))) = StatusRunning
  /\ Error (Task (snd (fst result))) = EmptyString
  /\ ReplaceResources (Task (snd (fst result))) = [Scenario.deployResource EmptyString]
  /\ fst (fst broken) = Panicked
  /\ TaskStatus (Task (snd (fst broken))) = StatusFailed
  /\ Error (Task (snd (fst broken)))
       = "failed to init k8s clientset: dial tcp: i/o timeout".
Proof. vm_compute. repeat split. Qed.

(** C9: an error of the fingerprinting step of Wait is written to the error
    text, but no status is assigned: Wait returns with the task still
    Running, which is not a terminal status. *)
Theorem Wait_owner_error_keeps_running :
  let w := {| setup := Scenario.unreachable; ticks := [] |} in
  let result := Wait insertionSort 600 w (Scenario.pluginOn Scenario.unreachable Scenario.dbTask) in
  fst result = Returned
  /\ TaskStatus (Task (snd result)) = StatusRunning
  /\ terminal (TaskStatus (Task (snd result))) = false
  /\ IsTaskDone (Task (snd result)) = false
  /\ Error (Task (snd result)) = "get resource owner info error: connection refused".
Proof. vm_compute. repeat split. Qed.

(** * Wait: where the status is assigned *)

(** Splits on the scrutinee of a [match] in the goal. *)
Ltac split_match :=
  match goal with
  | |- context [match ?x with _ => _ end] =>
      lazymatch x with
      | context [match _ with _ => _ end] => fail
      | _ => destruct x eqn:?
      end
  end.

Lemma checkResource_status c r f :
  sat (checkResource c r) f
    (fun ctl f' =>
       ((ctl = Norm tt \/ ctl = Break) /\ task f' = task f)
       \/ (ctl = Return /\ exists e,
             workLoadDeployStat c (Namespace (task f)) (RelatedPodLabels (task f))
               (PodOwnerUID r) = Some e
             /\ task f' = with_Error e (with_TaskStatus StatusFailed (task f)))).
Proof.
  unfold sat, checkResource, bind, gets, when, setTask, setReady, setWerr,
    modify, skip, ret, return_, break_.
  simpl.
  destruct (workLoadDeployStat _ _ _ _) as [e|]; simpl.
  - right. eauto.
  - left. repeat (split_match; simpl in *; try discriminate); split; auto.
Qed.




Lemma onTimeout_status c t : TaskStatus (onTimeout c t) = StatusTimeout.
Proof.
  unfold onTimeout. simpl.
  destruct (diagnose _ _ _ _) as [msg|e]; [destruct (negb _)|]; reflexivity.
Qed.







(** * Wait: the timeout case *)

Lemma diagnoseContainers_app cs : forall msg,
  fold_left diagnoseContainer cs msg =
    msg ++ map diagnosticLine
             (List.filter (fun c => negb (String.eqb (rc_Message c) EmptyString)) cs).
Proof.
  induction cs as [|c rest IH]; intros msg; simpl.
  - now rewrite app_nil_r.
  - rewrite IH. unfold diagnoseContainer.
    destruct (negb _); simpl; [now rewrite <- app_assoc | reflexivity].
Qed.

Lemma diagnosePods_app pods : forall msg,
  fold_left diagnosePod pods msg = msg ++ flat_map podDiagnostics pods.
Proof.
  induction pods as [|pod rest IH]; intros msg; simpl.
  - now rewrite app_nil_r.
  - rewrite IH. unfold diagnosePod, podDiagnostics.
    destruct (podUnsettled _); simpl.
    + rewrite diagnoseContainers_app. now rewrite <- app_assoc.
    + reflexivity.
Qed.

Lemma diagnose_listRelatedPods c ns labelMaps : forall msg,
  diagnose c ns labelMaps msg =
    match listRelatedPods c ns labelMaps with
    | Err e => Err e
    | Ok pods => Ok (msg ++ flat_map podDiagnostics pods)
    end.
Proof.
  induction labelMaps as [|label rest IH]; intros msg; simpl.
  - now rewrite app_nil_r.
  - destruct (ListPods c ns label) as [pods|e]; [|reflexivity].
    rewrite IH. destruct (listRelatedPods c ns rest) as [more|e]; [|reflexivity].
    rewrite diagnosePods_app, flat_map_app, app_assoc. reflexivity.
Qed.

(** C3, as the code has it: the timeout case does not select by waiting
    reason. A pending pod whose container waits for ContainerCreating with a
    message is reported although no reason of the terminal set occurs; a pod
    in phase Running whose container is in CrashLoopBackOff is passed over
    and the error text stays empty. *)
Lemma timeout_diagnostics_ignore_reason :
  let pulling := Scenario.rolling 2 [Scenario.pendingPod] in
  let crashing := Scenario.rolling 2 [Scenario.crashingPod] in
  let t := Scenario.tracking [Scenario.dbResource "uid-db"] in
  TaskStatus (onTimeout pulling t) = StatusTimeout
  /\ Error (onTimeout pulling t)
       = "Status: waiting, Reason: ContainerCreating, Message: pulling image"
  /\ claimedDiagnostics pulling t = []
  /\ Join (claimedDiagnostics pulling t) newline = EmptyString
  /\ claimedDiagnostics crashing t = ["CrashLoopBackOff: back-off restarting"]
  /\ Error (onTimeout crashing t) = EmptyString.
Proof. vm_compute. repeat split. Qed.

(** C3, amended: when the deadline is exceeded Wait sets the status to
    Timeout and returns. If listing the pods of a recorded label set fails,
    the error text is that error. Otherwise the diagnostics are, in pod then
    container order, one line with status, reason and message for every
    container that has a non-empty message, in every listed pod whose status
    is neither Running nor Succeeded; when there is at least one line the
    error text is their newline-joined concatenation, and when there is none
    the error text is left as it was. *)
Theorem timeout_case_reports_messages (c : Cluster) (t : Deploy) :
  selectCase {| chosen := TimeoutFired; answers := c |} t = (Return, onTimeout c t)
  /\ TaskStatus (onTimeout c t) = StatusTimeout
  /\ match listRelatedPods c (Namespace t) (RelatedPodLabels t) with
     | Err e => Error (onTimeout c t) = e
     | Ok pods =>
         Error (onTimeout c t) =
           match flat_map podDiagnostics pods with
           | [] => Error t
           | line :: more => Join (line :: more) newline
           end
     end.
Proof.
  split; [reflexivity|]. split; [apply onTimeout_status|].
  unfold onTimeout. simpl. rewrite diagnose_listRelatedPods.
  destruct (listRelatedPods c (Namespace t) (RelatedPodLabels t)) as [pods|e];
    [|reflexivity].
  simpl. destruct (flat_map podDiagnostics pods); reflexivity.
Qed.

(** * Wait: the fast-fail scan *)

Lemma scanStatuses_sound name statuses e :
  scanStatuses name statuses = Some e ->
  exists cs w, In cs statuses /\ cs_Waiting cs = Some w
               /\ isTerminalReason (w_Reason w) = true
               /\ e = waitingMessage name w.
Proof.
  induction statuses as [|cs rest IH]; simpl; [discriminate|].
  destruct (cs_Waiting cs) as [w|] eqn:Hw.
  - destruct (isTerminalReason (w_Reason w)) eqn:Hr.
    + intros [= <-]. exists cs, w. auto.
    + intros H. destruct (IH H) as (cs' & w' & Hin & H'). exists cs', w'. auto.
  - intros H. destruct (IH H) as (cs' & w' & Hin & H'). exists cs', w'. auto.
Qed.

Lemma scanStatuses_complete name statuses :
  existsb (fun cs => match cs_Waiting cs with
                     | Some w => isTerminalReason (w_Reason w)
                     | None => false
                     end) statuses = true ->
  scanStatuses name statuses <> None.
Proof.
  induction statuses as [|cs rest IH]; simpl; [discriminate|].
  destruct (cs_Waiting cs) as [w|]; simpl; auto.
  destruct (isTerminalReason (w_Reason w)); simpl; auto.
Qed.

Lemma scanPods_sound pods uid e :
  scanPods pods uid = Some e -> hit pods uid e.
Proof.
  induction pods as [|pod rest IH]; simpl; [discriminate|].
  destruct (IsOwnerMatched pod uid) eqn:Hm; simpl.
  - destruct (scanStatuses _ _) as [e'|] eqn:Hs.
    + intros [= <-]. apply scanStatuses_sound in Hs as (cs & w & Hin & Hw & Hr & ->).
      exists pod, cs, w. split; [now left|]. repeat split; auto.
    + intros H. destruct (IH H) as (pod' & cs & w & Hin & H').
      exists pod', cs, w. split; [now right | exact H'].
  - intros H. destruct (IH H) as (pod' & cs & w & Hin & H').
    exists pod', cs, w. split; [now right | exact H'].
Qed.

Lemma scanPods_complete pods uid pod :
  In pod pods -> IsOwnerMatched pod uid = true -> stuck pod = true ->
  scanPods pods uid <> None.
Proof.
  induction pods as [|first rest IH]; simpl; [tauto|].
  intros [->|Hin] Hm Hs.
  - rewrite Hm. simpl.
    pose proof (scanStatuses_complete (pod_Name pod) _ Hs) as H.
    unfold statusesOf in *. destruct (scanStatuses _ _); [discriminate | tauto].
  - destruct (negb _); [now apply IH|].
    destruct (scanStatuses _ _); [discriminate | now apply IH].
Qed.

Lemma hit_app_l pods more uid e : hit pods uid e -> hit (pods ++ more) uid e.
Proof.
  intros (pod & cs & w & Hin & H). exists pod, cs, w.
  split; [apply in_or_app; now left | exact H].
Qed.

Lemma hit_app_r pods more uid e : hit more uid e -> hit (pods ++ more) uid e.
Proof.
  intros (pod & cs & w & Hin & H). exists pod, cs, w.
  split; [apply in_or_app; now right | exact H].
Qed.

Lemma workLoadDeployStat_sound c ns uid labelMaps : forall pods e,
  listRelatedPods c ns labelMaps = Ok pods ->
  workLoadDeployStat c ns labelMaps uid = Some e ->
  hit pods uid e.
Proof.
  induction labelMaps as [|label rest IH]; simpl; intros pods e; [discriminate|].
  destruct (ListPods c ns label) as [here|]; [|discriminate].
  destruct (listRelatedPods c ns rest) as [more|]; [|discriminate].
  intros [= <-]. destruct (scanPods here uid) as [e'|] eqn:Hs.
  - intros [= <-]. apply hit_app_l. now apply scanPods_sound.
  - intros H. apply hit_app_r. now apply (IH more).
Qed.

Lemma workLoadDeployStat_complete c ns uid labelMaps : forall pods pod,
  listRelatedPods c ns labelMaps = Ok pods ->
  In pod pods -> IsOwnerMatched pod uid = true -> stuck pod = true ->
  workLoadDeployStat c ns labelMaps uid <> None.
Proof.
  induction labelMaps as [|label rest IH]; simpl; intros pods pod.
  - intros [= <-] [].
  - destruct (ListPods c ns label) as [here|]; [|discriminate].
    destruct (listRelatedPods c ns rest) as [more|]; [|discriminate].
    intros [= <-] Hin Hm Hs. apply in_app_or in Hin as [Hin|Hin].
    + pose proof (scanPods_complete here uid pod Hin Hm Hs).
      destruct (scanPods here uid); [discriminate | tauto].
    + destruct (scanPods here uid); [discriminate|]. now apply (IH more pod).
Qed.

Lemma checkResource_passes c r t :
  workLoadDeployStat c (Namespace t) (RelatedPodLabels t) (PodOwnerUID r) = None ->
  settled c (Namespace t) r = true ->
  checkResource c r (enterDefault t) = (Norm tt, enterDefault t).
Proof.
  intros Hw Hs.
  unfold checkResource, settled, bind, gets, when, setTask, setReady, setWerr,
    modify, skip, ret, return_, break_, enterDefault in *.
  simpl. rewrite Hw. simpl.
  destruct (String.eqb (Kind r) setting.Deployment).
  - destruct (GetDeployment c (Namespace t) (Name r)); try discriminate.
    simpl. rewrite Hs. reflexivity.
  - destruct (String.eqb (Kind r) setting.StatefulSet); [|reflexivity].
    destruct (GetStatefulSet c (Namespace t) (Name r)); try discriminate.
    simpl. rewrite Hs. reflexivity.
Qed.

Lemma checkResource_fails c r t e :
  workLoadDeployStat c (Namespace t) (RelatedPodLabels t) (PodOwnerUID r) = Some e ->
  checkResource c r (enterDefault t)
    = (Return, {| task := failedWith e t; ready := true; werr := None |}).
Proof.
  intros Hw.
  unfold checkResource, bind, gets, setTask, modify, return_, enterDefault.
  simpl. rewrite Hw. reflexivity.
Qed.

Lemma onDefault_returns c t f :
  forEach (ReplaceResources t) (checkResource c) (enterDefault t) = (Return, f) ->
  onDefault c t = (Return, task f).
Proof.
  intros H. unfold onDefault, defaultCase, bind, gets, labelled. simpl.
  fold (enterDefault t). rewrite H. reflexivity.
Qed.

Lemma forEach_next {S X} (body : X -> M S unit) x xs s s' :
  body x s = (Norm tt, s') -> forEach (x :: xs) body s = forEach xs body s'.
Proof. intros H. simpl. unfold bind. rewrite H. reflexivity. Qed.

Lemma forEach_return {S X} (body : X -> M S unit) x xs s s' :
  body x s = (Return, s') -> forEach (x :: xs) body s = (Return, s').
Proof. intros H. simpl. unfold bind. rewrite H. reflexivity. Qed.

(** Resources that are settled are passed over, unless the scan hits for
    one of them. *)
Lemma scan_settled_prefix c t rest : forall before,
  Forall (fun r => settled c (Namespace t) r = true) before ->
  (exists r e, In r before
     /\ workLoadDeployStat c (Namespace t) (RelatedPodLabels t) (PodOwnerUID r) = Some e
     /\ forEach (before ++ rest) (checkResource c) (enterDefault t)
          = (Return, {| task := failedWith e t; ready := true; werr := None |}))
  \/ forEach (before ++ rest) (checkResource c) (enterDefault t)
       = forEach rest (checkResource c) (enterDefault t).
Proof.
  induction before as [|r more IH]; intros Hall; [now right|].
  inversion Hall as [|? ? Hr Hmore]; subst.
  destruct (workLoadDeployStat c (Namespace t) (RelatedPodLabels t) (PodOwnerUID r))
    as [e|] eqn:Hw.
  - left. exists r, e. split; [now left|]. split; [exact Hw|].
    apply forEach_return, checkResource_fails, Hw.
  - change ((r :: more) ++ rest) with (r :: (more ++ rest)).
    rewrite (forEach_next _ _ _ _ _ (checkResource_passes c r t Hw Hr)).
    destruct (IH Hmore) as [(r' & e & Hin & Hw' & Hrun)|Hrun].
    + left. exists r', e. split; [now right|]. auto.
    + right. exact Hrun.
Qed.

(** C7, as the code has it: a pod that matches the fingerprint of a tracked
    resource and sits in CrashLoopBackOff does not end Wait when an earlier
    resource of the list is not ready, because the scan of the tick stops at
    that resource. Here the deployment has two of three replicas available and
    comes first; the pod belongs to the stateful set that comes second. *)
Lemma stuck_pod_behind_unready_resource :
  let c := Scenario.rolling 2 [Scenario.crashingPod] in
  let t := Scenario.tracking
             [Scenario.deployResource "uid-rs-2"; Scenario.dbResource "uid-db"] in
  listRelatedPods c (Namespace t) (RelatedPodLabels t) = Ok [Scenario.crashingPod]
  /\ IsOwnerMatched Scenario.crashingPod (PodOwnerUID (Scenario.dbResource "uid-db")) = true
  /\ stuck Scenario.crashingPod = true
  /\ selectCase {| chosen := Default_; answers := c |} t = (Norm tt, t)
  /\ TaskStatus t = StatusRunning
  /\ poll [ {| chosen := Default_; answers := c |} ] t = (StillPolling, t).
Proof. vm_compute. repeat split. Qed.

Lemma scanStatuses_first name statuses e :
  scanStatuses name statuses = Some e ->
  exists csEarlier cs csLater w,
    statuses = csEarlier ++ cs :: csLater
    /\ Forall notTerminal csEarlier
    /\ cs_Waiting cs = Some w
    /\ isTerminalReason (w_Reason w) = true
    /\ e = waitingMessage name w.
Proof.
  induction statuses as [|cs rest IH]; simpl; [discriminate|].
  destruct (cs_Waiting cs) as [w|] eqn:Hw.
  - destruct (isTerminalReason (w_Reason w)) eqn:Hr.
    + intros [= <-]. exists [], cs, rest, w. repeat split; auto.
    + intros H. destruct (IH H) as (a & cs' & b & w' & -> & Ha & H').
      exists (cs :: a), cs', b, w'. split; [reflexivity|].
      split; [| exact H'].
      constructor; [| exact Ha]. unfold notTerminal. now rewrite Hw.
  - intros H. destruct (IH H) as (a & cs' & b & w' & -> & Ha & H').
    exists (cs :: a), cs', b, w'. split; [reflexivity|].
    split; [| exact H'].
    constructor; [| exact Ha]. unfold notTerminal. now rewrite Hw.
Qed.

Lemma scanStatuses_none name statuses :
  scanStatuses name statuses = None ->
  existsb (fun cs => match cs_Waiting cs with
                     | Some w => isTerminalReason (w_Reason w)
                     | None => false
                     end) statuses = false.
Proof.
  induction statuses as [|cs rest IH]; simpl; [reflexivity|].
  destruct (cs_Waiting cs) as [w|]; simpl; auto.
  destruct (isTerminalReason (w_Reason w)); simpl; [discriminate | auto].
Qed.

Lemma firstHit_cons pod pods uid e :
  passedOver uid pod -> firstHit pods uid e -> firstHit (pod :: pods) uid e.
Proof.
  intros Hp (earlier & pod' & later & a & cs & b & w & -> & He & H).
  exists (pod :: earlier), pod', later, a, cs, b, w.
  split; [reflexivity|]. split; [now constructor | exact H].
Qed.

Lemma firstHit_app_l pods more uid e :
  firstHit pods uid e -> firstHit (pods ++ more) uid e.
Proof.
  intros (earlier & pod & later & a & cs & b & w & -> & H).
  exists earlier, pod, (later ++ more), a, cs, b, w.
  split; [now rewrite <- app_assoc | exact H].
Qed.

Lemma firstHit_app_r here more uid e :
  Forall (passedOver uid) here -> firstHit more uid e ->
  firstHit (here ++ more) uid e.
Proof.
  induction 1 as [|pod rest Hp _ IH]; intros H; [exact H|].
  simpl. apply firstHit_cons; auto.
Qed.

Lemma scanPods_first pods uid e :
  scanPods pods uid = Some e -> firstHit pods uid e.
Proof.
  induction pods as [|pod rest IH]; simpl; [discriminate|].
  destruct (IsOwnerMatched pod uid) eqn:Hm; simpl.
  - destruct (scanStatuses _ _) as [e'|] eqn:Hs.
    + intros [= <-].
      apply scanStatuses_first in Hs as (a & cs & b & w & Hsplit & Ha & Hw & Hr & ->).
      exists [], pod, rest, a, cs, b, w. repeat split; auto.
    + intros H. apply firstHit_cons; [| now apply IH].
      right. unfold stuck. now apply (scanStatuses_none (pod_Name pod)).
  - intros H. apply firstHit_cons; [now left | now apply IH].
Qed.

Lemma scanPods_none pods uid :
  scanPods pods uid = None -> Forall (passedOver uid) pods.
Proof.
  induction pods as [|pod rest IH]; simpl; [constructor|].
  destruct (IsOwnerMatched pod uid) eqn:Hm; simpl.
  - destruct (scanStatuses _ _) as [e'|] eqn:Hs; [discriminate|].
    intros H. constructor; [| now apply IH].
    right. unfold stuck. now apply (scanStatuses_none (pod_Name pod)).
  - intros H. constructor; [now left | now apply IH].
Qed.

Lemma workLoadDeployStat_first c ns uid labelMaps : forall pods e,
  listRelatedPods c ns labelMaps = Ok pods ->
  workLoadDeployStat c ns labelMaps uid = Some e ->
  firstHit pods uid e.
Proof.
  induction labelMaps as [|label rest IH]; simpl; intros pods e; [discriminate|].
  destruct (ListPods c ns label) as [here|]; [|discriminate].
  destruct (listRelatedPods c ns rest) as [more|]; [|discriminate].
  intros [= <-]. destruct (scanPods here uid) as [e'|] eqn:Hs.
  - intros [= <-]. apply firstHit_app_l. now apply scanPods_first.
  - intros H. apply firstHit_app_r; [now apply scanPods_none | now apply (IH more)].
Qed.

Lemma workLoadDeployStat_none c ns uid labelMaps : forall pods,
  listRelatedPods c ns labelMaps = Ok pods ->
  workLoadDeployStat c ns labelMaps uid = None ->
  Forall (passedOver uid) pods.
Proof.
  induction labelMaps as [|label rest IH]; simpl; intros pods.
  - intros [= <-] _. constructor.
  - destruct (ListPods c ns label) as [here|]; [|discriminate].
    destruct (listRelatedPods c ns rest) as [more|]; [|discriminate].
    intros [= <-]. destruct (scanPods here uid) as [e'|] eqn:Hs; [discriminate|].
    intros H. apply List.Forall_app. split; [now apply scanPods_none | now apply IH].
Qed.

Lemma first_split_unique {A} (P : A -> Prop) a x b : forall a' x' b',
  a ++ x :: b = a' ++ x' :: b' ->
  Forall P a -> ~ P x -> Forall P a' -> ~ P x' ->
  a = a' /\ x = x' /\ b = b'.
Proof.
  induction a as [|y a IH]; intros [|y' a'] x' b' H Ha Hx Ha' Hx'; simpl in H;
    injection H as Hhead Htail.
  - subst. auto.
  - subst. inversion Ha'; subst. contradiction.
  - subst. inversion Ha; subst. contradiction.
  - subst. inversion Ha; inversion Ha'; subst.
    destruct (IH a' x' b' Htail) as (-> & -> & ->); auto.
Qed.

(** The first hit is one message: [firstHit] holds of no other. *)
Lemma firstHit_unique pods uid e e' :
  firstHit pods uid e -> firstHit pods uid e' -> e' = e.
Proof.
  intros (a & pod & b & ca & cs & cb & w & Hp & Ha & Hm & Hs & Hca & Hw & Hr & ->)
         (a' & pod' & b' & ca' & cs' & cb' & w' & Hp' & Ha' & Hm' & Hs' & Hca' & Hw'
            & Hr' & ->).
  assert (Hstuck : forall q xs c ys v,
            statusesOf q = xs ++ c :: ys -> cs_Waiting c = Some v ->
            isTerminalReason (w_Reason v) = true -> stuck q = true).
  { intros q xs c ys v Hq Hv Ht. unfold stuck. unfold statusesOf in Hq. rewrite Hq.
    apply List.existsb_exists. exists c. split; [apply in_or_app; right; now left|].
    now rewrite Hv. }
  assert (Hnot : forall q, IsOwnerMatched q uid = true -> stuck q = true ->
                           ~ passedOver uid q).
  { intros q H1 H2 [H|H]; congruence. }
  rewrite Hp in Hp'.
  destruct (first_split_unique (passedOver uid) a pod b a' pod' b' Hp' Ha)
    as (_ & <- & _); eauto.
  rewrite Hs in Hs'.
  assert (Hterm : forall c v, cs_Waiting c = Some v ->
                              isTerminalReason (w_Reason v) = true -> ~ notTerminal c).
  { intros c v Hv Ht H. unfold notTerminal in H. rewrite Hv in H. congruence. }
  destruct (first_split_unique notTerminal ca cs cb ca' cs' cb' Hs' Hca)
    as (_ & <- & _); eauto.
  congruence.
Qed.

(** Resources that are settled are passed over until the scan hits for one
    of them, the first in the order of the list. *)
Lemma scan_first_failure c t rest : forall before,
  Forall (fun r => settled c (Namespace t) r = true) before ->
  (exists pre r post e,
     before = pre ++ r :: post
     /\ Forall (fun r' => workLoadDeployStat c (Namespace t) (RelatedPodLabels t)
                            (PodOwnerUID r') = None) pre
     /\ workLoadDeployStat c (Namespace t) (RelatedPodLabels t) (PodOwnerUID r) = Some e
     /\ forEach (before ++ rest) (checkResource c) (enterDefault t)
          = (Return, {| task := failedWith e t; ready := true; werr := None |}))
  \/ (Forall (fun r' => workLoadDeployStat c (Namespace t) (RelatedPodLabels t)
                            (PodOwnerUID r') = None) before
      /\ forEach (before ++ rest) (checkResource c) (enterDefault t)
           = forEach rest (checkResource c) (enterDefault t)).
Proof.
  induction before as [|r more IH]; intros Hall; [right; split; [constructor | reflexivity]|].
  inversion Hall as [|? ? Hr Hmore]; subst.
  destruct (workLoadDeployStat c (Namespace t) (RelatedPodLabels t) (PodOwnerUID r))
    as [e|] eqn:Hw.
  - left. exists [], r, more, e. split; [reflexivity|]. split; [constructor|].
    split; [exact Hw|]. apply forEach_return, checkResource_fails, Hw.
  - change ((r :: more) ++ rest) with (r :: (more ++ rest)).
    rewrite (forEach_next _ _ _ _ _ (checkResource_passes c r t Hw Hr)).
    destruct (IH Hmore) as [(pre & r' & post & e & -> & Hpre & Hw' & Hrun)|[Hnone Hrun]].
    + left. exists (r :: pre), r', post, e. split; [reflexivity|].
      split; [now constructor | auto].
    + right. split; [now constructor | exact Hrun].
Qed.

(** C7, amended: in the default branch, let a pod listed for the recorded
    pod labels (all listings succeeding) match the fingerprint of a tracked
    resource and have a container, init or regular, waiting for a reason of
    the terminal set. If every resource before that one in the list is
    fetched and ready on this tick, Wait returns on this tick with status
    Failed, and the error text names the pod, terminal reason and message of
    the first such container met by the scan: it belongs to the first
    resource of the list, that one or one before it, for which the listing
    has a matching pod with such a container, to the first such pod in the
    order of the listing, and to the first such container of that pod, init
    containers first. No other message fits. *)
Theorem fast_fail_when_reached c t before r after pods pod :
  ReplaceResources t = before ++ r :: after ->
  Forall (fun r' => settled c (Namespace t) r' = true) before ->
  listRelatedPods c (Namespace t) (RelatedPodLabels t) = Ok pods ->
  In pod pods -> IsOwnerMatched pod (PodOwnerUID r) = true -> stuck pod = true ->
  exists pre r' post e,
    before ++ [r] = pre ++ r' :: post
    /\ Forall (fun r'' => Forall (passedOver (PodOwnerUID r'')) pods) pre
    /\ firstHit pods (PodOwnerUID r') e
    /\ (forall e', firstHit pods (PodOwnerUID r') e' -> e' = e)
    /\ In r' (before ++ [r]) /\ hit pods (PodOwnerUID r') e
    /\ selectCase {| chosen := Default_; answers := c |} t = (Return, failedWith e t)
    /\ TaskStatus (failedWith e t) = StatusFailed
    /\ Error (failedWith e t) = e.
Proof.
  intros Hrs Hbefore Hpods Hin Hm Hs.
  assert (Hclean : forall rs,
            Forall (fun r' => workLoadDeployStat c (Namespace t) (RelatedPodLabels t)
                                (PodOwnerUID r') = None) rs ->
            Forall (fun r'' => Forall (passedOver (PodOwnerUID r'')) pods) rs).
  { intros rs H. eapply List.Forall_impl; [| exact H]. intros r'' Hn.
    exact (workLoadDeployStat_none c (Namespace t) _ (RelatedPodLabels t) pods Hpods Hn). }
  assert (Hfound : forall r' e,
            workLoadDeployStat c (Namespace t) (RelatedPodLabels t) (PodOwnerUID r')
              = Some e ->
            firstHit pods (PodOwnerUID r') e
            /\ (forall e', firstHit pods (PodOwnerUID r') e' -> e' = e)
            /\ hit pods (PodOwnerUID r') e).
  { intros r' e Hw.
    pose proof (workLoadDeployStat_first c (Namespace t) _ (RelatedPodLabels t) pods e
                  Hpods Hw) as Hfirst.
    split; [exact Hfirst|]. split.
    - intros e' He'. exact (firstHit_unique pods _ e e' Hfirst He').
    - exact (workLoadDeployStat_sound c (Namespace t) _ (RelatedPodLabels t) pods e
               Hpods Hw). }
  destruct (scan_first_failure c t (r :: after) before Hbefore)
    as [(pre & r' & post & e & Hsplit & Hpre & Hw & Hrun)|[Hnone Hrun]].
  - exists pre, r', (post ++ [r]), e.
    destruct (Hfound r' e Hw) as (H1 & H2 & H3).
    split; [rewrite Hsplit, <- app_assoc; reflexivity|].
    split; [now apply Hclean|]. split; [exact H1|]. split; [exact H2|].
    split; [rewrite Hsplit; apply in_or_app; left; apply in_or_app; right; now left|].
    split; [exact H3|]. split; [| split; reflexivity].
    unfold selectCase. simpl. rewrite <- Hrs in Hrun.
    now rewrite (onDefault_returns c t _ Hrun).
  - pose proof (workLoadDeployStat_complete c (Namespace t) (PodOwnerUID r)
                  (RelatedPodLabels t) pods pod Hpods Hin Hm Hs) as Hne.
    destruct (workLoadDeployStat c (Namespace t) (RelatedPodLabels t) (PodOwnerUID r))
      as [e|] eqn:Hw; [|tauto].
    exists before, r, [], e.
    destruct (Hfound r e Hw) as (H1 & H2 & H3).
    split; [reflexivity|].
    split; [now apply Hclean|]. split; [exact H1|]. split; [exact H2|].
    split; [apply in_or_app; right; now left|].
    split; [exact H3|]. split; [| split; reflexivity].
    unfold selectCase. simpl.
    rewrite (forEach_return _ _ _ _ _ (checkResource_fails c r t e Hw)) in Hrun.
    rewrite <- Hrs in Hrun.
    now rewrite (onDefault_returns c t _ Hrun).
Qed.

Lemma fast_fail_when_reached_witness :
  let pods := [Scenario.pendingPod; Scenario.crashingPod; Scenario.crashingInit] in
  let c := Scenario.rolling 3 pods in
  let t := Scenario.tracking
             [Scenario.deployResource "uid-rs-2"; Scenario.dbResource "uid-db"] in
  exists pre r' post e,
    [Scenario.deployResource "uid-rs-2"] ++ [Scenario.dbResource "uid-db"]
      = pre ++ r' :: post
    /\ Forall (fun r'' => Forall (passedOver (PodOwnerUID r'')) pods) pre
    /\ firstHit pods (PodOwnerUID r') e
    /\ (forall e', firstHit pods (PodOwnerUID r') e' -> e' = e)
    /\ In r' ([Scenario.deployResource "uid-rs-2"] ++ [Scenario.dbResource "uid-db"])
    /\ hit pods (PodOwnerUID r') e
    /\ selectCase {| chosen := Default_; answers := c |} t = (Return, failedWith e t)
    /\ TaskStatus (failedWith e t) = StatusFailed
    /\ Error (failedWith e t) = e.
Proof.
  intros pods c t.
  apply (fast_fail_when_reached c t [Scenario.deployResource "uid-rs-2"]
           (Scenario.dbResource "uid-db") [] pods Scenario.crashingInit).
  - reflexivity.
  - constructor; [reflexivity | constructor].
  - reflexivity.
  - right. right. now left.
  - reflexivity.
  - reflexivity.
Defined.

(** * Wait: readiness *)

Lemma checkResource_outcomes c r f :
  match checkResource c r f with
  | (Norm _, f') => task f' = task f /\ settled c (Namespace (task f)) r = true
  | (Break, f') => task f' = task f /\ ready f' = false
  | (Return, f') => exists e, task f' = failedWith e (task f)
  | (Panic, _) => False
  end.
Proof.
  unfold checkResource, settled, bind, gets, when, setTask, setReady, setWerr,
    modify, skip, ret, return_, break_.
  simpl.
  destruct (workLoadDeployStat _ _ _ _) as [e|]; simpl; [eauto|].
  destruct (String.eqb (Kind r) setting.Deployment).
  - destruct (GetDeployment c _ _) as [d|ptr|e]; simpl; auto.
    destruct (DeploymentReady d); simpl; auto.
  - destruct (String.eqb (Kind r) setting.StatefulSet); simpl; auto.
    destruct (GetStatefulSet c _ _) as [s|ptr|e]; simpl; auto.
    + destruct (werr f); simpl; auto.
      destruct (StatefulSetReady s); simpl; auto.
    + destruct (werr f); simpl; auto.
Qed.

Lemma scan_outcomes c t rs : forall f,
  task f = t ->
  match forEach rs (checkResource c) f with
  | (Norm _, f') =>
      task f' = t /\ Forall (fun r => settled c (Namespace t) r = true) rs
  | (Break, f') => task f' = t /\ ready f' = false
  | (Return, f') => exists e, task f' = failedWith e t
  | (Panic, _) => False
  end.
Proof.
  induction rs as [|r rest IH]; intros f Hf; simpl.
  - auto.
  - unfold bind. pose proof (checkResource_outcomes c r f) as H.
    destruct (checkResource c r f) as [[[]| | |] f1]; rewrite ?Hf in H.
    + destruct H as [H1 H2]. specialize (IH f1 H1).
      destruct (forEach rest (checkResource c) f1) as [[[]| | |] f2]; auto.
      destruct IH. auto.
    + exact H.
    + exact H.
    + exact H.
Qed.

Lemma onDefault_ready c t r :
  In r (ReplaceResources t) -> settled c (Namespace t) r = false ->
  TaskStatus (snd (onDefault c t)) = TaskStatus t
  \/ TaskStatus (snd (onDefault c t)) = StatusFailed.
Proof.
  intros Hin Hr.
  pose proof (scan_outcomes c t (ReplaceResources t) (enterDefault t) eq_refl) as H.
  unfold onDefault, defaultCase, bind, gets, labelled. simpl.
  fold (enterDefault t).
  destruct (forEach (ReplaceResources t) (checkResource c) (enterDefault t))
    as [[[]| | |] f1]; simpl.
  - destruct H as [_ Hall]. rewrite List.Forall_forall in Hall.
    specialize (Hall r Hin). congruence.
  - destruct H as [e ->]. now right.
  - destruct H as [Ht Hready].
    unfold when, setTask, modify, skip, ret, return_. rewrite Hready. simpl.
    destruct (IsTaskDone (task f1)); simpl; left; now rewrite Ht.
  - destruct H.
Qed.

Lemma DeploymentReady_caughtUp d :
  DeploymentReady d = true <->
  caughtUp (d_Generation d) (d_ObservedGeneration d) (d_Replicas d)
    (d_UpdatedReplicas d) (d_AvailableReplicas d).
Proof.
  unfold DeploymentReady, caughtUp.
  rewrite !Bool.andb_true_iff, Z.leb_le, !Z.eqb_eq. tauto.
Qed.

Lemma StatefulSetReady_caughtUp s :
  StatefulSetReady s = true <->
  caughtUp (s_Generation s) (s_ObservedGeneration s) (s_Replicas s)
    (s_UpdatedReplicas s) (s_AvailableReplicas s).
Proof.
  unfold StatefulSetReady, caughtUp.
  rewrite !Bool.andb_true_iff, Z.leb_le, !Z.eqb_eq. tauto.
Qed.

Lemma unready_not_settled c ns r : unready c ns r -> settled c ns r = false.
Proof.
  unfold unready, settled. intros [[Hk H]|[Hk H]]; rewrite Hk; simpl.
  - destruct (GetDeployment c ns (Name r)) as [d| |]; try reflexivity.
    apply Bool.not_true_is_false. intros Hd.
    apply (H d eq_refl). now apply DeploymentReady_caughtUp.
  - destruct (GetStatefulSet c ns (Name r)) as [s| |]; try reflexivity.
    apply Bool.not_true_is_false. intros Hs.
    apply (H s eq_refl). now apply StatefulSetReady_caughtUp.
Qed.

(** C8: on a tick of the default branch on which a tracked deployment or
    stateful set is not ready (not fetched, observed generation behind the
    desired one, or updated or available replicas different from the desired
    replicas), Wait does not set the status to Passed: the tick leaves the
    status as it was or sets Failed. In particular a stateful set with three
    desired, three updated and two available replicas is not ready. *)
Theorem Passed_requires_readiness c t r :
  In r (ReplaceResources t) ->
  unready c (Namespace t) r ->
  let result := selectCase {| chosen := Default_; answers := c |} t in
  (TaskStatus (snd result) = TaskStatus t \/ TaskStatus (snd result) = StatusFailed)
  /\ (forall s, s_Replicas s = 3 -> s_UpdatedReplicas s = 3 ->
                s_AvailableReplicas s = 2 -> StatefulSetReady s = false)
  /\ (forall d, d_ObservedGeneration d < d_Generation d -> DeploymentReady d = false).
Proof.
  intros Hin Hr result. split; [| split].
  - subst result. unfold selectCase. simpl.
    apply (onDefault_ready c t r Hin). now apply unready_not_settled.
  - intros s H1 H2 H3. unfold StatefulSetReady. rewrite H1, H2, H3.
    now rewrite Bool.andb_false_r.
  - intros d H. unfold DeploymentReady.
    destruct (Z.leb_spec (d_Generation d) (d_ObservedGeneration d)); [lia | reflexivity].
Qed.

Lemma Passed_requires_readiness_witness :
  let c := Scenario.dbLagging in
  let t := Scenario.tracking [Scenario.dbResource "uid-db"] in
  let result := selectCase {| chosen := Default_; answers := c |} t in
  (TaskStatus (snd result) = TaskStatus t \/ TaskStatus (snd result) = StatusFailed)
  /\ (forall s, s_Replicas s = 3 -> s_UpdatedReplicas s = 3 ->
                s_AvailableReplicas s = 2 -> StatefulSetReady s = false)
  /\ (forall d, d_ObservedGeneration d < d_Generation d -> DeploymentReady d = false).
Proof.
  intros c t.
  apply (Passed_requires_readiness c t (Scenario.dbResource "uid-db")).
  - now left.
  - right. split; [reflexivity|].
    intros s H. cbv in H. injection H as <-.
    unfold caughtUp. simpl. intros (_ & _ & H). discriminate H.
Defined.

(** * Wait: fingerprints *)

Lemma insertBy_perm {A} (less : A -> A -> bool) x xs :
  Permutation (insertBy less x xs) (x :: xs).
Proof.
  induction xs as [|y rest IH]; simpl; [reflexivity|].
  destruct (less x y); [reflexivity|].
  rewrite IH. apply perm_swap.
Qed.

Lemma insertionSort_perm A (less : A -> A -> bool) xs :
  Permutation (insertionSort A less xs) xs.
Proof.
  unfold insertionSort. induction xs as [|x rest IH]; simpl; [reflexivity|].
  rewrite insertBy_perm. now apply perm_skip.
Qed.

Lemma insertBy_newestFirst x xs :
  newestFirst xs -> newestFirst (insertBy newer x xs).
Proof.
  unfold newestFirst.
  induction xs as [|y rest IH]; simpl; intros Hs.
  - constructor; constructor.
  - inversion Hs as [|? ? Hrest Hy]; subst.
    destruct (newer x y) eqn:Hxy.
    + constructor; [exact Hs|].
      unfold newer, After in *. apply Z.ltb_lt in Hxy.
      constructor.
      * apply Z.ltb_ge. lia.
      * eapply List.Forall_impl; [| exact Hy].
        intros z Hz. simpl in Hz. apply Z.ltb_ge in Hz. apply Z.ltb_ge. lia.
    + constructor; [now apply IH|].
      eapply Permutation_Forall; [symmetry; apply insertBy_perm|].
      constructor; assumption.
Qed.

Lemma insertionSort_newestFirst xs :
  newestFirst (insertionSort ReplicaSet newer xs).
Proof.
  unfold insertionSort. induction xs as [|x rest IH]; simpl.
  - constructor.
  - now apply insertBy_newestFirst.
Qed.

Section Fingerprints.

Variable sortSlice : forall A : Type, (A -> A -> bool) -> list A -> list A.
Variable DeployTimeout : Z.

(** What is asked of [sort.Slice]: it permutes its argument, and with the
    comparison of creation times it leaves the newest first. *)
Hypothesis sortSlice_perm :
  forall xs, Permutation (sortSlice ReplicaSet newer xs) xs.
Hypothesis sortSlice_sorted :
  forall xs, newestFirst (sortSlice ReplicaSet newer xs).

Lemma sorted_head_latest replicaSets d latest rest :
  sortSlice ReplicaSet newer
    (List.filter (fun rs => IsControlledBy rs d) replicaSets) = latest :: rest ->
  latestOwned replicaSets d latest.
Proof.
  intros Hsort.
  set (owned := List.filter (fun rs => IsControlledBy rs d) replicaSets) in *.
  assert (Hin : In latest owned).
  { apply (Permutation_in _ (sortSlice_perm owned)). rewrite Hsort. now left. }
  apply List.filter_In in Hin as [Hin Hc].
  split; [exact Hin|]. split; [exact Hc|].
  intros rs Hrs Hrc.
  assert (Hown : In rs owned) by (apply List.filter_In; auto).
  apply (Permutation_in _ (Permutation_sym (sortSlice_perm owned))) in Hown.
  rewrite Hsort in Hown.
  pose proof (sortSlice_sorted owned) as Hs. rewrite Hsort in Hs.
  inversion Hs as [|? ? _ Hall]; subst.
  destruct Hown as [<-|Hown]; [lia|].
  rewrite List.Forall_forall in Hall. specialize (Hall rs Hown).
  unfold newer, After in Hall. apply Z.ltb_ge in Hall. exact Hall.
Qed.

Lemma sameButUID_with uid r : sameButUID r (with_PodOwnerUID uid r).
Proof. unfold sameButUID. simpl. auto. Qed.

Lemma fingerprint_spec c ns r r' :
  fst (fingerprint sortSlice c ns r) = Enriched r' ->
  sameButUID r r' /\ fingerprintOf c ns r (PodOwnerUID r').
Proof.
  unfold fingerprint, fingerprintOf.
  destruct (String.eqb (Kind r) setting.StatefulSet).
  - destruct (GetStatefulSet c ns (Name r)) as [sts|[sts|]|e] eqn:Hg;
      try discriminate; intros [= <-];
      (split; [apply sameButUID_with | exists sts; auto]).
  - destruct (String.eqb (Kind r) setting.Deployment).
    + assert (Hd : forall d,
                fst (fingerprintDeployment sortSlice c ns r d) = Enriched r' ->
                sameButUID r r' /\
                exists selector replicaSets latest,
                  LabelSelectorAsSelector (d_Selector d) = Ok selector
                  /\ ListReplicaSets c ns selector = Ok replicaSets
                  /\ latestOwned replicaSets d latest
                  /\ PodOwnerUID r' = rs_UID latest).
      { intros d. unfold fingerprintDeployment.
        destruct (LabelSelectorAsSelector (d_Selector d)) as [selector|] eqn:Hsel;
          [|discriminate]. simpl.
        destruct (ListReplicaSets c ns selector) as [replicaSets|] eqn:Hlist;
          [|discriminate].
        destruct (List.length _ <=? 0)%nat; [discriminate|].
        destruct (sortSlice ReplicaSet newer _) as [|latest rest] eqn:Hsort;
          [discriminate|].
        intros [= <-]. split; [apply sameButUID_with|].
        exists selector, replicaSets, latest.
        split; [reflexivity|]. split; [exact Hlist|].
        split; [apply (sorted_head_latest _ _ _ _ Hsort) | reflexivity]. }
      destruct (GetDeployment c ns (Name r)) as [d|[d|]|e] eqn:Hg;
        try discriminate; intros H;
        destruct (Hd d H) as (Hsame & selector & replicaSets & latest & H');
        (split; [exact Hsame | exists d, selector, replicaSets, latest; tauto]).
    + intros [= <-]. split; [| reflexivity]. unfold sameButUID. auto.
Qed.

Lemma ownerUIDLoop_spec c ns rs : forall acc made out,
  fst (ownerUIDLoop sortSlice c ns rs acc made) = Resolved out None ->
  exists enriched,
    out = acc ++ enriched
    /\ Forall2 (fun r r' => sameButUID r r' /\ fingerprintOf c ns r (PodOwnerUID r'))
               rs enriched.
Proof.
  induction rs as [|r rest IH]; intros acc made out; simpl.
  - intros [= <-]. exists []. split; [now rewrite app_nil_r | constructor].
  - destruct (fingerprint sortSlice c ns r) as [[r'|keep e|] calls] eqn:Hf;
      try discriminate.
    intros H. destruct (IH _ _ _ H) as (enriched & -> & Hall).
    exists (r' :: enriched). split; [now rewrite <- app_assoc|].
    constructor; [apply fingerprint_spec; now rewrite Hf | exact Hall].
Qed.

Lemma fingerprint_calls c ns r r' :
  fst (fingerprint sortSlice c ns r) = Enriched r' ->
  if String.eqb (Kind r) setting.Deployment
  then exists selector, snd (fingerprint sortSlice c ns r) = sleepThenList ns selector
  else snd (fingerprint sortSlice c ns r) = [].
Proof.
  unfold fingerprint.
  destruct (String.eqb (Kind r) setting.StatefulSet) eqn:Hs.
  - apply String.eqb_eq in Hs. rewrite Hs. simpl.
    destruct (GetStatefulSet c ns (Name r)) as [sts|[sts|]|e]; try discriminate;
      reflexivity.
  - destruct (String.eqb (Kind r) setting.Deployment); [| reflexivity].
    assert (Hd : forall d,
              fst (fingerprintDeployment sortSlice c ns r d) = Enriched r' ->
              exists selector,
                snd (fingerprintDeployment sortSlice c ns r d) = sleepThenList ns selector).
    { intros d. unfold fingerprintDeployment.
      destruct (LabelSelectorAsSelector (d_Selector d)) as [selector|];
        [| discriminate].
      intros _. exists selector. reflexivity. }
    destruct (GetDeployment c ns (Name r)) as [d|[d|]|e]; try discriminate;
      apply Hd.
Qed.

Lemma ownerUIDLoop_calls c ns rs : forall acc made out,
  fst (ownerUIDLoop sortSlice c ns rs acc made) = Resolved out None ->
  exists selectors,
    snd (ownerUIDLoop sortSlice c ns rs acc made)
      = made ++ flat_map (sleepThenList ns) selectors
    /\ List.length selectors
       = List.length
           (List.filter (fun r => String.eqb (Kind r) setting.Deployment) rs).
Proof.
  induction rs as [|r rest IH]; intros acc made out; simpl.
  - intros _. exists []. split; [now rewrite app_nil_r | reflexivity].
  - pose proof (fingerprint_calls c ns r) as Hc.
    destruct (fingerprint sortSlice c ns r) as [[r'|keep e|] calls] eqn:Hf;
      try discriminate.
    specialize (Hc r' eq_refl). simpl in Hc.
    intros H. destruct (IH _ _ _ H) as (selectors & -> & Hlen).
    destruct (String.eqb (Kind r) setting.Deployment).
    + destruct Hc as [selector ->]. exists (selector :: selectors).
      split; [now rewrite <- app_assoc | simpl; now rewrite Hlen].
    + rewrite Hc. exists selectors. split; [now rewrite app_nil_r | exact Hlen].
Qed.

Lemma Forall2_sameButUID_refl rs : Forall2 sameButUID rs rs.
Proof.
  induction rs; constructor; auto. unfold sameButUID. auto.
Qed.

Lemma onDefault_blank c t : blank (snd (onDefault c t)) = blank t.
Proof.
  pose proof (scan_outcomes c t (ReplaceResources t) (enterDefault t) eq_refl) as H.
  unfold onDefault, defaultCase, bind, gets, labelled. simpl.
  fold (enterDefault t).
  destruct (forEach (ReplaceResources t) (checkResource c) (enterDefault t))
    as [[[]| | |] f1]; simpl.
  - destruct H as [Ht _].
    unfold when, setTask, modify, skip, ret, return_.
    destruct (ready f1); simpl.
    + rewrite Ht. reflexivity.
    + destruct (IsTaskDone (task f1)); simpl; now rewrite Ht.
  - destruct H as [e ->]. reflexivity.
  - destruct H as [Ht _].
    unfold when, setTask, modify, skip, ret, return_.
    destruct (ready f1); simpl.
    + rewrite Ht. reflexivity.
    + destruct (IsTaskDone (task f1)); simpl; now rewrite Ht.
  - destruct H.
Qed.

Lemma onTimeout_blank c t : blank (onTimeout c t) = blank t.
Proof.
  unfold onTimeout. simpl.
  destruct (diagnose _ _ _ _) as [msg|e]; [destruct (negb _)|]; reflexivity.
Qed.

Lemma selectCase_blank tick t : blank (snd (selectCase tick t)) = blank t.
Proof.
  unfold selectCase. destruct (chosen tick); simpl.
  - reflexivity.
  - apply onTimeout_blank.
  - apply onDefault_blank.
Qed.

Lemma poll_blank ticks : forall t, blank (snd (poll ticks t)) = blank t.
Proof.
  induction ticks as [|tick later IH]; intros t; simpl; [reflexivity|].
  pose proof (selectCase_blank tick t) as H.
  destruct (selectCase tick t) as [[[]| | |] t']; simpl in *; auto.
  - now rewrite IH.
  - now rewrite IH.
Qed.

Lemma poll_keeps_resources ticks t :
  ReplaceResources (snd (poll ticks t)) = ReplaceResources t.
Proof.
  change (ReplaceResources (blank (snd (poll ticks t))) = ReplaceResources (blank t)).
  now rewrite poll_blank.
Qed.

Lemma poll_keeps_labels ticks t :
  RelatedPodLabels (snd (poll ticks t)) = RelatedPodLabels t.
Proof.
  change (RelatedPodLabels (blank (snd (poll ticks t))) = RelatedPodLabels (blank t)).
  now rewrite poll_blank.
Qed.

Lemma getResourcesPodOwnerUID_TaskTimeout c t :
  getResourcesPodOwnerUID sortSlice c (snd (TaskTimeout DeployTimeout t))
    = getResourcesPodOwnerUID sortSlice c t.
Proof. unfold TaskTimeout. destruct (Timeout t =? 0); reflexivity. Qed.

Lemma TaskTimeout_resources t :
  ReplaceResources (snd (TaskTimeout DeployTimeout t)) = ReplaceResources t.
Proof. unfold TaskTimeout. destruct (Timeout t =? 0); reflexivity. Qed.

Lemma Wait_stores_fingerprints w p resources :
  SkipWaiting (Task p) = false ->
  fst (getResourcesPodOwnerUID sortSlice (setup w) (Task p)) = Resolved resources None ->
  ReplaceResources (Task (snd (Wait sortSlice DeployTimeout w p))) = resources.
Proof.
  intros Hskip Hres. unfold Wait. rewrite Hskip.
  pose proof (getResourcesPodOwnerUID_TaskTimeout (setup w) (Task p)) as Ht.
  destruct (TaskTimeout DeployTimeout (Task p)) as [d t]. simpl in Ht.
  rewrite Ht, Hres.
  pose proof (poll_keeps_resources (ticks w) (with_ReplaceResources resources t)) as H.
  destruct (poll (ticks w) (with_ReplaceResources resources t)) as [o t'].
  exact H.
Qed.

Lemma Wait_keeps_order w p :
  Forall2 sameButUID (ReplaceResources (Task p))
    (ReplaceResources (Task (snd (Wait sortSlice DeployTimeout w p)))).
Proof.
  unfold Wait. destruct (SkipWaiting (Task p)); [apply Forall2_sameButUID_refl|].
  pose proof (getResourcesPodOwnerUID_TaskTimeout (setup w) (Task p)) as Ht.
  pose proof (TaskTimeout_resources (Task p)) as Hr.
  destruct (TaskTimeout DeployTimeout (Task p)) as [d t]. simpl in Ht, Hr.
  destruct (fst (getResourcesPodOwnerUID sortSlice (setup w) t)) as [rs [e|]|] eqn:Hg;
    simpl; try (rewrite Hr; apply Forall2_sameButUID_refl).
  pose proof (poll_keeps_resources (ticks w) (with_ReplaceResources rs t)) as H.
  destruct (poll (ticks w) (with_ReplaceResources rs t)) as [o t']. simpl in *.
  rewrite H. unfold getResourcesPodOwnerUID in Hg.
  apply ownerUIDLoop_spec in Hg as (enriched & -> & Hall). simpl.
  rewrite <- Hr. eapply List.Forall2_impl; [| exact Hall]. simpl. tauto.
Qed.

(** C6: when the fingerprinting of Wait succeeds, the list it stores is the
    recorded list in the same order, each resource unchanged but for its
    fingerprint: for a stateful set its own UID, for a deployment the UID of
    a replica set controlled by the deployment that no other such replica set
    is newer than, and for any other kind (the cron jobs) the fingerprint it
    had. The replica sets are listed once per deployment, each time right
    after a sleep of three seconds. Whatever Wait does, the list it leaves has
    the resources of the list it found, in order, differing at most in the
    fingerprints. *)
Theorem fingerprints_enrich_in_place w p resources :
  SkipWaiting (Task p) = false ->
  fst (getResourcesPodOwnerUID sortSlice (setup w) (Task p)) = Resolved resources None ->
  ReplaceResources (Task (snd (Wait sortSlice DeployTimeout w p))) = resources
  /\ Forall2 (fun r r' =>
                sameButUID r r'
                /\ fingerprintOf (setup w) (Namespace (Task p)) r (PodOwnerUID r'))
             (ReplaceResources (Task p)) resources
  /\ (exists selectors,
        snd (getResourcesPodOwnerUID sortSlice (setup w) (Task p))
          = flat_map (sleepThenList (Namespace (Task p))) selectors
        /\ List.length selectors
           = List.length
               (List.filter (fun r => String.eqb (Kind r) setting.Deployment)
                            (ReplaceResources (Task p))))
  /\ forall w' p',
       Forall2 sameButUID (ReplaceResources (Task p'))
         (ReplaceResources (Task (snd (Wait sortSlice DeployTimeout w' p')))).
Proof.
  intros Hskip Hres. split; [now apply Wait_stores_fingerprints|].
  split; [| split; [| intros; apply Wait_keeps_order]].
  - unfold getResourcesPodOwnerUID in Hres.
    apply ownerUIDLoop_spec in Hres as (enriched & -> & Hall). exact Hall.
  - unfold getResourcesPodOwnerUID in *.
    apply ownerUIDLoop_calls in Hres as (selectors & Hcalls & Hlen).
    exists selectors. split; [exact Hcalls | exact Hlen].
Qed.

End Fingerprints.

Lemma fingerprints_enrich_in_place_witness :
  let c := Scenario.rolling 3 [] in
  let w := {| setup := c; ticks := [Scenario.tick Default_ c] |} in
  let p := Scenario.pluginOn c Scenario.threeKinds in
  let resources :=
    [Scenario.deployResource "uid-rs-2"; Scenario.dbResource "uid-db";
     Scenario.cronResource] in
  ReplaceResources (Task (snd (Wait insertionSort 600 w p))) = resources
  /\ Forall2 (fun r r' =>
                sameButUID r r'
                /\ fingerprintOf (setup w) (Namespace (Task p)) r (PodOwnerUID r'))
             (ReplaceResources (Task p)) resources
  /\ (exists selectors,
        snd (getResourcesPodOwnerUID insertionSort (setup w) (Task p))
          = flat_map (sleepThenList (Namespace (Task p))) selectors
        /\ List.length selectors
           = List.length
               (List.filter (fun r => String.eqb (Kind r) setting.Deployment)
                            (ReplaceResources (Task p))))
  /\ forall w' p',
       Forall2 sameButUID (ReplaceResources (Task p'))
         (ReplaceResources (Task (snd (Wait insertionSort 600 w' p')))).
Proof.
  intros c w p resources.
  apply (fingerprints_enrich_in_place insertionSort 600
           (insertionSort_perm ReplicaSet newer) insertionSort_newestFirst
           w p resources).
  - reflexivity.
  - reflexivity.
Defined.

(** * Resolution: when the manifest fallback runs *)

(** C5: on the unknown-type path the manifest fallback is entered exactly
    when the three label-selector queries succeed and all four lists they
    return are empty, and then once; an error of a query ends the resolution
    with that error and without the fallback; and when the queries find a
    workload the lists are returned as they are, without the fallback. *)
Theorem fallback_only_on_empty_result env envName namespace productName serviceName
    kClient version :
  let selector := serviceSelector productName serviceName in
  let lessThan121 := VersionLessThan121 version in
  let result :=
    fetchRelatedWorkloads env envName namespace productName serviceName kClient version in
  let imported :=
    fetchWorkloadsForImportedService env envName namespace productName serviceName
      kClient version in
  let labelled3 :=
    [CallListDeployments namespace selector; CallListStatefulSets namespace selector;
     CallListCronJobs namespace selector] in
  (fallbackInvocations (snd result) = 1%nat <->
     ListDeployments kClient namespace selector = Ok []
     /\ ListStatefulSets kClient namespace selector = Ok []
     /\ ListCronJobs kClient namespace selector lessThan121 = Ok ([], []))
  /\ (fallbackInvocations (snd result) = 1%nat ->
        result = (fst imported, labelled3 ++ snd imported))
  /\ (fallbackInvocations (snd result) = 0%nat \/ fallbackInvocations (snd result) = 1%nat)
  /\ (forall e, ListDeployments kClient namespace selector = Err e ->
        result = (Err e, [CallListDeployments namespace selector]))
  /\ (forall ds e, ListDeployments kClient namespace selector = Ok ds ->
        ListStatefulSets kClient namespace selector = Err e ->
        result = (Err e, [CallListDeployments namespace selector;
                          CallListStatefulSets namespace selector]))
  /\ (forall ds ss e, ListDeployments kClient namespace selector = Ok ds ->
        ListStatefulSets kClient namespace selector = Ok ss ->
        ListCronJobs kClient namespace selector lessThan121 = Err e ->
        result = (Err e, labelled3))
  /\ (forall ds ss cs bs, ListDeployments kClient namespace selector = Ok ds ->
        ListStatefulSets kClient namespace selector = Ok ss ->
        ListCronJobs kClient namespace selector lessThan121 = Ok (cs, bs) ->
        ds <> [] \/ ss <> [] \/ cs <> [] \/ bs <> [] ->
        result = (Ok {| deployments := ds; statefulSets := ss; cronJobs := cs;
                        cronJobBetas := bs |}, labelled3)).
Proof.
  intros selector lessThan121 result imported labelled3.
  assert (Himp : fallbackInvocations (snd imported) = 1%nat).
  { subst imported. unfold fetchWorkloadsForImportedService.
    destruct (httpExportService env productName envName serviceName); reflexivity. }
  subst result. unfold fetchRelatedWorkloads.
  fold (serviceSelector productName serviceName). fold selector. fold lessThan121.
  fold imported.
  destruct (ListDeployments kClient namespace selector) as [ds|e1];
    [destruct (ListStatefulSets kClient namespace selector) as [ss|e2];
      [destruct (ListCronJobs kClient namespace selector lessThan121)
         as [[cs bs]|e3];
        [destruct ds as [|d ds]; [destruct ss as [|s ss];
          [destruct cs as [|cj cs]; [destruct bs as [|b bs]|]|]|]|]|]|].
  1:{ destruct imported as [r made] eqn:Hi. cbn in Himp. cbn.
      unfold fallbackInvocations in *. cbn. rewrite Himp.
      repeat split; intros; auto; try congruence.
      repeat match goal with
             | H : _ \/ _ |- _ => destruct H
             end; congruence. }
  all: cbn; repeat split; intros;
    repeat match goal with
           | H : _ /\ _ |- _ => destruct H
           end;
    try discriminate; try congruence; auto.
  all: subst labelled3 selector; cbn; congruence.
Qed.

(** * Run: no matching container *)

Lemma scanContainers_no_match kind segment update ns name cname containers labels f :
  Forall (fun c => String.eqb (c_Name c) cname = false) containers ->
  scanContainers kind segment update ns name cname containers labels f = (Norm tt, f).
Proof.
  unfold scanContainers.
  induction containers as [|c rest IH]; intros Hall; [reflexivity|].
  inversion Hall as [|? ? Hc Hrest]; subst.
  rewrite (forEach_next _ c rest f f); [now apply IH|].
  rewrite Hc. reflexivity.
Qed.

Lemma labelled_forEach_idle {S X} (body : X -> M S unit) (xs : list X) (s : S) :
  (forall x, In x xs -> body x s = (Norm tt, s)) ->
  labelled (forEach xs body) s = (Norm tt, s).
Proof.
  intros Hbody. unfold labelled.
  assert (H : forEach xs body s = (Norm tt, s)).
  { induction xs as [|x rest IH]; [reflexivity|].
    rewrite (forEach_next body x rest s s); [| apply Hbody; now left].
    apply IH. intros y Hy. apply Hbody. now right. }
  rewrite H. reflexivity.
Qed.

Lemma noMatch_parts cname w :
  noMatch cname w ->
  Forall (fun d => Forall (fun c => String.eqb (c_Name c) cname = false)
                     (d_Containers d)) (deployments w)
  /\ Forall (fun s => Forall (fun c => String.eqb (c_Name c) cname = false)
                        (s_Containers s)) (statefulSets w)
  /\ Forall (fun cj => Forall (fun c => String.eqb (c_Name c) cname = false)
                         (cj_Containers cj)) (cronJobs w)
  /\ Forall (fun cj => Forall (fun c => String.eqb (c_Name c) cname = false)
                         (cj_Containers cj)) (cronJobBetas w).
Proof.
  unfold noMatch, containersOf. rewrite !List.Forall_app, !List.Forall_flat_map. tauto.
Qed.

Lemma patchDiscovered_no_match cname w f :
  noMatch cname w -> patchDiscovered cname w f = (Norm tt, f).
Proof.
  intros H. apply noMatch_parts in H as (Hd & Hs & Hc & Hb).
  rewrite List.Forall_forall in Hd, Hs, Hc, Hb.
  unfold patchDiscovered, bind.
  rewrite labelled_forEach_idle
    by (intros x Hx; apply scanContainers_no_match, Hd, Hx).
  rewrite labelled_forEach_idle
    by (intros x Hx; apply scanContainers_no_match, Hs, Hx).
  rewrite labelled_forEach_idle
    by (intros x Hx; apply scanContainers_no_match, Hc, Hx).
  apply labelled_forEach_idle.
  intros x Hx. apply scanContainers_no_match, Hb, Hx.
Qed.

Lemma labelled_scan_no_match kind segment update ns name cname containers labels f :
  Forall (fun c => String.eqb (c_Name c) cname = false) containers ->
  labelled (scanContainers kind segment update ns name cname containers labels) f
    = (Norm tt, f).
Proof.
  intros H. unfold labelled. now rewrite scanContainers_no_match.
Qed.

Lemma resolveAndPatch_no_match env version serviceInfo f w :
  discovers env f version serviceInfo w ->
  noMatch (logicalContainerName (Task (plugin f))) w ->
  exists f', resolveAndPatch env version serviceInfo f = (Norm tt, f')
             /\ plugin f' = plugin f /\ replaced f' = replaced f.
Proof.
  intros Hd Hno. unfold resolveAndPatch, bind at 1, gets at 1. simpl.
  destruct Hd as [w Hk Hfetch|sts Hk Hget|d Hk Hget|cronJob cronJobBeta Hk Hget
                 |Hk Hs Hdp Hc];
    rewrite Hk; simpl.
  - destruct (fetchRelatedWorkloads _ _ _ _ _ _ _) as [found made].
    simpl in Hfetch. subst found.
    unfold bind, record, modify. simpl.
    rewrite patchDiscovered_no_match by exact Hno.
    eexists. split; [reflexivity|]. auto.
  - unfold patchKnown, bind at 1, gets at 1. simpl. rewrite Hget.
    unfold bind, assignErr, modify. simpl.
    apply noMatch_parts in Hno as (_ & Hs & _). inversion Hs; subst.
    rewrite labelled_scan_no_match by assumption.
    eexists. split; [reflexivity|]. auto.
  - unfold patchKnown, bind at 1, gets at 1. simpl. rewrite Hget.
    unfold bind, assignErr, modify. simpl.
    apply noMatch_parts in Hno as (Hd & _). inversion Hd; subst.
    rewrite labelled_scan_no_match by assumption.
    eexists. split; [reflexivity|]. auto.
  - unfold patchKnown, bind at 1, gets at 1. simpl. rewrite Hget.
    apply noMatch_parts in Hno as (_ & _ & Hc & Hb). simpl in Hc, Hb.
    unfold bind.
    destruct cronJob as [cj|]; destruct cronJobBeta as [cb|]; simpl in *;
      repeat match goal with
             | H : Forall _ (_ :: _) |- _ => inversion H; subst; clear H
             end;
      rewrite ?labelled_scan_no_match by assumption;
      (eexists; split; [reflexivity|]; auto).
  - unfold patchKnown, bind at 1, gets at 1. simpl. rewrite Hs, Hdp, Hc.
    eexists. split; [reflexivity|]. auto.
Qed.

(** * Run: a completed run recorded a resource or failed *)

Lemma patch_inLoop base kind segment update ns name cname container labels f :
  recordedSince base f ->
  sat (patch kind segment update ns name cname container labels) f (inLoop base).
Proof.
  intros (added & Hrr & Hrep).
  unfold sat, patch, bind, gets, record, assignErr, appendResource, appendLabels,
    setReplaced, onPlugin, modify, skip, ret, return_, break_, inLoop, recordedSince.
  simpl.
  destruct (update _ _ _ _ _) as [cause|]; simpl.
  - split; [exists added; auto | intros _; discriminate].
  - destruct labels; simpl;
      (split; [| intros H; discriminate H]);
      (eexists (added ++ [_]); split;
       [rewrite Hrr, <- app_assoc; reflexivity
       | intros _ H; destruct added; discriminate H]).
Qed.

Lemma scanContainers_inLoop base kind segment update ns name cname containers labels f :
  recordedSince base f ->
  sat (scanContainers kind segment update ns name cname containers labels) f
      (inLoop base).
Proof.
  unfold scanContainers.
  apply (sat_forEach containers _ (recordedSince base) (inLoop base)).
  - intros c s _ Hs. destruct (String.eqb (c_Name c) cname); simpl.
    + eapply sat_weaken; [| apply patch_inLoop, Hs].
      intros [[]| | |] s' H; simpl; auto. apply H.
    + exact Hs.
  - intros s Hs. split; [exact Hs | discriminate].
Qed.

Lemma labelled_atTop base (m : M RunFrame unit) f :
  sat m f (inLoop base) -> sat (labelled m) f (atTop base).
Proof.
  intros H. apply sat_labelled. eapply sat_weaken; [| exact H].
  intros [[]| | |] s' [H1 H2]; simpl; unfold atTop; auto.
Qed.

Lemma atTop_seq base (m k : M RunFrame unit) f :
  sat m f (atTop base) ->
  (forall f', recordedSince base f' -> sat k f' (atTop base)) ->
  sat (m ;; k) f (atTop base).
Proof.
  intros Hm Hk. apply sat_bind. eapply sat_weaken; [| exact Hm].
  intros [[]| | |] s' [H1 H2]; simpl; auto; split; auto.
Qed.

Lemma loop_atTop base {X} (xs : list X) (scan : X -> M RunFrame unit) f :
  (forall x s, recordedSince base s -> sat (scan x) s (inLoop base)) ->
  recordedSince base f ->
  sat (labelled (forEach xs scan)) f (atTop base).
Proof.
  intros Hscan Hf. apply labelled_atTop.
  apply (sat_forEach xs scan (recordedSince base) (inLoop base)); auto.
  - intros x s _ Hs. eapply sat_weaken; [| apply Hscan, Hs].
    intros [[]| | |] s' H; simpl; auto. apply H.
  - intros s Hs. split; [exact Hs | discriminate].
Qed.

Lemma patchDiscovered_atTop base cname w f :
  recordedSince base f -> sat (patchDiscovered cname w) f (atTop base).
Proof.
  intros Hf. unfold patchDiscovered.
  repeat (apply atTop_seq; [| clear f Hf; intros f Hf]);
    apply loop_atTop; auto; intros; now apply scanContainers_inLoop.
Qed.

Lemma recordedSince_frame base f f' :
  plugin f' = plugin f -> replaced f' = replaced f ->
  recordedSince base f -> recordedSince base f'.
Proof. unfold recordedSince. intros -> ->. auto. Qed.

Lemma patchKnown_atTop base workloadType cname version f :
  recordedSince base f -> sat (patchKnown workloadType cname version) f (atTop base).
Proof.
  intros Hf. unfold patchKnown. apply sat_bind. unfold sat at 1, gets. simpl.
  assert (Hret : forall e, sat (assignErr (Some e) ;; return_) f (atTop base)).
  { intros e. unfold sat, bind, assignErr, modify, return_, atTop. simpl.
    split; [exact Hf | intros H; discriminate H]. }
  assert (Hret2 : forall e,
            sat (assignErr None ;; assignErr (Some e) ;; return_) f (atTop base)).
  { intros e. unfold sat, bind, assignErr, modify, return_, atTop. simpl.
    split; [exact Hf | intros H; discriminate H]. }
  assert (Hscan : forall kind segment update ns name containers g,
            recordedSince base g ->
            sat (labelled (scanContainers kind segment update ns name cname
                             containers None)) g (atTop base)).
  { intros. apply labelled_atTop. now apply scanContainers_inLoop. }
  destruct (String.eqb workloadType setting.StatefulSet).
  { destruct (GetStatefulSet _ _ _); auto.
    apply atTop_seq; [| intros; now apply Hscan].
    unfold sat, assignErr, modify, atTop. simpl. auto. }
  destruct (String.eqb workloadType setting.Deployment).
  { destruct (GetDeployment _ _ _); auto.
    apply atTop_seq; [| intros; now apply Hscan].
    unfold sat, assignErr, modify, atTop. simpl. auto. }
  destruct (String.eqb workloadType setting.CronJob).
  { destruct (GetCronJob _ _ _ _) as [cronJob cronJobBeta| |e]; auto.
    apply atTop_seq.
    - destruct cronJob; [now apply Hscan|]. unfold sat, skip, ret, atTop. simpl. auto.
    - intros g Hg. destruct cronJobBeta; [now apply Hscan|].
      unfold sat, skip, ret, atTop. simpl. auto. }
  unfold sat, skip, ret, atTop. simpl. auto.
Qed.

Lemma resolveAndPatch_atTop base env version serviceInfo f :
  recordedSince base f ->
  sat (resolveAndPatch env version serviceInfo) f (atTop base).
Proof.
  intros Hf. unfold resolveAndPatch. apply sat_bind. unfold sat at 1, gets. simpl.
  destruct (String.eqb (WorkloadType serviceInfo) EmptyString).
  - destruct (fetchRelatedWorkloads _ _ _ _ _ _ _) as [[w|e] made].
    + apply atTop_seq.
      * unfold sat, record, modify, atTop. simpl. auto.
      * intros. now apply patchDiscovered_atTop.
    + unfold sat, bind, record, assignErr, modify, return_, atTop. simpl.
      split; [exact Hf | intros H; discriminate H].
  - now apply patchKnown_atTop.
Qed.

Lemma prepare_returns_error env payload f :
  sat (prepare env payload) f
    (fun c f' => match c with
                 | Return => err f' <> None
                 | Break => False
                 | _ => True
                 end).
Proof.
  unfold sat, prepare, connect, bind, gets, when, assignErr, onPlugin, modify,
    skip, ret, return_, panic.
  repeat (split_match; simpl in *; try discriminate; auto);
    repeat match goal with
           | H : (_, _) = (_, _) |- _ => inversion H; subst; clear H
           end; simpl; try discriminate; auto.
Qed.

Lemma Run_body_atTop env payload p :
  sat (Run_body env payload) (enterRun p)
    (fun c f =>
       recordedSince (ReplaceResources (Task p)) f
       /\ match c with
          | Norm _ => replaced f = true
          | Return => err f <> None
          | Break => False
          | Panic => True
          end).
Proof.
  set (base := ReplaceResources (Task p)).
  unfold Run_body. apply sat_bind.
  pose proof (prepare_returns_error env payload (enterRun p)) as Hc.
  pose proof (prepare_keeps_task env payload (enterRun p)) as Ht.
  pose proof (prepare_keeps_replaced env payload (enterRun p)) as Hr.
  unfold sat in Hc. unfold sat at 1.
  destruct (prepare env payload (enterRun p)) as [ctl f1]. simpl in *.
  assert (Hf1 : recordedSince base f1).
  { exists []. rewrite Ht, Hr. split; [now rewrite app_nil_r | discriminate]. }
  destruct ctl as [vs| | |]; auto.
  apply sat_bind. eapply sat_weaken; [| apply (resolveAndPatch_atTop base), Hf1].
  intros [[]| | |] f2 [Hf2 Hctl]; simpl; auto.
  unfold sat, requireReplaced, bind, gets, when, assignErr, modify, skip, ret, return_.
  simpl. destruct (replaced f2) eqn:Hrep; simpl; [auto|].
  split; [| discriminate].
  eapply recordedSince_frame; [| | exact Hf2]; auto.
Qed.

Lemma deferred_resources f :
  ReplaceResources (Task (deferred f)) = ReplaceResources (Task (plugin f)).
Proof. unfold deferred. destruct (err f); reflexivity. Qed.

Lemma Run_records_or_fails env payload p :
  fst (fst (Run env payload p)) = Completed ->
  exists added,
    ReplaceResources (Task (snd (fst (Run env payload p))))
      = ReplaceResources (Task p) ++ added
    /\ (added <> []
        \/ (added = []
            /\ TaskStatus (Task (snd (fst (Run env payload p)))) = StatusFailed)).
Proof.
  rewrite Run_unfold. simpl.
  pose proof (Run_body_atTop env payload p) as H. unfold sat in H.
  destruct (Run_body env payload (enterRun p)) as [ctl f]. simpl in *.
  destruct H as [(added & Hrr & Hrep) Hctl].
  intros Hdone. exists added. rewrite deferred_resources. split; [exact Hrr|].
  destruct ctl as [[]| | |]; try discriminate; try tauto.
  destruct added as [|r added]; [right | left; discriminate].
  split; [reflexivity|].
  destruct (err f) as [e|] eqn:He; [| tauto].
  now apply (deferred_sink f e).
Qed.

(** C4: when the workloads Run has found hold no container of the stripped
    logical name, Run fails with the error that the container is not found
    and appends nothing to ReplaceResources; and whenever Run completes, it
    has either appended at least one resource or has failed having appended
    none. *)
Theorem no_match_fails_and_records_nothing env payload p version serviceInfo f w :
  prepare env payload (enterRun p) = (Norm (version, serviceInfo), f) ->
  discovers env f version serviceInfo w ->
  noMatch (logicalContainerName (Task p)) w ->
  let ran := Run env payload p in
  (fst (fst ran) = Completed
   /\ TaskStatus (Task (snd (fst ran))) = StatusFailed
   /\ Error (Task (snd (fst ran))) = notFoundMessage (logicalContainerName (Task p))
   /\ ReplaceResources (Task (snd (fst ran))) = ReplaceResources (Task p))
  /\ (forall env' payload' q,
        fst (fst (Run env' payload' q)) = Completed ->
        exists added,
          ReplaceResources (Task (snd (fst (Run env' payload' q))))
            = ReplaceResources (Task q) ++ added
          /\ (added <> []
              \/ (added = []
                  /\ TaskStatus (Task (snd (fst (Run env' payload' q))))
                     = StatusFailed))).
Proof.
  intros Hprep Hd Hno ran. split; [| intros; now apply Run_records_or_fails].
  pose proof (prepare_keeps_task env payload (enterRun p)) as Ht.
  pose proof (prepare_keeps_replaced env payload (enterRun p)) as Hr.
  rewrite Hprep in Ht, Hr. simpl in Ht, Hr.
  rewrite <- Ht in Hno.
  destruct (resolveAndPatch_no_match env version serviceInfo f w Hd Hno)
    as (f' & Hrun & Hp & Hrep).
  subst ran. rewrite Run_unfold. unfold Run_body, bind. rewrite Hprep. simpl.
  rewrite Hrun. unfold requireReplaced, bind, gets, when, assignErr, modify, return_.
  simpl. rewrite Hrep, Hr. simpl. unfold deferred. simpl.
  rewrite Hp, Ht. auto.
Qed.

Lemma no_match_fails_and_records_nothing_witness :
  let env := Scenario.aslan setting.Deployment in
  let p := Scenario.pluginOn (Scenario.withDeployment 3) Scenario.webTask in
  let ran := Run env Scenario.localCluster p in
  (fst (fst ran) = Completed
   /\ TaskStatus (Task (snd (fst ran))) = StatusFailed
   /\ Error (Task (snd (fst ran))) = notFoundMessage (logicalContainerName (Task p))
   /\ ReplaceResources (Task (snd (fst ran))) = ReplaceResources (Task p))
  /\ (forall env' payload' q,
        fst (fst (Run env' payload' q)) = Completed ->
        exists added,
          ReplaceResources (Task (snd (fst (Run env' payload' q))))
            = ReplaceResources (Task q) ++ added
          /\ (added <> []
              \/ (added = []
                  /\ TaskStatus (Task (snd (fst (Run env' payload' q))))
                     = StatusFailed))).
Proof.
  intros env p.
  apply (no_match_fails_and_records_nothing env Scenario.localCluster p
           Scenario.version122 {| WorkloadType := setting.Deployment |}
           (snd (prepare env Scenario.localCluster (enterRun p)))
           {| deployments := [Scenario.myservice 3]; statefulSets := [];
              cronJobs := []; cronJobBetas := [] |}).
  - reflexivity.
  - apply discovers_deployment; reflexivity.
  - repeat constructor.
Defined.

(** * The known-type path and the pod scans *)

Lemma Run_known_keeps_labels env payload p version serviceInfo f :
  prepare env payload (enterRun p) = (Norm (version, serviceInfo), f) ->
  WorkloadType serviceInfo <> EmptyString ->
  RelatedPodLabels (Task (snd (fst (Run env payload p)))) = RelatedPodLabels (Task p).
Proof.
  intros Hprep Hk. apply String.eqb_neq in Hk.
  pose proof (prepare_keeps_task env payload (enterRun p)) as Ht.
  rewrite Hprep in Ht. simpl in Ht.
  rewrite Run_unfold. simpl. unfold Run_body, bind at 1. rewrite Hprep. simpl.
  assert (Hl : keeps (fun g => RelatedPodLabels (Task (plugin g)))
                 (resolveAndPatch env version serviceInfo ;; requireReplaced)).
  { apply keeps_bind.
    - unfold resolveAndPatch. apply keeps_bind; [intros ?; reflexivity | intros q].
      rewrite Hk. apply patchKnown_keeps_labels.
    - intros _. unfold requireReplaced. keeps_walk. }
  specialize (Hl f). simpl in Hl.
  transitivity (RelatedPodLabels (Task (plugin f))); [| now rewrite Ht].
  rewrite <- Hl. unfold deferred.
  destruct (err _); reflexivity.
Qed.

Lemma checkResource_no_labels c r f :
  RelatedPodLabels (task f) = [] ->
  match checkResource c r f with
  | (Norm _, f') | (Break, f') => task f' = task f
  | _ => False
  end.
Proof.
  intros Hl.
  pose proof (checkResource_status c r f) as H. unfold sat in H.
  destruct (checkResource c r f) as [[[]| | |] f']; simpl in H;
    destruct H as [[[H|H] Ht]|[H (e & Hw & _)]]; try discriminate; auto.
  rewrite Hl in Hw. discriminate Hw.
Qed.

Lemma scan_no_labels c t rs : forall f,
  task f = t -> RelatedPodLabels t = [] ->
  match forEach rs (checkResource c) f with
  | (Norm _, f') | (Break, f') => task f' = t
  | _ => False
  end.
Proof.
  induction rs as [|r rest IH]; intros f Hf Hl; simpl; [exact Hf|].
  unfold bind. pose proof (checkResource_no_labels c r f) as H.
  rewrite Hf in H. specialize (H Hl).
  destruct (checkResource c r f) as [[[]| | |] f1]; auto.
  apply IH; auto.
Qed.

Lemma onDefault_no_labels c t :
  RelatedPodLabels t = [] ->
  snd (onDefault c t) = t \/ snd (onDefault c t) = with_TaskStatus StatusPassed t.
Proof.
  intros Hl.
  pose proof (scan_no_labels c t (ReplaceResources t) (enterDefault t) eq_refl Hl) as H.
  unfold onDefault, defaultCase, bind, gets, labelled. simpl.
  fold (enterDefault t).
  destruct (forEach (ReplaceResources t) (checkResource c) (enterDefault t))
    as [[[]| | |] f1]; simpl; try contradiction;
    unfold when, setTask, modify, skip, ret, return_;
    destruct (ready f1); simpl;
    try (destruct (IsTaskDone (task f1)); simpl); rewrite ?H; auto.
Qed.

Lemma onTimeout_no_labels c t :
  RelatedPodLabels t = [] -> onTimeout c t = with_TaskStatus StatusTimeout t.
Proof. intros Hl. unfold onTimeout. simpl. rewrite Hl. reflexivity. Qed.

(** Without recorded pod labels a turn of the poll loop leaves the error
    text alone and does not end in Failed. *)
Lemma selectCase_no_labels tick t :
  RelatedPodLabels t = [] ->
  Error (snd (selectCase tick t)) = Error t
  /\ (TaskStatus (snd (selectCase tick t)) = StatusFailed -> TaskStatus t = StatusFailed).
Proof.
  intros Hl. unfold selectCase. destruct (chosen tick); simpl.
  - split; [reflexivity | discriminate].
  - rewrite (onTimeout_no_labels _ _ Hl). split; [reflexivity | discriminate].
  - destruct (onDefault_no_labels (answers tick) t Hl) as [-> | ->];
      split; auto; discriminate.
Qed.

Lemma poll_no_labels ticks : forall t,
  RelatedPodLabels t = [] ->
  Error (snd (poll ticks t)) = Error t
  /\ (TaskStatus (snd (poll ticks t)) = StatusFailed -> TaskStatus t = StatusFailed).
Proof.
  induction ticks as [|tick later IH]; intros t Hl; simpl; [auto|].
  pose proof (selectCase_no_labels tick t Hl) as [He Hs].
  pose proof (selectCase_blank tick t) as Hb.
  assert (Hl' : RelatedPodLabels (snd (selectCase tick t)) = []).
  { change (RelatedPodLabels (blank (snd (selectCase tick t))) = []).
    rewrite Hb. exact Hl. }
  destruct (selectCase tick t) as [[[]| | |] t']; simpl in *; auto;
    destruct (IH t' Hl') as [He' Hs']; split; [congruence | auto | congruence | auto].
Qed.

Lemma Wait_no_labels sortSlice DeployTimeout w p :
  RelatedPodLabels (Task p) = [] ->
  let waited := Task (snd (Wait sortSlice DeployTimeout w p)) in
  (Error waited = Error (Task p) \/ exists e, Error waited = ownerInfoError e)
  /\ (TaskStatus waited = StatusFailed -> TaskStatus (Task p) = StatusFailed).
Proof.
  intros Hl waited. subst waited. unfold Wait.
  destruct (SkipWaiting (Task p)); simpl; [split; [now left | discriminate]|].
  assert (Ht : exists d, TaskTimeout DeployTimeout (Task p) = (d, with_Timeout d (Task p))
                         \/ TaskTimeout DeployTimeout (Task p) = (d, Task p)).
  { unfold TaskTimeout. destruct (Timeout (Task p) =? 0); eauto. }
  destruct Ht as [d [-> | ->]];
    (destruct (fst (getResourcesPodOwnerUID _ _ _)) as [rs [e|]|]; simpl;
     [ split; [right; eauto | auto]
     | | split; [now left | auto] ]);
    match goal with
    | |- context [poll (ticks w) ?t0] =>
        pose proof (poll_no_labels (ticks w) t0 Hl) as [He Hs];
        destruct (poll (ticks w) t0) as [o t']; simpl in *
    end; split; auto.
Qed.

(** C10: a Run that takes the known-type path appends nothing to
    RelatedPodLabels. For a task that entered Run without recorded pod
    labels, the fast-fail scan of every tick and the diagnostic scan of the
    timeout case then run over no label set: the one finds no failure, the
    other no message, and the Wait that follows neither writes a pod-derived
    error text nor ends in Failed. *)
Theorem known_type_leaves_pod_scans_empty env payload p version serviceInfo f :
  prepare env payload (enterRun p) = (Norm (version, serviceInfo), f) ->
  WorkloadType serviceInfo <> EmptyString ->
  let p' := snd (fst (Run env payload p)) in
  RelatedPodLabels (Task p') = RelatedPodLabels (Task p)
  /\ (RelatedPodLabels (Task p) = [] ->
      (forall c uid,
         workLoadDeployStat c (Namespace (Task p')) (RelatedPodLabels (Task p')) uid
           = None)
      /\ (forall c msg,
            diagnose c (Namespace (Task p')) (RelatedPodLabels (Task p')) msg = Ok msg)
      /\ (forall sortSlice DeployTimeout w,
            let waited := Task (snd (Wait sortSlice DeployTimeout w p')) in
            (Error waited = Error (Task p')
             \/ exists e, Error waited = ownerInfoError e)
            /\ (TaskStatus waited = StatusFailed ->
                TaskStatus (Task p') = StatusFailed))).
Proof.
  intros Hprep Hk p'.
  pose proof (Run_known_keeps_labels env payload p version serviceInfo f Hprep Hk) as Hl.
  fold p' in Hl. split; [exact Hl|].
  intros Hempty. rewrite Hempty in Hl.
  split; [| split].
  - intros c uid. rewrite Hl. reflexivity.
  - intros c msg. rewrite Hl. reflexivity.
  - intros sortSlice DeployTimeout w. now apply Wait_no_labels.
Qed.

Lemma known_type_leaves_pod_scans_empty_witness :
  let env := Scenario.aslan setting.Deployment in
  let p := Scenario.pluginOn (Scenario.withDeployment 3) Scenario.deployTask in
  let p' := snd (fst (Run env Scenario.localCluster p)) in
  RelatedPodLabels (Task p) = []
  /\ RelatedPodLabels (Task p') = RelatedPodLabels (Task p)
  /\ (RelatedPodLabels (Task p) = [] ->
      (forall c uid,
         workLoadDeployStat c (Namespace (Task p')) (RelatedPodLabels (Task p')) uid
           = None)
      /\ (forall c msg,
            diagnose c (Namespace (Task p')) (RelatedPodLabels (Task p')) msg = Ok msg)
      /\ (forall sortSlice DeployTimeout w,
            let waited := Task (snd (Wait sortSlice DeployTimeout w p')) in
            (Error waited = Error (Task p')
             \/ exists e, Error waited = ownerInfoError e)
            /\ (TaskStatus waited = StatusFailed ->
                TaskStatus (Task p') = StatusFailed))).
Proof.
  intros env p. split; [reflexivity|].
  apply (known_type_leaves_pod_scans_empty env Scenario.localCluster p
           Scenario.version122 {| WorkloadType := setting.Deployment |}
           (snd (prepare env Scenario.localCluster (enterRun p)))).
  - reflexivity.
  - intros H. discriminate H.
Defined.

(** * Further properties of the file *)

(** ** The logical container name *)

Lemma length_append (s t : string) :
  String.length (s +:+ t) = (String.length s + String.length t)%nat.
Proof. induction s as [|c s IH]; simpl; [reflexivity | now rewrite IH]. Qed.

Lemma substring_all (t : string) : substring 0 (String.length t) t = t.
Proof. induction t as [|c t IH]; simpl; [reflexivity | now rewrite IH]. Qed.

Lemma substring_skip (s t : string) :
  substring (String.length s) (String.length t) (s +:+ t) = t.
Proof. induction s as [|c s IH]; simpl; [apply substring_all | exact IH]. Qed.

Lemma substring_take (s t : string) :
  substring 0 (String.length s) (s +:+ t) = s.
Proof.
  induction s as [|c s IH]; simpl; [now destruct t | now rewrite IH].
Qed.

Lemma TrimSuffix_append (s suffix : string) : TrimSuffix (s +:+ suffix) suffix = s.
Proof.
  unfold TrimSuffix, HasSuffix. rewrite length_append.
  replace (String.length s + String.length suffix - String.length suffix)%nat
    with (String.length s) by lia.
  rewrite substring_skip, String.eqb_refl, substring_take.
  replace (String.length suffix <=? String.length s + String.length suffix)%nat
    with true by (symmetry; apply Nat.leb_le; lia).
  reflexivity.
Qed.

(** X1: the container name Run looks for is the configured name with one
    trailing underscore-and-service-name removed; a configured name without
    that suffix is used as it is. *)
Theorem logicalContainerName_strips (t : Deploy) (name : string) :
  ContainerName t = name +:+ "_" +:+ ServiceName t ->
  logicalContainerName t = name
  /\ forall t',
       HasSuffix (ContainerName t') ("_" +:+ ServiceName t') = false ->
       logicalContainerName t' = ContainerName t'.
Proof.
  intros H. split.
  - unfold logicalContainerName. rewrite H. apply TrimSuffix_append.
  - intros t' H'. unfold logicalContainerName, TrimSuffix. now rewrite H'.
Qed.

Lemma logicalContainerName_strips_witness :
  logicalContainerName Scenario.deployTask = "api"
  /\ forall t',
       HasSuffix (ContainerName t') ("_" +:+ ServiceName t') = false ->
       logicalContainerName t' = ContainerName t'.
Proof.
  apply (logicalContainerName_strips Scenario.deployTask "api"). reflexivity.
Defined.

(** ** Accessors *)

(** X2: a task that IsTaskFailed reports as failed is one that IsTaskDone
    reports as done. *)
Theorem failed_task_is_done (t : Deploy) :
  IsTaskFailed t = true -> IsTaskDone t = true.
Proof. unfold IsTaskFailed, IsTaskDone. destruct (TaskStatus t); simpl; auto. Qed.

Lemma failed_task_is_done_witness : IsTaskDone Scenario.failedTask = true.
Proof. apply (failed_task_is_done Scenario.failedTask). reflexivity. Defined.

(** X3: TaskTimeout returns the timeout the task holds afterwards; it
    changes the task only in that field, and only when the timeout was zero;
    a second call returns the same value and changes nothing. *)
Theorem TaskTimeout_settles (DeployTimeout : Z) (t : Deploy) :
  let d := fst (TaskTimeout DeployTimeout t) in
  let t' := snd (TaskTimeout DeployTimeout t) in
  Timeout t' = d
  /\ t' = with_Timeout d t
  /\ d = (if Timeout t =? 0 then DeployTimeout else Timeout t)
  /\ TaskTimeout DeployTimeout t' = (d, t').
Proof.
  unfold TaskTimeout. destruct (Timeout t =? 0) eqn:Hz; simpl.
  - repeat split. destruct (DeployTimeout =? 0) eqn:Hd; [| reflexivity].
    apply Z.eqb_eq in Hd. rewrite Hd. reflexivity.
  - rewrite Hz. repeat split. destruct t; reflexivity.
Qed.

(** ** serviceDeployed *)

(** X4: serviceDeployed says no exactly for a service whose entry in the
    strategy map is the import strategy: a nil map says yes, setting the
    service's entry to the import strategy says no, entries of other services
    do not matter, and (the import strategy not being the empty string) a
    map without an entry for the service says yes. *)
Theorem serviceDeployed_by_entry (importStrategy : string)
    (m : gmap string string) (serviceName other value : string) :
  serviceDeployed importStrategy None serviceName = true
  /\ serviceDeployed importStrategy (Some (<[serviceName := importStrategy]> m))
       serviceName = false
  /\ (other <> serviceName ->
      serviceDeployed importStrategy (Some (<[other := value]> m)) serviceName
        = serviceDeployed importStrategy (Some m) serviceName)
  /\ (importStrategy <> EmptyString ->
      serviceDeployed importStrategy (Some (delete serviceName m)) serviceName = true
      /\ (forall strategy,
            m !! serviceName = Some strategy ->
            serviceDeployed importStrategy (Some m) serviceName
              = negb (String.eqb strategy importStrategy))).
Proof.
  unfold serviceDeployed. repeat split.
  - rewrite lookup_insert_eq. simpl. now rewrite String.eqb_refl.
  - intros Hne. now rewrite lookup_insert_ne.
  - rewrite lookup_delete_eq. simpl.
    destruct importStrategy; [congruence | reflexivity].
  - intros strategy ->. simpl. now destruct (String.eqb strategy importStrategy).
Qed.

(** ** Run: one container of one workload *)

Lemma patch_outcome kind segment update ns name cname container labels f :
  patch kind segment update ns name cname container labels f =
    let made := CallUpdateImage kind ns name cname (Image (Task (plugin f))) in
    match update (kubeClient (plugin f)) ns name cname (Image (Task (plugin f))) with
    | Some cause => (Return, rejected cause segment name container made f)
    | None => (Break, accepted (resourceFor kind name container) labels made f)
    end.
Proof.
  unfold patch, bind, gets, record, assignErr, appendResource, appendLabels,
    setReplaced, onPlugin, modify, skip, ret, return_, break_, rejected, accepted,
    recordPatch, resourceFor.
  simpl. destruct (update _ _ _ _ _); simpl; [reflexivity|].
  destruct labels; reflexivity.
Qed.

(** The loop over the containers stops at the first one of the logical
    name. *)
Lemma scanContainers_firstMatch kind segment update ns name cname containers labels f :
  scanContainers kind segment update ns name cname containers labels f =
    match firstMatch cname containers with
    | Some container => patch kind segment update ns name cname container labels f
    | None => (Norm tt, f)
    end.
Proof.
  unfold scanContainers, firstMatch.
  induction containers as [|c rest IH]; simpl; [reflexivity|].
  unfold bind. destruct (String.eqb (c_Name c) cname) eqn:Hc; simpl.
  - rewrite patch_outcome. simpl. destruct (update _ _ _ _ _); reflexivity.
  - exact IH.
Qed.

Lemma labelled_scan_outcome kind segment update ns name cname containers labels f :
  labelled (scanContainers kind segment update ns name cname containers labels) f =
    match firstMatch cname containers with
    | None => (Norm tt, f)
    | Some container =>
        let made := CallUpdateImage kind ns name cname (Image (Task (plugin f))) in
        match update (kubeClient (plugin f)) ns name cname (Image (Task (plugin f))) with
        | Some cause => (Return, rejected cause segment name container made f)
        | None => (Norm tt, accepted (resourceFor kind name container) labels made f)
        end
    end.
Proof.
  unfold labelled. rewrite scanContainers_firstMatch.
  destruct (firstMatch cname containers); [| reflexivity].
  rewrite patch_outcome. simpl. destruct (update _ _ _ _ _); reflexivity.
Qed.

Lemma prepare_keeps_calls env payload :
  keeps calls (prepare env payload).
Proof. unfold prepare, connect. keeps_walk. Qed.

(** What is known of the frame [prepare] hands on. *)
Lemma prepare_frame env payload p vs f :
  prepare env payload (enterRun p) = (Norm vs, f) ->
  Task (plugin f) = Task p /\ replaced f = false /\ calls f = [].
Proof.
  intros H.
  pose proof (prepare_keeps_task env payload (enterRun p)) as Ht.
  pose proof (prepare_keeps_replaced env payload (enterRun p)) as Hr.
  pose proof (prepare_keeps_calls env payload (enterRun p)) as Hc.
  rewrite H in Ht, Hr, Hc. auto.
Qed.

(** ** Run: failing before the resolution *)

(** X5: when Run returns before the workloads are resolved (no cluster
    connection, no server version, no product, product sleeping, no service
    template), it has made none of the logged calls, the task is Failed with
    the text of the error, and the two lists of the task are as they were. *)
Theorem Run_fails_before_any_call env payload p f :
  prepare env payload (enterRun p) = (Return, f) ->
  exists e,
    err f = Some e
    /\ fst (fst (Run env payload p)) = Completed
    /\ Task (snd (fst (Run env payload p))) = failedWith e (Task p)
    /\ snd (Run env payload p) = [].
Proof.
  intros H.
  pose proof (prepare_returns_error env payload (enterRun p)) as He.
  pose proof (prepare_keeps_task env payload (enterRun p)) as Ht.
  pose proof (prepare_keeps_calls env payload (enterRun p)) as Hc.
  unfold sat in He. rewrite H in He, Ht, Hc. simpl in *.
  destruct (err f) as [e|] eqn:Herr; [| tauto].
  exists e. split; [reflexivity|].
  rewrite Run_unfold. unfold Run_body, bind. rewrite H. simpl.
  unfold deferred. rewrite Herr. simpl. rewrite Ht, Hc. auto.
Qed.

Lemma Run_fails_before_any_call_witness :
  let env := Scenario.sleepy in
  let p := Scenario.pluginOn Scenario.quiet Scenario.deployTask in
  exists e,
    err (snd (prepare env Scenario.localCluster (enterRun p))) = Some e
    /\ fst (fst (Run env Scenario.localCluster p)) = Completed
    /\ Task (snd (fst (Run env Scenario.localCluster p))) = failedWith e (Task p)
    /\ snd (Run env Scenario.localCluster p) = [].
Proof.
  intros env p.
  apply (Run_fails_before_any_call env Scenario.localCluster p
           (snd (prepare env Scenario.localCluster (enterRun p)))).
  reflexivity.
Defined.

(** X6: on the local cluster, with a clientset that reports its version, a
    product that is sleeping makes Run fail with "product P/E is sleeping",
    whatever the service template and the cluster would have answered:
    nothing is resolved and nothing is patched. *)
Theorem Run_refuses_sleeping_product env payload p clientset version info :
  DeployClusterID payload = EmptyString ->
  ClientSet_ p = Some clientset ->
  ServerVersion clientset = Ok version ->
  GetProductInfo env (EnvName (Task p)) (ProductName (Task p)) = Ok info ->
  IsSleeping info = true ->
  Run env payload p =
    (Completed,
     with_Task
       (failedWith ("product " +:+ ProductName (Task p) +:+ "/" +:+ EnvName (Task p)
                      +:+ " is sleeping") (Task p)) p,
     []).
Proof.
  intros Hid Hcs Hv Hp Hs.
  unfold Run, Run_body, prepare, connect. rewrite Hid. simpl.
  unfold bind, gets, skip, ret. simpl. rewrite Hcs, Hv. simpl. rewrite Hp. simpl.
  rewrite Hs. reflexivity.
Qed.

Lemma Run_refuses_sleeping_product_witness :
  Run Scenario.sleepy Scenario.localCluster
      (Scenario.pluginOn Scenario.quiet Scenario.deployTask) =
    (Completed,
     with_Task (failedWith "product shop/dev is sleeping" Scenario.deployTask)
               (Scenario.pluginOn Scenario.quiet Scenario.deployTask),
     []).
Proof.
  apply (Run_refuses_sleeping_product Scenario.sleepy Scenario.localCluster
           (Scenario.pluginOn Scenario.quiet Scenario.deployTask)
           Scenario.clientset Scenario.version122 {| IsSleeping := true |});
    reflexivity.
Defined.

(** ** Run: the known-type path for a deployment *)

Lemma Run_known_deployment env payload p version serviceInfo f d :
  prepare env payload (enterRun p) = (Norm (version, serviceInfo), f) ->
  WorkloadType serviceInfo = setting.Deployment ->
  GetDeployment (kubeClient (plugin f)) (Namespace (Task p)) (ServiceName (Task p))
    = GetFound d ->
  Run_body env payload (enterRun p) =
    bind (labelled (scanContainers setting.Deployment "deployments"
                      UpdateDeploymentImage (d_Namespace d) (d_Name d)
                      (logicalContainerName (Task p)) (d_Containers d) None))
         (fun _ => requireReplaced)
         {| plugin := plugin f; err := None; replaced := false; calls := [] |}.
Proof.
  intros Hprep Hk Hget.
  destruct (prepare_frame env payload p _ f Hprep) as (Ht & Hr & Hc).
  unfold Run_body. unfold bind at 1. rewrite Hprep. simpl.
  unfold bind at 1. unfold resolveAndPatch. unfold bind at 1, gets at 1. simpl.
  rewrite Hk. simpl. unfold patchKnown. unfold bind at 1, gets at 1. simpl.
  rewrite Ht, Hget. unfold bind at 1, assignErr at 1, modify at 1. simpl.
  rewrite Hr, Hc. reflexivity.
Qed.

(** X7: on the known-type path for a deployment, Run patches the first
    container of the logical name and no other: when the patch is accepted,
    Run completes having made exactly that one update call, the task has
    gained exactly one resource, carrying the container's name and its image
    from before the patch, and nothing else of the task has changed. *)
Theorem Run_patches_first_container env payload p version serviceInfo f d container :
  prepare env payload (enterRun p) = (Norm (version, serviceInfo), f) ->
  WorkloadType serviceInfo = setting.Deployment ->
  GetDeployment (kubeClient (plugin f)) (Namespace (Task p)) (ServiceName (Task p))
    = GetFound d ->
  firstMatch (logicalContainerName (Task p)) (d_Containers d) = Some container ->
  UpdateDeploymentImage (kubeClient (plugin f)) (d_Namespace d) (d_Name d)
    (logicalContainerName (Task p)) (Image (Task p)) = None ->
  fst (fst (Run env payload p)) = Completed
  /\ Task (snd (fst (Run env payload p)))
     = with_ReplaceResources
         (ReplaceResources (Task p)
            ++ [resourceFor setting.Deployment (d_Name d) container])
         (Task p)
  /\ snd (Run env payload p)
     = [CallUpdateImage setting.Deployment (d_Namespace d) (d_Name d)
          (logicalContainerName (Task p)) (Image (Task p))]
  /\ c_Name container = logicalContainerName (Task p).
Proof.
  intros Hprep Hk Hget Hfind Hup.
  destruct (prepare_frame env payload p _ f Hprep) as (Ht & Hr & Hc).
  rewrite Run_unfold, (Run_known_deployment _ _ _ _ _ _ _ Hprep Hk Hget).
  unfold bind. rewrite labelled_scan_outcome, Hfind. simpl. rewrite Ht, Hup.
  simpl. unfold deferred. simpl. rewrite Ht.
  repeat split.
  apply List.find_some in Hfind as [_ Hname]. now apply String.eqb_eq.
Qed.

Lemma Run_patches_first_container_witness :
  let env := Scenario.aslan setting.Deployment in
  let p := Scenario.pluginOn (Scenario.withDeployment 3) Scenario.deployTask in
  fst (fst (Run env Scenario.localCluster p)) = Completed
  /\ Task (snd (fst (Run env Scenario.localCluster p)))
     = with_ReplaceResources
         (ReplaceResources (Task p)
            ++ [resourceFor setting.Deployment "myservice" Scenario.api])
         (Task p)
  /\ snd (Run env Scenario.localCluster p)
     = [CallUpdateImage setting.Deployment "dev" "myservice"
          (logicalContainerName (Task p)) (Image (Task p))]
  /\ c_Name Scenario.api = logicalContainerName (Task p).
Proof.
  intros env p.
  apply (Run_patches_first_container env Scenario.localCluster p
           Scenario.version122 {| WorkloadType := setting.Deployment |}
           (snd (prepare env Scenario.localCluster (enterRun p)))
           (Scenario.myservice 3) Scenario.api); reflexivity.
Defined.

(** X8: on the same path, when the cluster rejects the patch, Run fails
    with the cause wrapped in the place of the container (namespace,
    "deployments", deployment, container), after that one update call, and
    the lists of the task are as they were. *)
Theorem Run_reports_rejected_patch env payload p version serviceInfo f d container cause :
  prepare env payload (enterRun p) = (Norm (version, serviceInfo), f) ->
  WorkloadType serviceInfo = setting.Deployment ->
  GetDeployment (kubeClient (plugin f)) (Namespace (Task p)) (ServiceName (Task p))
    = GetFound d ->
  firstMatch (logicalContainerName (Task p)) (d_Containers d) = Some container ->
  UpdateDeploymentImage (kubeClient (plugin f)) (d_Namespace d) (d_Name d)
    (logicalContainerName (Task p)) (Image (Task p)) = Some cause ->
  fst (fst (Run env payload p)) = Completed
  /\ Task (snd (fst (Run env payload p)))
     = failedWith
         (WithMessage cause
            ("failed to update container image in " +:+ Namespace (Task p)
               +:+ "/deployments/" +:+ d_Name d +:+ "/" +:+ c_Name container))
         (Task p)
  /\ snd (Run env payload p)
     = [CallUpdateImage setting.Deployment (d_Namespace d) (d_Name d)
          (logicalContainerName (Task p)) (Image (Task p))].
Proof.
  intros Hprep Hk Hget Hfind Hup.
  destruct (prepare_frame env payload p _ f Hprep) as (Ht & Hr & Hc).
  rewrite Run_unfold, (Run_known_deployment _ _ _ _ _ _ _ Hprep Hk Hget).
  unfold bind. rewrite labelled_scan_outcome, Hfind. simpl. rewrite Ht, Hup.
  simpl. unfold deferred. simpl. rewrite Ht.
  repeat split.
Qed.

Lemma Run_reports_rejected_patch_witness :
  let env := Scenario.aslan setting.Deployment in
  let p := Scenario.pluginOn Scenario.readOnly Scenario.deployTask in
  fst (fst (Run env Scenario.localCluster p)) = Completed
  /\ Task (snd (fst (Run env Scenario.localCluster p)))
     = failedWith
         (WithMessage "forbidden"
            ("failed to update container image in " +:+ Namespace (Task p)
               +:+ "/deployments/" +:+ "myservice" +:+ "/" +:+ c_Name Scenario.api))
         (Task p)
  /\ snd (Run env Scenario.localCluster p)
     = [CallUpdateImage setting.Deployment "dev" "myservice"
          (logicalContainerName (Task p)) (Image (Task p))].
Proof.
  intros env p.
  apply (Run_reports_rejected_patch env Scenario.localCluster p
           Scenario.version122 {| WorkloadType := setting.Deployment |}
           (snd (prepare env Scenario.localCluster (enterRun p)))
           (Scenario.myservice 3) Scenario.api "forbidden"); reflexivity.
Defined.

(** ** Run: the loops of the unknown-type path *)

(** A loop over workloads stops at the first workload that has a container
    of the logical name. *)
Lemma workloadLoop_firstMatch {W} kind segment update
    (nsOf nameOf : W -> string) (containersOf : W -> list Container)
    (labelsOf : W -> option Labels) cname (ws : list W) f :
  labelled (forEach ws (fun w =>
      scanContainers kind segment update (nsOf w) (nameOf w) cname
        (containersOf w) (labelsOf w))) f =
    match List.find (fun w => hasMatch cname (containersOf w)) ws with
    | Some w =>
        labelled (scanContainers kind segment update (nsOf w) (nameOf w) cname
                    (containersOf w) (labelsOf w)) f
    | None => (Norm tt, f)
    end.
Proof.
  induction ws as [|w rest IH]; [reflexivity|].
  simpl List.find. unfold hasMatch at 1.
  destruct (firstMatch cname (containersOf w)) as [c|] eqn:Hm.
  - unfold labelled. simpl. unfold bind.
    rewrite scanContainers_firstMatch, Hm, patch_outcome. simpl.
    destruct (update _ _ _ _ _); reflexivity.
  - rewrite <- IH. unfold labelled. simpl. unfold bind.
    rewrite scanContainers_firstMatch, Hm. reflexivity.
Qed.

Lemma grownBy_0 b f f' :
  Task (plugin f') = Task (plugin f) -> grownBy 0 b f f'.
Proof.
  intros H. exists [], []. rewrite H, !app_nil_r.
  repeat split; auto. now destruct b.
Qed.

Lemma grownBy_more n m b f f' : (n <= m)%nat -> grownBy n b f f' -> grownBy m b f f'.
Proof.
  intros Hle (rs & ls & H1 & H2 & H3 & H4). exists rs, ls.
  repeat split; try tauto. lia.
Qed.

Lemma settingsOf_name t t' :
  settingsOf t' = settingsOf t -> logicalContainerName t' = logicalContainerName t.
Proof.
  unfold settingsOf, logicalContainerName. intros H. injection H. congruence.
Qed.

Lemma grownBy_trans n m b f f' f'' :
  grownBy n b f f' -> grownBy m b f' f'' -> grownBy (n + m) b f f''.
Proof.
  intros (rs & ls & H1 & H2 & H3 & H4 & H5 & H6 & H7)
         (rs' & ls' & H1' & H2' & H3' & H4' & H5' & H6' & H7').
  exists (rs ++ rs'), (ls ++ ls').
  rewrite H1', H1, H2', H2, <- !app_assoc, H6', H7'.
  repeat split; auto.
  - rewrite List.length_app. lia.
  - destruct b; [rewrite !List.length_app; lia | now subst].
  - apply List.Forall_app. split; [exact H5|].
    now rewrite (settingsOf_name _ _ H6) in H5'.
Qed.

Lemma scan_grows kind segment update ns name containers labels f :
  patchedKind kind ->
  grownBy 1 (match labels with Some _ => true | None => false end) f
    (snd (labelled (scanContainers kind segment update ns name
                      (logicalContainerName (Task (plugin f))) containers labels) f)).
Proof.
  intros Hkind. rewrite labelled_scan_outcome.
  destruct (firstMatch _ containers) as [c|] eqn:Hm; simpl.
  - destruct (update _ _ _ _ _); simpl.
    + apply (grownBy_more 0); [lia | now apply grownBy_0].
    + apply List.find_some in Hm as [_ Hname]. apply String.eqb_eq in Hname.
      destruct labels as [l|]; simpl.
      * exists [resourceFor kind name c], [l]. repeat split; auto.
        constructor; [| constructor]. repeat split; auto.
      * exists [resourceFor kind name c], []. rewrite app_nil_r.
        repeat split; auto.
        constructor; [| constructor]. repeat split; auto.
  - apply (grownBy_more 0); [lia | now apply grownBy_0].
Qed.

Lemma workloadLoop_grows {W} kind segment update
    (nsOf nameOf : W -> string) (containersOf : W -> list Container)
    (labelsOf : W -> Labels) (ws : list W) f :
  patchedKind kind ->
  grownBy 1 true f
    (snd (labelled (forEach ws (fun w =>
            scanContainers kind segment update (nsOf w) (nameOf w)
              (logicalContainerName (Task (plugin f)))
              (containersOf w) (Some (labelsOf w)))) f)).
Proof.
  intros Hkind.
  rewrite (workloadLoop_firstMatch kind segment update nsOf nameOf containersOf
             (fun w => Some (labelsOf w))).
  destruct (List.find _ ws) as [w|].
  - apply (scan_grows kind segment update (nsOf w) (nameOf w) (containersOf w)
             (Some (labelsOf w)) f Hkind).
  - apply (grownBy_more 0); [lia | now apply grownBy_0].
Qed.

Lemma grownBy_name n b f f' :
  grownBy n b f f' ->
  logicalContainerName (Task (plugin f')) = logicalContainerName (Task (plugin f)).
Proof.
  intros (rs & ls & _ & _ & _ & _ & _ & H & _). now apply settingsOf_name.
Qed.

Lemma grows_seq n m b cname (s k : M RunFrame unit) f :
  (forall g, logicalContainerName (Task (plugin g)) = cname ->
             grownBy n b g (snd (s g))) ->
  (forall g, logicalContainerName (Task (plugin g)) = cname ->
             grownBy m b g (snd (k g))) ->
  logicalContainerName (Task (plugin f)) = cname ->
  grownBy (n + m) b f (snd ((s ;; k) f)).
Proof.
  intros Hs Hk Hf. specialize (Hs f Hf). unfold bind.
  destruct (s f) as [[[]| | |] f1]; simpl in *;
    try (apply (grownBy_more n); [lia | exact Hs]).
  apply (grownBy_trans n m b f f1); [exact Hs|].
  apply Hk. rewrite <- Hf. now apply (grownBy_name n b).
Qed.

Lemma patchDiscovered_grows w f :
  grownBy 4 true f
    (snd (patchDiscovered (logicalContainerName (Task (plugin f))) w f)).
Proof.
  unfold patchDiscovered.
  change 4%nat with (1 + (1 + (1 + 1)))%nat.
  apply (grows_seq _ _ true (logicalContainerName (Task (plugin f))));
    [ | | reflexivity]; intros g <-.
  { apply workloadLoop_grows. left. reflexivity. }
  apply (grows_seq _ _ true (logicalContainerName (Task (plugin g))));
    [ | | reflexivity]; intros g1 <-.
  { apply workloadLoop_grows. right. left. reflexivity. }
  apply (grows_seq _ _ true (logicalContainerName (Task (plugin g1))));
    [ | | reflexivity]; intros g2 <-.
  - apply workloadLoop_grows. right. right. reflexivity.
  - apply workloadLoop_grows. right. right. reflexivity.
Qed.

Lemma assignErr_grows b e f : grownBy 0 b f (snd (assignErr e f)).
Proof. now apply grownBy_0. Qed.

Lemma patchKnown_grows workloadType version f :
  grownBy 2 false f
    (snd (patchKnown workloadType (logicalContainerName (Task (plugin f))) version f)).
Proof.
  unfold patchKnown. unfold bind at 1, gets at 1. simpl.
  assert (Hidle : forall m : M RunFrame unit,
            (forall g, Task (plugin (snd (m g))) = Task (plugin g)) ->
            grownBy 2 false f (snd (m f))).
  { intros m Hm. apply (grownBy_more 0); [lia | apply grownBy_0, Hm]. }
  assert (Hscan : forall kind segment update ns name containers g,
            patchedKind kind ->
            logicalContainerName (Task (plugin g))
              = logicalContainerName (Task (plugin f)) ->
            grownBy 1 false g
              (snd (labelled (scanContainers kind segment update ns name
                      (logicalContainerName (Task (plugin f))) containers None) g))).
  { intros kind segment update ns name containers g Hk <-.
    apply (scan_grows kind segment update ns name containers None g Hk). }
  destruct (String.eqb workloadType setting.StatefulSet).
  { destruct (GetStatefulSet _ _ _); try (apply Hidle; intros g; reflexivity).
    change 2%nat with (0 + (1 + 1))%nat.
    apply (grows_seq _ _ false (logicalContainerName (Task (plugin f))));
      [ intros; apply assignErr_grows | | reflexivity ].
    intros g Hg. apply (grownBy_more 1); [lia|].
    apply Hscan; [right; left; reflexivity | exact Hg]. }
  destruct (String.eqb workloadType setting.Deployment).
  { destruct (GetDeployment _ _ _); try (apply Hidle; intros g; reflexivity).
    change 2%nat with (0 + (1 + 1))%nat.
    apply (grows_seq _ _ false (logicalContainerName (Task (plugin f))));
      [ intros; apply assignErr_grows | | reflexivity ].
    intros g Hg. apply (grownBy_more 1); [lia|].
    apply Hscan; [left; reflexivity | exact Hg]. }
  destruct (String.eqb workloadType setting.CronJob).
  { destruct (GetCronJob _ _ _ _) as [cronJob cronJobBeta| |e];
      try (apply Hidle; intros g; reflexivity).
    change 2%nat with (1 + 1)%nat.
    apply (grows_seq _ _ false (logicalContainerName (Task (plugin f))));
      [ | | reflexivity ]; intros g Hg.
    - destruct cronJob; [| apply (grownBy_more 0); [lia | now apply grownBy_0]].
      apply Hscan; [right; right; reflexivity | exact Hg].
    - destruct cronJobBeta; [| apply (grownBy_more 0); [lia | now apply grownBy_0]].
      apply Hscan; [right; right; reflexivity | exact Hg]. }
  apply Hidle. intros g. reflexivity.
Qed.

Lemma resolveAndPatch_grows env version serviceInfo f :
  exists b, grownBy 4 b f (snd (resolveAndPatch env version serviceInfo f)).
Proof.
  unfold resolveAndPatch. unfold bind at 1, gets at 1. simpl.
  destruct (String.eqb (WorkloadType serviceInfo) EmptyString).
  - exists true.
    destruct (fetchRelatedWorkloads _ _ _ _ _ _ _) as [[w|e] made].
    + change 4%nat with (0 + 4)%nat.
      apply (grows_seq _ _ true (logicalContainerName (Task (plugin f))));
        [ intros; now apply grownBy_0 | | reflexivity ].
      intros g <-. apply patchDiscovered_grows.
    + apply (grownBy_more 0); [lia | now apply grownBy_0].
  - exists false. apply (grownBy_more 2); [lia | apply patchKnown_grows].
Qed.

Lemma Run_grows env payload p :
  exists (b : bool) rs ls,
    let t' := Task (snd (fst (Run env payload p))) in
    ReplaceResources t' = ReplaceResources (Task p) ++ rs
    /\ RelatedPodLabels t' = RelatedPodLabels (Task p) ++ ls
    /\ (List.length rs <= 4)%nat
    /\ (if b then List.length ls = List.length rs else ls = [])
    /\ Forall (fromRun (logicalContainerName (Task p))) rs
    /\ settingsOf t' = settingsOf (Task p)
    /\ Timeout t' = Timeout (Task p).
Proof.
  assert (H : exists b, grownBy 4 b (enterRun p)
                          (snd (Run_body env payload (enterRun p)))).
  { unfold Run_body. unfold bind at 1.
    pose proof (prepare_keeps_task env payload (enterRun p)) as Ht.
    destruct (prepare env payload (enterRun p)) as [[vs| | |] f1]; simpl in Ht;
      try (exists true; apply (grownBy_more 0); [lia | now apply grownBy_0]).
    destruct (resolveAndPatch_grows env (fst vs) (snd vs) f1) as [b Hb].
    exists b. unfold bind.
    destruct (resolveAndPatch env (fst vs) (snd vs) f1) as [[[]| | |] f2]; simpl in *.
    2,3,4: (change 4%nat with (0 + 4)%nat;
            apply (grownBy_trans 0 4 b _ f1); [now apply grownBy_0 | exact Hb]).
    change 4%nat with (0 + (4 + 0))%nat.
    apply (grownBy_trans 0 _ b _ f1); [now apply grownBy_0|].
    apply (grownBy_trans 4 0 b _ f2); [exact Hb|].
    apply grownBy_0. unfold requireReplaced, bind, gets, when. simpl.
    destruct (replaced f2); reflexivity. }
  destruct H as (b & rs & ls & H1 & H2 & H3 & H4 & H5 & H6 & H7).
  exists b, rs, ls. rewrite Run_unfold. simpl in *.
  assert (Hd : forall f, blank (Task (deferred f)) = blank (Task (plugin f))).
  { intros f. unfold deferred. destruct (err f); reflexivity. }
  specialize (Hd (snd (Run_body env payload (enterRun p)))).
  set (t' := Task (deferred (snd (Run_body env payload (enterRun p))))) in *.
  set (t0 := Task (plugin (snd (Run_body env payload (enterRun p))))) in *.
  change (ReplaceResources (blank t') = ReplaceResources (Task p) ++ rs
          /\ RelatedPodLabels (blank t') = RelatedPodLabels (Task p) ++ ls
          /\ (List.length rs <= 4)%nat
          /\ (if b then List.length ls = List.length rs else ls = [])
          /\ Forall (fromRun (logicalContainerName (Task p))) rs
          /\ settingsOf (blank t') = settingsOf (Task p)
          /\ Timeout (blank t') = Timeout (Task p)).
  rewrite Hd. simpl. auto 10.
Qed.

(** X9: whatever happens, Run only appends to the two lists of the task:
    at most four resources (one per loop over a kind of workload), and
    either no label set or as many label sets as resources; the settings of
    the task (names, namespace, image, timeout, flags, times) are as they
    were. *)
Theorem Run_only_appends env payload p :
  let t' := Task (snd (fst (Run env payload p))) in
  exists rs ls,
    ReplaceResources t' = ReplaceResources (Task p) ++ rs
    /\ RelatedPodLabels t' = RelatedPodLabels (Task p) ++ ls
    /\ (List.length rs <= 4)%nat
    /\ (ls = [] \/ List.length ls = List.length rs)
    /\ settingsOf t' = settingsOf (Task p)
    /\ Timeout t' = Timeout (Task p).
Proof.
  destruct (Run_grows env payload p) as (b & rs & ls & H1 & H2 & H3 & H4 & _ & H6 & H7).
  exists rs, ls. repeat split; auto. destruct b; auto.
Qed.

(** X10: every resource Run appends names the logical container, is of
    kind Deployment, StatefulSet or CronJob, and has no fingerprint yet. *)
Theorem Run_records_resources_of_three_kinds env payload p :
  exists rs,
    ReplaceResources (Task (snd (fst (Run env payload p))))
      = ReplaceResources (Task p) ++ rs
    /\ Forall (fromRun (logicalContainerName (Task p))) rs.
Proof.
  destruct (Run_grows env payload p) as (b & rs & ls & H1 & _ & _ & _ & H5 & _).
  exists rs. auto.
Qed.

(** ** Run: the unknown-type path when every patch is accepted *)

Lemma bind_norm {S A B} (m : M S A) (k : A -> M S B) s a s' :
  m s = (Norm a, s') -> bind m k s = k a s'.
Proof. intros H. unfold bind. now rewrite H. Qed.

Lemma recordAll_app a b t : recordAll (a ++ b) t = recordAll b (recordAll a t).
Proof. unfold recordAll. simpl. now rewrite !List.map_app, !app_assoc. Qed.

Lemma recordAll_nil t : recordAll [] t = t.
Proof. unfold recordAll. destruct t; simpl. now rewrite !app_nil_r. Qed.

Lemma stepped_nil f f' :
  plugin f' = plugin f -> replaced f' = replaced f -> err f' = err f ->
  calls f' = calls f ->
  stepped [] [] f f'.
Proof.
  intros Hp Hr He Hc. unfold stepped. rewrite recordAll_nil, Hp, Hr, He, Hc. simpl.
  rewrite orb_false_r, app_nil_r. auto.
Qed.

Lemma stepped_trans a b ma mb f f1 f2 :
  stepped a ma f f1 -> stepped b mb f1 f2 -> stepped (a ++ b) (ma ++ mb) f f2.
Proof.
  intros (Ht & Hk & Hr & He & Hc) (Ht' & Hk' & Hr' & He' & Hc').
  unfold stepped. rewrite recordAll_app, Ht', Ht, Hk', Hk, Hr', Hr, Hc', Hc.
  repeat split; auto.
  - rewrite List.length_app.
    destruct a, b; simpl; rewrite ?orb_true_r, ?orb_false_r; auto.
  - now rewrite app_assoc.
Qed.

Lemma stepped_image picks made f f' :
  stepped picks made f f' -> Image (Task (plugin f')) = Image (Task (plugin f)).
Proof. intros (Ht & _). rewrite Ht. reflexivity. Qed.

Lemma loop_accepting {W} kind segment update (nsOf nameOf : W -> string)
    (containersOf : W -> list Container) (labelsOf : W -> Labels) cname
    (ws : list W) f :
  (forall ns name container image,
     update (kubeClient (plugin f)) ns name container image = None) ->
  exists f',
    labelled (forEach ws (fun w =>
        scanContainers kind segment update (nsOf w) (nameOf w) cname
          (containersOf w) (Some (labelsOf w)))) f = (Norm tt, f')
    /\ stepped (pick kind nameOf containersOf labelsOf cname ws)
               (patchCall kind nsOf nameOf containersOf cname
                          (Image (Task (plugin f))) ws) f f'.
Proof.
  intros Hup.
  rewrite (workloadLoop_firstMatch kind segment update nsOf nameOf containersOf
             (fun w => Some (labelsOf w))).
  unfold pick, patchCall.
  destruct (List.find _ ws) as [w|] eqn:Hfind.
  - rewrite labelled_scan_outcome.
    destruct (firstMatch cname (containersOf w)) as [c|] eqn:Hm.
    + simpl. rewrite Hup. eexists. split; [reflexivity|].
      unfold stepped, accepted, recordAll, recordPatch. simpl.
      rewrite orb_true_r. auto.
    + apply List.find_some in Hfind as [_ Hhas]. unfold hasMatch in Hhas.
      rewrite Hm in Hhas. discriminate.
  - exists f. split; [reflexivity | now apply stepped_nil].
Qed.

Lemma patchDiscovered_accepting cname w f :
  accepting (kubeClient (plugin f)) ->
  exists f', patchDiscovered cname w f = (Norm tt, f')
             /\ stepped (picked cname w)
                        (pickedCalls cname (Image (Task (plugin f))) w) f f'.
Proof.
  intros (Hd & Hs & Hc). unfold patchDiscovered, picked, pickedCalls.
  destruct (loop_accepting setting.Deployment "deployments" UpdateDeploymentImage
              d_Namespace d_Name d_Containers d_TemplateLabels cname
              (deployments w) f Hd) as (f1 & E1 & S1).
  pose proof S1 as (_ & K1 & _). pose proof (stepped_image _ _ _ _ S1) as I1.
  destruct (loop_accepting setting.StatefulSet "statefulsets" UpdateStatefulSetImage
              s_Namespace s_Name s_Containers s_TemplateLabels cname
              (statefulSets w) f1) as (f2 & E2 & S2).
  { rewrite K1. exact Hs. }
  pose proof S2 as (_ & K2 & _). pose proof (stepped_image _ _ _ _ S2) as I2.
  assert (Hc2 : forall c', c' = kubeClient (plugin f) ->
            forall ns name container image, updateCron c' ns name container image = None).
  { intros c' ->. intros. apply Hc. }
  destruct (loop_accepting setting.CronJob "statefulsets" updateCron
              cj_Namespace cj_Name cj_Containers cj_TemplateLabels cname
              (cronJobs w) f2) as (f3 & E3 & S3).
  { apply Hc2. now rewrite K2, K1. }
  pose proof S3 as (_ & K3 & _). pose proof (stepped_image _ _ _ _ S3) as I3.
  destruct (loop_accepting setting.CronJob "statefulsets" updateCron
              cj_Namespace cj_Name cj_Containers cj_TemplateLabels cname
              (cronJobBetas w) f3) as (f4 & E4 & S4).
  { apply Hc2. now rewrite K3, K2, K1. }
  rewrite I3, I2, I1 in S4. rewrite I2, I1 in S3. rewrite I1 in S2.
  exists f4. split.
  - rewrite (bind_norm _ _ _ _ _ E1), (bind_norm _ _ _ _ _ E2),
      (bind_norm _ _ _ _ _ E3). exact E4.
  - apply (stepped_trans _ _ _ _ f f1); [exact S1|].
    apply (stepped_trans _ _ _ _ f1 f2); [exact S2|].
    apply (stepped_trans _ _ _ _ f2 f3); [exact S3 | exact S4].
Qed.

Lemma prepare_clears_error env payload f :
  sat (prepare env payload) f
    (fun c f' => match c with
                 | Norm _ => err f' = None
                 | _ => True
                 end).
Proof.
  unfold sat, prepare, connect, bind, gets, when, assignErr, onPlugin, modify,
    skip, ret, return_, panic.
  repeat (split_match; simpl in *; try discriminate; auto);
    repeat match goal with
           | H : (_, _) = (_, _) |- _ => inversion H; subst; clear H
           end; simpl; try discriminate; auto.
Qed.

Lemma patchCall_pick {W} kind (nsOf nameOf : W -> string) containersOf labelsOf cname
    image (ws : list W) :
  List.length (patchCall kind nsOf nameOf containersOf cname image ws)
    = List.length (pick kind nameOf containersOf labelsOf cname ws).
Proof.
  unfold patchCall, pick. destruct (List.find _ ws) as [w|] eqn:Hfind; [| reflexivity].
  apply List.find_some in Hfind as [_ Hhas]. unfold hasMatch in Hhas.
  destruct (firstMatch cname (containersOf w)); [reflexivity | discriminate].
Qed.

Lemma pick_short {W} kind (nameOf : W -> string) containersOf labelsOf cname (ws : list W) :
  (List.length (pick kind nameOf containersOf labelsOf cname ws) <= 1)%nat.
Proof.
  unfold pick. destruct (List.find _ ws) as [w|]; simpl; [| lia].
  destruct (firstMatch cname (containersOf w)); simpl; lia.
Qed.

(** X11: on the unknown-type path, when the cluster accepts every patch,
    Run patches in each of the four lists of workloads the first workload
    that has a container of the logical name, and in it the first such
    container; it records one resource and one label set for each, in the
    order deployments, stateful sets, cron jobs, beta cron jobs. The calls
    Run makes are those of the resolution followed by exactly one update
    call for each of these workloads, in the same order, and no other: a
    workload behind the first match of its list is not patched. When no
    list has such a workload the task fails with the not-found message and
    no update call is made. *)
Theorem Run_patches_one_workload_per_list env payload p version serviceInfo f w :
  prepare env payload (enterRun p) = (Norm (version, serviceInfo), f) ->
  WorkloadType serviceInfo = EmptyString ->
  fst (fetchRelatedWorkloads env (EnvName (Task p)) (Namespace (Task p))
         (ProductName (Task p)) (ServiceName (Task p)) (kubeClient (plugin f))
         version) = Ok w ->
  accepting (kubeClient (plugin f)) ->
  let picks := picked (logicalContainerName (Task p)) w in
  let updates := pickedCalls (logicalContainerName (Task p)) (Image (Task p)) w in
  fst (fst (Run env payload p)) = Completed
  /\ Task (snd (fst (Run env payload p)))
     = match picks with
       | [] => failedWith (notFoundMessage (logicalContainerName (Task p))) (Task p)
       | _ => recordAll picks (Task p)
       end
  /\ (List.length picks <= 4)%nat
  /\ snd (Run env payload p)
     = snd (fetchRelatedWorkloads env (EnvName (Task p)) (Namespace (Task p))
              (ProductName (Task p)) (ServiceName (Task p)) (kubeClient (plugin f))
              version)
       ++ updates
  /\ List.length updates = List.length picks.
Proof.
  intros Hprep Hk Hfetch Hacc picks updates.
  destruct (prepare_frame env payload p _ f Hprep) as (Ht & Hr & Hc).
  pose proof (prepare_clears_error env payload (enterRun p)) as He.
  unfold sat in He. rewrite Hprep in He. simpl in He.
  assert (Hlen : (List.length picks <= 4)%nat).
  { unfold picks, picked. rewrite !List.length_app.
    pose proof (pick_short setting.Deployment d_Name d_Containers d_TemplateLabels
                  (logicalContainerName (Task p)) (deployments w)).
    pose proof (pick_short setting.StatefulSet s_Name s_Containers s_TemplateLabels
                  (logicalContainerName (Task p)) (statefulSets w)).
    pose proof (pick_short setting.CronJob cj_Name cj_Containers cj_TemplateLabels
                  (logicalContainerName (Task p)) (cronJobs w)).
    pose proof (pick_short setting.CronJob cj_Name cj_Containers cj_TemplateLabels
                  (logicalContainerName (Task p)) (cronJobBetas w)).
    lia. }
  assert (Hsame : List.length updates = List.length picks).
  { unfold updates, pickedCalls, picks, picked. rewrite !List.length_app.
    rewrite (patchCall_pick _ d_Namespace d_Name d_Containers d_TemplateLabels),
      (patchCall_pick _ s_Namespace s_Name s_Containers s_TemplateLabels),
      !(patchCall_pick _ cj_Namespace cj_Name cj_Containers cj_TemplateLabels).
    reflexivity. }
  assert (Hfp : fetchRelatedWorkloads env (EnvName (Task p)) (Namespace (Task p))
                  (ProductName (Task p)) (ServiceName (Task p)) (kubeClient (plugin f))
                  version
                = fetchRelatedWorkloads env (EnvName (Task (plugin f)))
                    (Namespace (Task (plugin f))) (ProductName (Task (plugin f)))
                    (ServiceName (Task (plugin f))) (kubeClient (plugin f)) version)
    by now rewrite Ht.
  rewrite Hfp in Hfetch. rewrite Hfp. clear Hfp.
  destruct (fetchRelatedWorkloads env (EnvName (Task (plugin f)))
              (Namespace (Task (plugin f))) (ProductName (Task (plugin f)))
              (ServiceName (Task (plugin f))) (kubeClient (plugin f)) version)
    as [found made] eqn:Hf.
  simpl in Hfetch. subst found. cbn [snd].
  set (f0 := {| plugin := plugin f; err := err f; replaced := replaced f;
                calls := calls f ++ made |}).
  destruct (patchDiscovered_accepting (logicalContainerName (Task (plugin f))) w f0 Hacc)
    as (f' & Hrun & Hs & _ & Hrep & Herr & Hcalls).
  simpl in Hs, Hrep, Herr, Hcalls.
  rewrite Ht in Hrun, Hs, Hrep, Hcalls. fold picks in Hs, Hrep. fold updates in Hcalls.
  specialize (Herr He). rewrite Hr in Hrep. simpl in Hrep.
  rewrite Hc in Hcalls. simpl in Hcalls.
  assert (Hres : resolveAndPatch env version serviceInfo f = (Norm tt, f')).
  { unfold resolveAndPatch. unfold bind at 1, gets at 1. simpl.
    rewrite Hk, Hf. simpl. unfold bind at 1, record at 1, modify at 1.
    fold f0. rewrite Ht. exact Hrun. }
  rewrite Run_unfold. unfold Run_body. rewrite (bind_norm _ _ _ _ _ Hprep).
  cbn [fst snd]. rewrite (bind_norm _ _ _ _ _ Hres).
  unfold requireReplaced, bind, gets, when, assignErr, modify, return_, skip, ret.
  simpl. rewrite Hrep.
  destruct picks as [|pk more] eqn:Hp; simpl.
  - unfold deferred. simpl. rewrite Hs, recordAll_nil, Hcalls. auto.
  - unfold deferred. rewrite Herr, Hs, Hcalls. auto.
Qed.

Lemma Run_patches_one_workload_per_list_witness :
  let env := Scenario.aslan EmptyString in
  let c := Scenario.rolling 3 [] in
  let p := Scenario.pluginOn c Scenario.deployTask in
  let picks :=
    [(Scenario.deployResource EmptyString, Scenario.appLabels);
     (Scenario.dbResource EmptyString, Scenario.appLabels)] in
  let updates :=
    [CallUpdateImage setting.Deployment "dev" "myservice" "api" "repo/app:2.0";
     CallUpdateImage setting.StatefulSet "dev" "db" "api" "repo/app:2.0"] in
  fst (fst (Run env Scenario.localCluster p)) = Completed
  /\ Task (snd (fst (Run env Scenario.localCluster p))) = recordAll picks (Task p)
  /\ (List.length picks <= 4)%nat
  /\ snd (Run env Scenario.localCluster p)
     = snd (fetchRelatedWorkloads env "dev" "dev" "shop" "myservice" c
              Scenario.version122)
       ++ updates
  /\ List.length updates = List.length picks.
Proof.
  intros env c p picks updates.
  apply (Run_patches_one_workload_per_list env Scenario.localCluster p
           Scenario.version122 {| WorkloadType := EmptyString |}
           (snd (prepare env Scenario.localCluster (enterRun p)))
           {| deployments := [Scenario.myservice 3];
              statefulSets := [Scenario.db 3]; cronJobs := []; cronJobBetas := [] |});
    try reflexivity.
  repeat split.
Defined.

(** ** Wait: the default case, tick by tick *)

Lemma scan_all_pass c t rs :
  Forall (passes c t) rs ->
  forEach rs (checkResource c) (enterDefault t) = (Norm tt, enterDefault t).
Proof.
  induction 1 as [|r rest [Hscan Hset] _ IH]; [reflexivity|].
  rewrite (forEach_next _ _ _ _ _ (checkResource_passes c r t Hscan Hset)).
  exact IH.
Qed.

Lemma checkResource_breaks c r t :
  workLoadDeployStat c (Namespace t) (RelatedPodLabels t) (PodOwnerUID r) = None ->
  settled c (Namespace t) r = false ->
  exists e, checkResource c r (enterDefault t)
            = (Break, {| task := t; ready := false; werr := e |}).
Proof.
  intros Hscan Hset. unfold settled in Hset.
  unfold checkResource, enterDefault, bind, gets, when, setTask, setReady, setWerr,
    modify, skip, ret, return_, break_.
  simpl. rewrite Hscan.
  destruct (String.eqb (Kind r) setting.Deployment).
  - destruct (GetDeployment c (Namespace t) (Name r)) as [d|ptr|e]; simpl;
      try (eexists; reflexivity).
    rewrite Hset. simpl. eexists; reflexivity.
  - destruct (String.eqb (Kind r) setting.StatefulSet); [| discriminate].
    destruct (GetStatefulSet c (Namespace t) (Name r)) as [sts|ptr|e]; simpl;
      try (eexists; reflexivity).
    rewrite Hset. simpl. eexists; reflexivity.
Qed.

Lemma scan_breaks c t before r after :
  Forall (passes c t) before ->
  workLoadDeployStat c (Namespace t) (RelatedPodLabels t) (PodOwnerUID r) = None ->
  settled c (Namespace t) r = false ->
  exists e, forEach (before ++ r :: after) (checkResource c) (enterDefault t)
            = (Break, {| task := t; ready := false; werr := e |}).
Proof.
  intros Hb Hscan Hset.
  destruct (checkResource_breaks c r t Hscan Hset) as [e He]. exists e.
  induction Hb as [|r' rest [Hscan' Hset'] _ IH]; simpl.
  - unfold bind. rewrite He. reflexivity.
  - change (forEach (r' :: rest ++ r :: after) (checkResource c) (enterDefault t)
            = (Break, {| task := t; ready := false; werr := e |})).
    rewrite (forEach_next _ _ _ _ _ (checkResource_passes c r' t Hscan' Hset')).
    exact IH.
Qed.

(** X12: on a default tick on which every tracked resource gets past the
    pod scan and has its workload ready, among them every resource that is
    neither a deployment nor a stateful set, the task is marked Passed and
    Wait returns; the error text of the task is left as it was. A task
    without resources passes on the first such tick. *)
Theorem default_tick_passes c t :
  Forall (passes c t) (ReplaceResources t) ->
  selectCase {| chosen := Default_; answers := c |} t
    = (Return, with_TaskStatus StatusPassed t).
Proof.
  intros H. unfold selectCase. cbn [chosen answers]. unfold onDefault, defaultCase.
  change {| task := t; ready := true; werr := None |} with (enterDefault t).
  unfold bind at 1, gets at 1. simpl. unfold bind at 1, labelled.
  rewrite (scan_all_pass c t _ H). reflexivity.
Qed.

Lemma default_tick_passes_witness :
  let c := Scenario.rolling 3 [Scenario.pendingPod] in
  let t := Scenario.tracking [Scenario.deployResource "uid-rs-2";
                              Scenario.dbResource "uid-db"; Scenario.cronResource] in
  selectCase {| chosen := Default_; answers := c |} t
    = (Return, with_TaskStatus StatusPassed t).
Proof.
  intros c t. apply (default_tick_passes c t).
  repeat constructor.
Defined.

(** X13: on a default tick, when the first tracked resource that does not
    have its workload ready (not fetched, not found, or not rolled out) is
    reached without a hit of the pod scan, nothing is written to the task:
    an error of the fetch is dropped, the resources behind it are not looked
    at, and the loop goes on to the next tick unless the task was done
    before. *)
Theorem default_tick_waits c t before r after :
  ReplaceResources t = before ++ r :: after ->
  Forall (passes c t) before ->
  workLoadDeployStat c (Namespace t) (RelatedPodLabels t) (PodOwnerUID r) = None ->
  settled c (Namespace t) r = false ->
  selectCase {| chosen := Default_; answers := c |} t
    = (if IsTaskDone t then Return else Norm tt, t).
Proof.
  intros Hrs Hb Hscan Hset. unfold selectCase. cbn [chosen answers].
  unfold onDefault, defaultCase.
  change {| task := t; ready := true; werr := None |} with (enterDefault t).
  unfold bind at 1, gets at 1. simpl. unfold bind at 1, labelled.
  rewrite Hrs. destruct (scan_breaks c t before r after Hb Hscan Hset) as [e ->].
  unfold bind, gets, when, skip, ret, return_. simpl.
  destruct (IsTaskDone t); reflexivity.
Qed.

Lemma default_tick_waits_witness :
  let c := Scenario.unreachable in
  let t := Scenario.tracking [Scenario.cronResource; Scenario.dbResource "uid-db";
                              Scenario.deployResource "uid-rs-2"] in
  selectCase {| chosen := Default_; answers := c |} t = (Norm tt, t).
Proof.
  intros c t.
  apply (default_tick_waits c t [Scenario.cronResource] (Scenario.dbResource "uid-db")
           [Scenario.deployResource "uid-rs-2"]); try reflexivity.
  repeat constructor.
Defined.

Lemma selectCase_leaves tick t :
  match fst (selectCase tick t) with
  | Return => IsTaskDone (snd (selectCase tick t)) = true
  | Norm _ => snd (selectCase tick t) = t
  | _ => False
  end.
Proof.
  unfold selectCase. destruct (chosen tick); cbn [fst snd]; try reflexivity.
  - unfold IsTaskDone. rewrite onTimeout_status. reflexivity.
  - destruct (onDefault (answers tick) t) as [ctl t'] eqn:E. cbn [fst snd].
    unfold onDefault, defaultCase in E.
    change {| task := t; ready := true; werr := None |} with (enterDefault t) in E.
    pose proof (scan_outcomes (answers tick) t (ReplaceResources t) (enterDefault t)
                  eq_refl) as H.
    unfold bind, gets, labelled, when, setTask, modify, skip, ret, return_ in E.
    simpl in E.
    destruct (forEach (ReplaceResources t) (checkResource (answers tick))
                (enterDefault t)) as [[[]| | |] f']; simpl in *.
    + destruct H as [Ht _]. destruct (ready f'); simpl in E.
      * inversion E. reflexivity.
      * rewrite Ht in E. destruct (IsTaskDone t) eqn:Hd; inversion E; subst; auto.
    + destruct H as [e Ht]. inversion E. rewrite Ht. reflexivity.
    + destruct H as [Ht Hr]. rewrite Hr in E. simpl in E. rewrite Ht in E.
      destruct (IsTaskDone t) eqn:Hd; inversion E; subst; auto.
    + contradiction.
Qed.

(** X14: the loop of Wait is left only with a task that IsTaskDone reports
    as done, it never dereferences nil, and as long as it has not been left
    the task is exactly what it was when the loop was entered. *)
Theorem poll_leaves_only_when_done ticks t :
  match fst (poll ticks t) with
  | Returned => IsTaskDone (snd (poll ticks t)) = true
  | StillPolling => snd (poll ticks t) = t
  | Crashed => False
  end.
Proof.
  induction ticks as [|tick later IH]; simpl; [reflexivity|].
  pose proof (selectCase_leaves tick t) as H.
  destruct (selectCase tick t) as [[[]| | |] t']; simpl in *; try contradiction.
  - subst t'. exact IH.
  - exact H.
Qed.

(** X15: on a default tick of a task that tracks a resource, an error of
    the first pod listing fails the task with the text of that error, before
    any workload is fetched. *)
Theorem default_tick_fails_on_list_error c t r rest label labels e :
  ReplaceResources t = r :: rest ->
  RelatedPodLabels t = label :: labels ->
  ListPods c (Namespace t) label = Err e ->
  selectCase {| chosen := Default_; answers := c |} t = (Return, failedWith e t).
Proof.
  intros Hrs Hls Hlist. unfold selectCase. cbn [chosen answers].
  assert (Hscan : workLoadDeployStat c (Namespace t) (RelatedPodLabels t)
                    (PodOwnerUID r) = Some e).
  { rewrite Hls. simpl. now rewrite Hlist. }
  rewrite (onDefault_returns c t
             {| task := failedWith e t; ready := true; werr := None |});
    [reflexivity|].
  rewrite Hrs. apply forEach_return. now apply checkResource_fails.
Qed.

Lemma default_tick_fails_on_list_error_witness :
  let t := Scenario.tracking [Scenario.dbResource "uid-db"] in
  selectCase {| chosen := Default_; answers := Scenario.podsHidden |} t
    = (Return, failedWith "pods is forbidden" t).
Proof.
  intros t.
  apply (default_tick_fails_on_list_error Scenario.podsHidden t
           (Scenario.dbResource "uid-db") [] Scenario.appLabels []);
    reflexivity.
Defined.

(** X16: the pod scan finds nothing for a fingerprint exactly when none of
    the listed pods that match the fingerprint has a container, init or
    regular, waiting for a reason of the terminal set. *)
Theorem workLoadDeployStat_clean c ns labelMaps uid pods :
  listRelatedPods c ns labelMaps = Ok pods ->
  (workLoadDeployStat c ns labelMaps uid = None <->
   forall pod, In pod pods -> IsOwnerMatched pod uid = true -> stuck pod = false).
Proof.
  intros Hlist. split.
  - intros Hnone pod Hin Hown. destruct (stuck pod) eqn:Hst; [| reflexivity].
    exfalso.
    exact (workLoadDeployStat_complete c ns uid labelMaps pods pod Hlist Hin Hown Hst
             Hnone).
  - intros Hall.
    destruct (workLoadDeployStat c ns labelMaps uid) as [e|] eqn:Hw; [| reflexivity].
    destruct (workLoadDeployStat_sound c ns uid labelMaps pods e Hlist Hw)
      as (pod & cs & w & Hin & Hown & Hcs & Hwait & Hterm & _).
    specialize (Hall pod Hin Hown). unfold stuck in Hall.
    assert (Hex : existsb
              (fun cs => match cs_Waiting cs with
                         | Some w => isTerminalReason (w_Reason w)
                         | None => false
                         end)
              (pod_InitContainerStatuses pod ++ pod_ContainerStatuses pod) = true).
    { apply List.existsb_exists. exists cs. rewrite Hwait. auto. }
    congruence.
Qed.

Lemma workLoadDeployStat_clean_witness :
  workLoadDeployStat (Scenario.rolling 3 [Scenario.pendingPod; Scenario.crashingPod])
    "dev" [Scenario.appLabels] "uid-rs-2" = None <->
  forall pod, In pod [Scenario.pendingPod; Scenario.crashingPod] ->
              IsOwnerMatched pod "uid-rs-2" = true -> stuck pod = false.
Proof.
  apply (workLoadDeployStat_clean
           (Scenario.rolling 3 [Scenario.pendingPod; Scenario.crashingPod])
           "dev" [Scenario.appLabels] "uid-rs-2"
           [Scenario.pendingPod; Scenario.crashingPod]).
  reflexivity.
Defined.

(** ** Wait: a failure of the fingerprinting *)

Lemma ownerUIDLoop_stops sortSlice c ns before r after keep e : forall acc made,
  Forall (fun r' => exists r'', fst (fingerprint sortSlice c ns r') = Enriched r'')
         before ->
  fst (fingerprint sortSlice c ns r) = FailWith keep e ->
  exists out,
    fst (ownerUIDLoop sortSlice c ns (before ++ r :: after) acc made)
      = Resolved out (Some e).
Proof.
  induction before as [|r' rest IH]; intros acc made Hb Hr; simpl.
  - destruct (fingerprint sortSlice c ns r) as [fp calls]. simpl in Hr. subst fp.
    eexists. reflexivity.
  - inversion Hb as [|? ? [r'' Hr'] Hrest]; subst.
    destruct (fingerprint sortSlice c ns r') as [fp calls]. simpl in Hr'. subst fp.
    apply IH; assumption.
Qed.

(** X17: when the fingerprinting reaches a tracked deployment none of whose
    listed replica sets is controlled by it, Wait returns at once, whatever
    the ticks would have been: the error text names the deployment, and
    apart from the default of the timeout nothing else of the task changes;
    the fingerprints found so far are dropped and no status is assigned. *)
Theorem Wait_needs_a_replica_set sortSlice DeployTimeout w p before r after d
    selector replicaSets :
  SkipWaiting (Task p) = false ->
  ReplaceResources (Task p) = before ++ r :: after ->
  Forall (fun r' => exists r'',
            fst (fingerprint sortSlice (setup w) (Namespace (Task p)) r') = Enriched r'')
         before ->
  Kind r = setting.Deployment ->
  GetDeployment (setup w) (Namespace (Task p)) (Name r) = GetFound d ->
  LabelSelectorAsSelector (d_Selector d) = Ok selector ->
  ListReplicaSets (setup w) (Namespace (Task p)) selector = Ok replicaSets ->
  Forall (fun rs => IsControlledBy rs d = false) replicaSets ->
  Wait sortSlice DeployTimeout w p =
    (Returned,
     with_Task
       (with_Error ("get resource owner info error: no replicaset found for deployment: "
                      +:+ d_Name d)
          (snd (TaskTimeout DeployTimeout (Task p)))) p).
Proof.
  intros Hskip Hrs Hb Hkind Hget Hsel Hlist Hnone.
  assert (Hfp : fst (fingerprint sortSlice (setup w) (Namespace (Task p)) r)
                = FailWith true ("no replicaset found for deployment: " +:+ d_Name d)).
  { unfold fingerprint. rewrite Hkind. simpl. rewrite Hget.
    unfold fingerprintDeployment. rewrite Hsel, Hlist.
    replace (List.filter (fun rs => IsControlledBy rs d) replicaSets) with (@nil ReplicaSet);
      [reflexivity|].
    clear -Hnone. induction Hnone as [|rs rest Hrs _ IH]; simpl; [reflexivity|].
    rewrite Hrs. exact IH. }
  destruct (ownerUIDLoop_stops sortSlice (setup w) (Namespace (Task p)) before r after
              true _ [] [] Hb Hfp) as [out Hout].
  rewrite <- Hrs in Hout.
  unfold Wait. rewrite Hskip.
  destruct (TaskTimeout DeployTimeout (Task p)) as [duration t] eqn:Ht.
  assert (Hg : getResourcesPodOwnerUID sortSlice (setup w) t
               = getResourcesPodOwnerUID sortSlice (setup w) (Task p)).
  { replace t with (snd (TaskTimeout DeployTimeout (Task p))) by now rewrite Ht.
    apply getResourcesPodOwnerUID_TaskTimeout. }
  rewrite Hg. unfold getResourcesPodOwnerUID. rewrite Hout. reflexivity.
Qed.

Lemma Wait_needs_a_replica_set_witness :
  let w := {| setup := Scenario.orphaned;
              ticks := [Scenario.tick Default_ (Scenario.rolling 3 [])] |} in
  let p := Scenario.pluginOn Scenario.orphaned
             (Scenario.tracking [Scenario.cronResource;
                                 Scenario.deployResource EmptyString]) in
  Wait insertionSort 600 w p =
    (Returned,
     with_Task
       (with_Error ("get resource owner info error: no replicaset found for deployment: "
                      +:+ d_Name (Scenario.myservice 3))
          (snd (TaskTimeout 600 (Task p)))) p).
Proof.
  intros w p.
  apply (Wait_needs_a_replica_set insertionSort 600 w p [Scenario.cronResource]
           (Scenario.deployResource EmptyString) [] (Scenario.myservice 3)
           Scenario.appLabels [Scenario.rsForeign]); try reflexivity.
  - repeat constructor. exists Scenario.cronResource. reflexivity.
  - repeat constructor.
Defined.

(** ** The workloads of an imported service *)

Lemma joinWorkloads_assoc a b c :
  joinWorkloads (joinWorkloads a b) c = joinWorkloads a (joinWorkloads b c).
Proof. unfold joinWorkloads. simpl. now rewrite <- !app_assoc. Qed.

Lemma joinWorkloads_nil_r a : joinWorkloads a noWorkloads = a.
Proof. destruct a. unfold joinWorkloads. simpl. now rewrite !app_nil_r. Qed.

Lemma joinWorkloads_nil_l a : joinWorkloads noWorkloads a = a.
Proof. destruct a. reflexivity. Qed.

Lemma importManifest_join env kClient namespace version acc manifest :
  importManifest env kClient namespace version acc manifest
    = joinWorkloads acc (imports env kClient namespace version manifest).
Proof.
  unfold imports, importManifest.
  destruct (YamlToUnstructured env manifest) as [u|e];
    [| now rewrite joinWorkloads_nil_r].
  destruct (String.eqb (u_Kind u) setting.Deployment).
  { destruct (GetDeployment _ _ _); rewrite ?joinWorkloads_nil_r; try reflexivity.
    unfold joinWorkloads. simpl. now rewrite !app_nil_r. }
  destruct (String.eqb (u_Kind u) setting.StatefulSet).
  { destruct (GetStatefulSet _ _ _); rewrite ?joinWorkloads_nil_r; try reflexivity.
    unfold joinWorkloads. simpl. now rewrite !app_nil_r. }
  destruct (String.eqb (u_Kind u) setting.CronJob).
  { destruct (GetCronJob _ _ _ _); rewrite ?joinWorkloads_nil_r; try reflexivity.
    unfold joinWorkloads. simpl. now rewrite !app_nil_r. }
  now rewrite joinWorkloads_nil_r.
Qed.

Lemma import_fold env kClient namespace version manifests : forall acc,
  fold_left (importManifest env kClient namespace version) manifests acc
    = joinWorkloads acc (importAll env kClient namespace version manifests).
Proof.
  unfold importAll.
  induction manifests as [|m rest IH]; intros acc; simpl.
  - now rewrite joinWorkloads_nil_r.
  - rewrite IH, (IH (importManifest _ _ _ _ noWorkloads m)).
    rewrite !importManifest_join, joinWorkloads_nil_l. apply joinWorkloads_assoc.
Qed.

Lemma importAll_cons env kClient namespace version m rest :
  importAll env kClient namespace version (m :: rest)
    = joinWorkloads (imports env kClient namespace version m)
                    (importAll env kClient namespace version rest).
Proof. unfold importAll at 1. simpl. apply import_fold. Qed.

Lemma importAll_In {A} (proj : Workloads -> list A) env kClient namespace version :
  (forall a b, proj (joinWorkloads a b) = proj a ++ proj b) ->
  proj noWorkloads = [] ->
  forall manifests x,
    In x (proj (importAll env kClient namespace version manifests)) <->
    exists m, In m manifests /\ In x (proj (imports env kClient namespace version m)).
Proof.
  intros Hjoin Hnil manifests x.
  induction manifests as [|m rest IH].
  - unfold importAll. simpl. rewrite Hnil. simpl. split; [tauto|].
    intros (m & [] & _).
  - rewrite importAll_cons, Hjoin, List.in_app_iff, IH. simpl. split.
    + intros [H | (m' & Hin & H)]; [exists m | exists m']; auto.
    + intros (m' & [-> | Hin] & H); [left | right; exists m']; auto.
Qed.

Ltac imports_forward :=
  unfold imports, importManifest;
  destruct (YamlToUnstructured _ _) as [u|e]; [| intros []];
  destruct (String.eqb (u_Kind u) setting.Deployment) eqn:Kd;
  [ destruct (GetDeployment _ _ _) eqn:Hget
  | destruct (String.eqb (u_Kind u) setting.StatefulSet) eqn:Ks;
    [ destruct (GetStatefulSet _ _ _) eqn:Hget
    | destruct (String.eqb (u_Kind u) setting.CronJob) eqn:Kc;
      [ destruct (GetCronJob _ _ _ _) as [[cron|] [beta|]| |] eqn:Hget | ] ] ];
  simpl; try (intros []; fail);
  intros [<-|[]];
  rewrite ?String.eqb_eq in *.

Lemma imports_deployments env kClient namespace version manifest d :
  In d (deployments (imports env kClient namespace version manifest)) <->
  exists u, YamlToUnstructured env manifest = Ok u
            /\ u_Kind u = setting.Deployment
            /\ GetDeployment kClient namespace (u_Name u) = GetFound d.
Proof.
  split.
  - imports_forward. eauto.
  - intros (u & Hdec & Hkind & Hget). unfold imports, importManifest.
    rewrite Hdec, Hkind. cbn. rewrite Hget. simpl. auto.
Qed.

Lemma imports_statefulSets env kClient namespace version manifest s :
  In s (statefulSets (imports env kClient namespace version manifest)) <->
  exists u, YamlToUnstructured env manifest = Ok u
            /\ u_Kind u = setting.StatefulSet
            /\ GetStatefulSet kClient namespace (u_Name u) = GetFound s.
Proof.
  split.
  - imports_forward. eauto.
  - intros (u & Hdec & Hkind & Hget). unfold imports, importManifest.
    rewrite Hdec, Hkind. cbn. rewrite Hget. simpl. auto.
Qed.

Lemma imports_cronJobs env kClient namespace version manifest c :
  In c (cronJobs (imports env kClient namespace version manifest)) <->
  exists u beta, YamlToUnstructured env manifest = Ok u
            /\ u_Kind u = setting.CronJob
            /\ GetCronJob kClient namespace (u_Name u) (VersionLessThan121 version)
               = CronFound (Some c) beta.
Proof.
  split.
  - imports_forward; eauto.
  - intros (u & beta & Hdec & Hkind & Hget). unfold imports, importManifest.
    rewrite Hdec, Hkind. cbn. rewrite Hget. simpl. auto.
Qed.

Lemma imports_cronJobBetas env kClient namespace version manifest c :
  In c (cronJobBetas (imports env kClient namespace version manifest)) <->
  exists u cron, YamlToUnstructured env manifest = Ok u
            /\ u_Kind u = setting.CronJob
            /\ GetCronJob kClient namespace (u_Name u) (VersionLessThan121 version)
               = CronFound cron (Some c).
Proof.
  split.
  - imports_forward; eauto.
  - intros (u & cron & Hdec & Hkind & Hget). unfold imports, importManifest.
    rewrite Hdec, Hkind. cbn. rewrite Hget. simpl. auto.
Qed.

(** X18: when aslan exports the manifests of the service, the fallback
    succeeds after that one call, and it returns exactly the workloads that
    the cluster holds under the name of a manifest that decodes to their
    kind: manifests that do not decode, manifests of other kinds and names
    the cluster does not hold contribute nothing and do not fail the
    fallback. *)
Theorem imported_workloads_are_the_declared_ones env envName namespace productName
    serviceName kClient version manifests :
  httpExportService env productName envName serviceName = Ok manifests ->
  exists w,
    fetchWorkloadsForImportedService env envName namespace productName serviceName
      kClient version
      = (Ok w, [CallExportService productName envName serviceName])
    /\ (forall d, In d (deployments w) <->
          exists name, declares env manifests setting.Deployment name
                       /\ GetDeployment kClient namespace name = GetFound d)
    /\ (forall s, In s (statefulSets w) <->
          exists name, declares env manifests setting.StatefulSet name
                       /\ GetStatefulSet kClient namespace name = GetFound s)
    /\ (forall c, In c (cronJobs w) <->
          exists name beta,
            declares env manifests setting.CronJob name
            /\ GetCronJob kClient namespace name (VersionLessThan121 version)
               = CronFound (Some c) beta)
    /\ (forall c, In c (cronJobBetas w) <->
          exists name cron,
            declares env manifests setting.CronJob name
            /\ GetCronJob kClient namespace name (VersionLessThan121 version)
               = CronFound cron (Some c)).
Proof.
  intros Hexp. exists (importAll env kClient namespace version manifests).
  unfold fetchWorkloadsForImportedService. rewrite Hexp.
  split; [reflexivity|]. unfold declares.
  repeat split.
  - rewrite (importAll_In deployments) by reflexivity.
    intros (m & Hin & H). apply imports_deployments in H as (u & Hdec & Hk & Hget).
    exists (u_Name u). split; [exists m, u|]; auto.
  - intros (name & (m & u & Hin & Hdec & Hk & <-) & Hget).
    rewrite (importAll_In deployments) by reflexivity.
    exists m. split; [exact Hin|]. apply imports_deployments. eauto.
  - rewrite (importAll_In statefulSets) by reflexivity.
    intros (m & Hin & H). apply imports_statefulSets in H as (u & Hdec & Hk & Hget).
    exists (u_Name u). split; [exists m, u|]; auto.
  - intros (name & (m & u & Hin & Hdec & Hk & <-) & Hget).
    rewrite (importAll_In statefulSets) by reflexivity.
    exists m. split; [exact Hin|]. apply imports_statefulSets. eauto.
  - rewrite (importAll_In cronJobs) by reflexivity.
    intros (m & Hin & H). apply imports_cronJobs in H as (u & beta & Hdec & Hk & Hget).
    exists (u_Name u), beta. split; [exists m, u|]; auto.
  - intros (name & beta & (m & u & Hin & Hdec & Hk & <-) & Hget).
    rewrite (importAll_In cronJobs) by reflexivity.
    exists m. split; [exact Hin|]. apply imports_cronJobs. eauto.
  - rewrite (importAll_In cronJobBetas) by reflexivity.
    intros (m & Hin & H). apply imports_cronJobBetas in H as (u & cron & Hdec & Hk & Hget).
    exists (u_Name u), cron. split; [exists m, u|]; auto.
  - intros (name & cron & (m & u & Hin & Hdec & Hk & <-) & Hget).
    rewrite (importAll_In cronJobBetas) by reflexivity.
    exists m. split; [exact Hin|]. apply imports_cronJobBetas. eauto.
Qed.

Lemma imported_workloads_are_the_declared_ones_witness :
  let env := Scenario.exporting in
  let kClient := Scenario.rolling 3 [] in
  let manifests := ["kind: StatefulSet"; "{"; "kind: Deployment"] in
  exists w,
    fetchWorkloadsForImportedService env "dev" "dev" "shop" "myservice" kClient
      Scenario.version122
      = (Ok w, [CallExportService "shop" "dev" "myservice"])
    /\ (forall d, In d (deployments w) <->
          exists name, declares env manifests setting.Deployment name
                       /\ GetDeployment kClient "dev" name = GetFound d)
    /\ (forall s, In s (statefulSets w) <->
          exists name, declares env manifests setting.StatefulSet name
                       /\ GetStatefulSet kClient "dev" name = GetFound s)
    /\ (forall c, In c (cronJobs w) <->
          exists name beta,
            declares env manifests setting.CronJob name
            /\ GetCronJob kClient "dev" name (VersionLessThan121 Scenario.version122)
               = CronFound (Some c) beta)
    /\ (forall c, In c (cronJobBetas w) <->
          exists name cron,
            declares env manifests setting.CronJob name
            /\ GetCronJob kClient "dev" name (VersionLessThan121 Scenario.version122)
               = CronFound cron (Some c)).
Proof.
  intros env kClient manifests.
  apply (imported_workloads_are_the_declared_ones env "dev" "dev" "shop" "myservice"
           kClient Scenario.version122 manifests).
  reflexivity.
Defined.

(** ** Run: a rejected patch of a cron job on the unknown-type path *)

Lemma loop_without_match {W} kind segment update (nsOf nameOf : W -> string)
    (containersOf : W -> list Container) (labelsOf : W -> option Labels) cname
    (ws : list W) f :
  Forall (fun w => hasMatch cname (containersOf w) = false) ws ->
  labelled (forEach ws (fun w =>
      scanContainers kind segment update (nsOf w) (nameOf w) cname
        (containersOf w) (labelsOf w))) f = (Norm tt, f).
Proof.
  intros Hno. rewrite workloadLoop_firstMatch.
  replace (List.find (fun w => hasMatch cname (containersOf w)) ws) with (@None W);
    [reflexivity|].
  induction Hno as [|w rest Hw _ IH]; simpl; [reflexivity|]. now rewrite Hw.
Qed.

Lemma Run_unknown_path env payload p version serviceInfo f w :
  prepare env payload (enterRun p) = (Norm (version, serviceInfo), f) ->
  WorkloadType serviceInfo = EmptyString ->
  fst (fetchRelatedWorkloads env (EnvName (Task p)) (Namespace (Task p))
         (ProductName (Task p)) (ServiceName (Task p)) (kubeClient (plugin f))
         version) = Ok w ->
  exists made,
    Run_body env payload (enterRun p) =
      bind (patchDiscovered (logicalContainerName (Task p)) w)
           (fun _ => requireReplaced)
           {| plugin := plugin f; err := None; replaced := false; calls := made |}.
Proof.
  intros Hprep Hk Hfetch.
  destruct (prepare_frame env payload p _ f Hprep) as (Ht & Hr & Hc).
  pose proof (prepare_clears_error env payload (enterRun p)) as He.
  unfold sat in He. rewrite Hprep in He. simpl in He.
  rewrite <- Ht in Hfetch.
  destruct (fetchRelatedWorkloads env (EnvName (Task (plugin f)))
              (Namespace (Task (plugin f))) (ProductName (Task (plugin f)))
              (ServiceName (Task (plugin f))) (kubeClient (plugin f)) version)
    as [found made] eqn:Hf.
  simpl in Hfetch. subst found. exists made.
  unfold Run_body. rewrite (bind_norm _ _ _ _ _ Hprep). cbn [fst snd].
  unfold resolveAndPatch. unfold bind at 1. unfold bind at 1, gets at 1. simpl.
  rewrite Hk, Hf. simpl. rewrite Ht.
  destruct f as [pl e r cs]. simpl in *. subst e r cs. reflexivity.
Qed.

(** X19: on the unknown-type path, when no deployment and no stateful set
    has a container of the logical name and the cluster rejects the patch of
    the first cron job that has one, Run fails with the cause wrapped in a
    place whose middle segment reads "statefulsets", and the update was asked
    for with the suspend flag off. *)
Theorem Run_reports_rejected_cron_patch env payload p version serviceInfo f w cron
    container cause :
  prepare env payload (enterRun p) = (Norm (version, serviceInfo), f) ->
  WorkloadType serviceInfo = EmptyString ->
  fst (fetchRelatedWorkloads env (EnvName (Task p)) (Namespace (Task p))
         (ProductName (Task p)) (ServiceName (Task p)) (kubeClient (plugin f))
         version) = Ok w ->
  Forall (fun d => hasMatch (logicalContainerName (Task p)) (d_Containers d) = false)
         (deployments w) ->
  Forall (fun s => hasMatch (logicalContainerName (Task p)) (s_Containers s) = false)
         (statefulSets w) ->
  List.find (fun c => hasMatch (logicalContainerName (Task p)) (cj_Containers c))
            (cronJobs w) = Some cron ->
  firstMatch (logicalContainerName (Task p)) (cj_Containers cron) = Some container ->
  UpdateCronJobImage (kubeClient (plugin f)) (cj_Namespace cron) (cj_Name cron)
    (logicalContainerName (Task p)) (Image (Task p)) false = Some cause ->
  fst (fst (Run env payload p)) = Completed
  /\ Task (snd (fst (Run env payload p)))
     = failedWith
         (WithMessage cause
            ("failed to update container image in " +:+ Namespace (Task p)
               +:+ "/statefulsets/" +:+ cj_Name cron +:+ "/" +:+ c_Name container))
         (Task p).
Proof.
  intros Hprep Hk Hfetch Hd Hs Hfind Hfirst Hup.
  destruct (prepare_frame env payload p _ f Hprep) as (Ht & _).
  destruct (Run_unknown_path env payload p version serviceInfo f w Hprep Hk Hfetch)
    as [made Hbody].
  set (f0 := {| plugin := plugin f; err := None; replaced := false; calls := made |})
    in Hbody.
  assert (Hpd : exists made',
            patchDiscovered (logicalContainerName (Task p)) w f0
            = (Return, rejected cause "statefulsets" (cj_Name cron) container made' f0)).
  { eexists. unfold patchDiscovered.
    rewrite (bind_norm _ _ _ _ _ (loop_without_match _ _ _ _ _ _ _ _ _ _ Hd)).
    rewrite (bind_norm _ _ _ _ _ (loop_without_match _ _ _ _ _ _ _ _ _ _ Hs)).
    unfold bind.
    rewrite (workloadLoop_firstMatch setting.CronJob "statefulsets" updateCron
               cj_Namespace cj_Name cj_Containers
               (fun c => Some (cj_TemplateLabels c))).
    rewrite Hfind, labelled_scan_outcome, Hfirst. simpl. rewrite Ht.
    unfold updateCron. rewrite Hup. reflexivity. }
  destruct Hpd as [made' Hpd].
  rewrite Run_unfold, Hbody. unfold bind. rewrite Hpd. simpl.
  unfold deferred. simpl. rewrite Ht. split; reflexivity.
Qed.

Lemma Run_reports_rejected_cron_patch_witness :
  let env := Scenario.aslan EmptyString in
  let p := Scenario.pluginOn Scenario.cronOnly Scenario.deployTask in
  fst (fst (Run env Scenario.localCluster p)) = Completed
  /\ Task (snd (fst (Run env Scenario.localCluster p)))
     = failedWith
         "failed to update container image in dev/statefulsets/nightly/api: forbidden"
         (Task p).
Proof.
  intros env p.
  apply (Run_reports_rejected_cron_patch env Scenario.localCluster p
           Scenario.version122 {| WorkloadType := EmptyString |}
           (snd (prepare env Scenario.localCluster (enterRun p)))
           {| deployments := []; statefulSets := []; cronJobs := [Scenario.nightly];
              cronJobBetas := [] |}
           Scenario.nightly Scenario.api "forbidden");
    try reflexivity; constructor.
Defined.

(** ** Run: the known-type path when the workload cannot be fetched *)

Lemma Run_known_path env payload p version serviceInfo f :
  prepare env payload (enterRun p) = (Norm (version, serviceInfo), f) ->
  String.eqb (WorkloadType serviceInfo) EmptyString = false ->
  Run_body env payload (enterRun p) =
    bind (patchKnown (WorkloadType serviceInfo) (logicalContainerName (Task p)) version)
         (fun _ => requireReplaced)
         {| plugin := plugin f; err := None; replaced := false; calls := [] |}.
Proof.
  intros Hprep Hk.
  destruct (prepare_frame env payload p _ f Hprep) as (Ht & Hr & Hc).
  pose proof (prepare_clears_error env payload (enterRun p)) as He.
  unfold sat in He. rewrite Hprep in He. simpl in He.
  unfold Run_body. rewrite (bind_norm _ _ _ _ _ Hprep). cbn [fst snd].
  unfold resolveAndPatch. unfold bind at 1. unfold bind at 1, gets at 1. simpl.
  rewrite Hk, Ht. destruct f as [pl e r cs]. simpl in *. subst. reflexivity.
Qed.

(** X20: on the known-type path, when the workload named after the service
    cannot be fetched, Run fails without asking for any patch: with the
    error of the fetch as it is for a deployment or a stateful set, wrapped
    in "failed to get cronjob" for a cron job, and with "deployment:",
    "statefulset:" or "cronJob: S not found" when the cluster does not hold
    it. *)
Theorem Run_fails_when_known_workload_is_missing env payload p version serviceInfo f :
  prepare env payload (enterRun p) = (Norm (version, serviceInfo), f) ->
  let t := Task p in
  let c := kubeClient (plugin f) in
  let failsWith (e : error) :=
    fst (fst (Run env payload p)) = Completed
    /\ Task (snd (fst (Run env payload p))) = failedWith e t
    /\ snd (Run env payload p) = [] in
  (WorkloadType serviceInfo = setting.Deployment ->
     (forall cause, GetDeployment c (Namespace t) (ServiceName t) = GetError cause ->
        failsWith cause)
     /\ (forall ptr, GetDeployment c (Namespace t) (ServiceName t) = GetMissing ptr ->
           failsWith ("deployment: " +:+ ServiceName t +:+ " not found")))
  /\ (WorkloadType serviceInfo = setting.StatefulSet ->
        (forall cause, GetStatefulSet c (Namespace t) (ServiceName t) = GetError cause ->
           failsWith cause)
        /\ (forall ptr, GetStatefulSet c (Namespace t) (ServiceName t) = GetMissing ptr ->
              failsWith ("statefulset: " +:+ ServiceName t +:+ " not found")))
  /\ (WorkloadType serviceInfo = setting.CronJob ->
        (forall cause,
           GetCronJob c (Namespace t) (ServiceName t) (VersionLessThan121 version)
             = CronError cause ->
           failsWith (WithMessage cause ("failed to get cronjob " +:+ ServiceName t)))
        /\ (GetCronJob c (Namespace t) (ServiceName t) (VersionLessThan121 version)
              = CronMissing ->
            failsWith ("cronJob: " +:+ ServiceName t +:+ " not found"))).
Proof.
  intros Hprep t c failsWith.
  destruct (prepare_frame env payload p _ f Hprep) as (Ht & _).
  assert (Hrun : forall e,
            patchKnown (WorkloadType serviceInfo) (logicalContainerName (Task p)) version
              {| plugin := plugin f; err := None; replaced := false; calls := [] |}
            = (Return, {| plugin := plugin f; err := Some e; replaced := false;
                          calls := [] |}) ->
            String.eqb (WorkloadType serviceInfo) EmptyString = false ->
            failsWith e).
  { intros e Hpatch Hk. unfold failsWith.
    rewrite Run_unfold, (Run_known_path _ _ _ _ _ _ Hprep Hk).
    unfold bind. rewrite Hpatch. simpl. unfold deferred. simpl. rewrite Ht.
    repeat split. }
  subst t c.
  split; [| split]; intros Hk; (split; [intros cause Hget | intros ? Hget || intros Hget]);
    (apply Hrun; [| now rewrite Hk]);
    unfold patchKnown, bind, gets, assignErr, modify, return_; simpl;
    rewrite Hk; simpl; rewrite Ht, Hget; reflexivity.
Qed.

Lemma Run_fails_when_known_workload_is_missing_witness :
  let env := Scenario.aslan setting.StatefulSet in
  let p := Scenario.pluginOn Scenario.cronOnly Scenario.deployTask in
  fst (fst (Run env Scenario.localCluster p)) = Completed
  /\ Task (snd (fst (Run env Scenario.localCluster p)))
     = failedWith "connection refused" (Task p)
  /\ snd (Run env Scenario.localCluster p) = [].
Proof.
  intros env p.
  apply (Run_fails_when_known_workload_is_missing env Scenario.localCluster p
           Scenario.version122 {| WorkloadType := setting.StatefulSet |}
           (snd (prepare env Scenario.localCluster (enterRun p))));
    reflexivity.
Defined.
